(** * DSAC club website: storage layer and REST handlers

    A shallow embedding of [server/storage.ts] (the in-memory backend
    [MemStorage] and the relational backend [PostgreSQLStorage]) and of the
    handlers of [server/routes.ts], followed by the properties of the
    leaderboard aggregation, the forum best-answer state machine, the
    cascading delete and the access checks.

    Conventions of the embedding
    - a JavaScript [number] that holds an id, a score or a counter is the
      integer it denotes, a [Z]; a sum of scores and the value of [parseInt]
      are rounded as a double rounds them ([roundToDouble]: exact up to
      2^53 in magnitude, 53 significant bits beyond); the step of a
      counter ([id++], [views + 1]) is exact, as it is below 2^53; numbers
      beyond the largest finite double are outside the model;
    - a string is the UTF-8 encoding of the text it holds (a text with an
      unpaired surrogate has none and is outside the model);
    - a [Date] is the number of milliseconds it denotes; an operation that
      evaluates [new Date()] (or the SQL [NOW()]) receives that reading as
      its argument [now];
    - a JavaScript [Map] is an insertion-ordered association list
      ([JsMap.t]): [set] on a present key replaces the value in place, on an
      absent key it appends;
    - an [async] method is a function from the store to a completion
      ([Resolved] or [Rejected]) and the store it leaves behind: a mutation
      made before a [throw] stays made. *)

From Stdlib Require Import ZArith List Ascii String Bool Lia Permutation PeanoNat.
From Stdlib Require Import Sorted DecimalString.
Import ListNotations.

Open Scope string_scope.
Open Scope list_scope.
Open Scope Z_scope.

(* ===================================================================== *)
(** * JavaScript values *)
(* ===================================================================== *)

(** [x || null] on an optional string: [undefined], [null] and the empty
    string are falsy. *)
Definition str_or_null (x : option string) : option string :=
  match x with
  | Some s => if String.eqb s "" then None else Some s
  | None => None
  end.

(** [x || null] on an optional number: [undefined], [null] and [0] are
    falsy. *)
Definition num_or_null (x : option Z) : option Z :=
  match x with
  | Some n => if n =? 0 then None else Some n
  | None => None
  end.

(** [x || null] on an optional array: every array is truthy. *)
Definition arr_or_null {A : Type} (x : option (list A)) : option (list A) := x.

(** [{...old, ...patch}] on one field: the patch wins when it has the key. *)
Definition spread {A : Type} (old : A) (patch : option A) : A :=
  match patch with
  | Some v => v
  | None => old
  end.

(** [{...obj, key: later}] on one field: a key written after the spread
    replaces whatever the spread copied. *)
Definition overridden {A : Type} (copied : option A) (later : A) : A := later.

(** [array.sort(compare)]: the sort of JavaScript is stable, and for a
    comparator that orders by a key the stable sorted arrangement is
    unique. It is written here as the insertion of each element, last one
    first, in front of the first element it does not have to follow. *)
Fixpoint insertWith {A : Type} (compare : A -> A -> Z) (a : A) (l : list A)
  : list A :=
  match l with
  | [] => [a]
  | b :: l' =>
      if compare a b >? 0 then b :: insertWith compare a l'
      else a :: b :: l'
  end.

Definition jsSort {A : Type} (compare : A -> A -> Z) (l : list A) : list A :=
  fold_right (insertWith compare) [] l.

(** The double nearest to an integer. Every integer up to 2^53 in magnitude
    is a double; a larger one is rounded to 53 significant bits, a tie to
    the even significand. (From 2^1024 on JavaScript has [Infinity], which
    is left out: the properties below that speak of sums keep them within
    2^53.) *)
Definition roundToDouble (n : Z) : Z :=
  let a := Z.abs n in
  if a <=? 2 ^ 53 then n
  else
    let e := Z.log2 a - 52 in
    let q := Z.shiftr a e in
    let r := a - Z.shiftl q e in
    let half := Z.shiftl 1 (e - 1) in
    let q' := if (half <? r) || ((r =? half) && Z.odd q) then q + 1 else q in
    Z.sgn n * Z.shiftl q' e.

(** [a + b] on two numbers that hold integers. *)
Definition jsAdd (a b : Z) : Z := roundToDouble (a + b).

(** [parseInt(text)] on ASCII text: leading white space is skipped, a sign
    is read, a prefix [0x] or [0X] selects radix 16, and the longest run of
    digits is read; the value is the double nearest to the number they
    denote; [None] is [NaN]. *)
Definition isWhiteSpace (c : ascii) : bool :=
  let n := Z.of_nat (nat_of_ascii c) in
  ((9 <=? n) && (n <=? 13)) || (n =? 32).

Fixpoint skipWhiteSpace (text : string) : string :=
  match text with
  | String c rest => if isWhiteSpace c then skipWhiteSpace rest else text
  | EmptyString => text
  end.

Definition digitValue (radix : Z) (c : ascii) : option Z :=
  let n := Z.of_nat (nat_of_ascii c) in
  let d :=
    if (48 <=? n) && (n <=? 57) then n - 48
    else if (97 <=? n) && (n <=? 122) then n - 87
    else if (65 <=? n) && (n <=? 90) then n - 55
    else radix in
  if d <? radix then Some d else None.

Fixpoint readDigits (radix : Z) (text : string) (value : option Z)
  : option Z :=
  match text with
  | String c rest =>
      match digitValue radix c with
      | Some d =>
          readDigits radix rest
            (Some (radix * match value with Some v => v | None => 0 end + d))
      | None => value
      end
  | EmptyString => value
  end.

Definition parseInt (text : string) : option Z :=
  let text := skipWhiteSpace text in
  let '(sign, text) :=
    match text with
    | String "-"%char rest => (-1, rest)
    | String "+"%char rest => (1, rest)
    | _ => (1, text)
    end in
  let '(radix, text) :=
    match text with
    | String "0"%char (String "x"%char rest) => (16, rest)
    | String "0"%char (String "X"%char rest) => (16, rest)
    | _ => (10, text)
    end in
  option_map (fun value => roundToDouble (sign * value))
    (readDigits radix text None).

(** The letters [A]-[Z] in lower case, the other characters as they are:
    how a regular expression with the flag [i] compares ASCII text. *)
Definition lowerAscii (c : ascii) : ascii :=
  let n := nat_of_ascii c in
  if (65 <=? n)%nat && (n <=? 90)%nat then ascii_of_nat (n + 32) else c.

Fixpoint lowerText (text : string) : string :=
  match text with
  | String c rest => String (lowerAscii c) (lowerText rest)
  | EmptyString => EmptyString
  end.

(* ===================================================================== *)
(** * The [Map] of JavaScript *)
(* ===================================================================== *)

Module JsMap.
Section Defs.
Context {V : Type}.

Definition t : Type := list (Z * V).

Definition empty : t := [].

Fixpoint get (k : Z) (m : t) : option V :=
  match m with
  | [] => None
  | (k', v) :: m' => if k' =? k then Some v else get k m'
  end.

Definition has (k : Z) (m : t) : bool :=
  match get k m with
  | Some _ => true
  | None => false
  end.

Fixpoint set (k : Z) (v : V) (m : t) : t :=
  match m with
  | [] => [(k, v)]
  | (k', v') :: m' =>
      if k' =? k then (k, v) :: m' else (k', v') :: set k v m'
  end.

Definition remove (k : Z) (m : t) : t :=
  filter (fun e => negb (fst e =? k)) m.

(** [Map.prototype.delete]: the answer tells whether the key was there. *)
Definition delete (k : Z) (m : t) : bool * t := (has k m, remove k m).

Definition keys (m : t) : list Z := map fst m.
Definition values (m : t) : list V := map snd m.
Definition entries (m : t) : list (Z * V) := m.

(** A [Map] holds a key once. *)
Definition wf (m : t) : Prop := NoDup (keys m).
End Defs.
Arguments t : clear implicits.
End JsMap.

(* ===================================================================== *)
(** * shared/schema.ts *)
(* ===================================================================== *)

Record User := mkUser {
  user_id : Z;
  user_username : string;
  user_password : string;
  user_displayName : string;
  user_email : string;
  user_avatar : option string;
  user_bio : option string;
  user_role : string;
  user_level : string;
  user_createdAt : Z
}.

(** The object handed to [createUser]. Its static type [InsertUser] has the
    first six fields; a caller may still pass an object that carries [role]
    and [level], which the spread [...insertUser] would copy. *)
Record InsertUser := mkInsertUser {
  iu_username : string;
  iu_password : string;
  iu_displayName : string;
  iu_email : string;
  iu_avatar : option string;
  iu_bio : option string;
  iu_role : option string;
  iu_level : option string
}.

Record Event := mkEvent {
  event_id : Z;
  event_title : string;
  event_description : string;
  event_eventType : string;
  event_date : Z;
  event_duration : Z;
  event_location : string;
  event_createdBy : Z;
  event_createdAt : Z
}.

Record InsertEvent := mkInsertEvent {
  ie_title : string;
  ie_description : string;
  ie_eventType : string;
  ie_date : Z;
  ie_duration : Z;
  ie_location : string;
  ie_createdBy : Z
}.

Record EventRegistration := mkEventRegistration {
  reg_id : Z;
  reg_eventId : Z;
  reg_userId : Z;
  reg_registeredAt : Z
}.

Record InsertEventRegistration := mkInsertEventRegistration {
  ir_eventId : Z;
  ir_userId : Z
}.

Record ContestResult := mkContestResult {
  cr_id : Z;
  cr_eventId : Z;
  cr_userId : Z;
  cr_position : option Z;
  cr_score : Z;
  cr_createdAt : Z
}.

Record InsertContestResult := mkInsertContestResult {
  ic_eventId : Z;
  ic_userId : Z;
  ic_position : option Z;
  ic_score : Z
}.

Record ForumPost := mkForumPost {
  post_id : Z;
  post_title : string;
  post_content : string;
  post_userId : Z;
  post_views : Z;
  post_createdAt : Z;
  post_updatedAt : Z;
  post_tags : option (list string)
}.

Record InsertForumPost := mkInsertForumPost {
  ip_title : string;
  ip_content : string;
  ip_userId : Z;
  ip_tags : option (list string)
}.

Record ForumReply := mkForumReply {
  reply_id : Z;
  reply_postId : Z;
  reply_content : string;
  reply_userId : Z;
  reply_upvotes : Z;
  reply_createdAt : Z;
  reply_updatedAt : Z;
  reply_isBestAnswer : bool
}.

Record InsertForumReply := mkInsertForumReply {
  iy_postId : Z;
  iy_content : string;
  iy_userId : Z
}.

(** [Partial<ForumReply>]: each key is present or not. *)
Record PartialForumReply := mkPartialForumReply {
  py_id : option Z;
  py_postId : option Z;
  py_content : option string;
  py_userId : option Z;
  py_upvotes : option Z;
  py_createdAt : option Z;
  py_updatedAt : option Z;
  py_isBestAnswer : option bool
}.

Record Resource := mkResource {
  res_id : Z;
  res_title : string;
  res_description : string;
  res_content : option string;
  res_resourceType : string;
  res_link : option string;
  res_userId : Z;
  res_createdAt : Z;
  res_updatedAt : Z
}.

Record InsertResource := mkInsertResource {
  is_title : string;
  is_description : string;
  is_content : option string;
  is_resourceType : string;
  is_link : option string;
  is_userId : Z
}.

(** [Partial<User>], [Partial<Event>], [Partial<ContestResult>],
    [Partial<ForumPost>] and [Partial<Resource>]: each key is present or
    not; a nullable field that is present holds a value or [null]. *)
Record PartialUser := mkPartialUser {
  pu_id : option Z;
  pu_username : option string;
  pu_password : option string;
  pu_displayName : option string;
  pu_email : option string;
  pu_avatar : option (option string);
  pu_bio : option (option string);
  pu_role : option string;
  pu_level : option string;
  pu_createdAt : option Z
}.

Record PartialEvent := mkPartialEvent {
  pe_id : option Z;
  pe_title : option string;
  pe_description : option string;
  pe_eventType : option string;
  pe_date : option Z;
  pe_duration : option Z;
  pe_location : option string;
  pe_createdBy : option Z;
  pe_createdAt : option Z
}.

Record PartialContestResult := mkPartialContestResult {
  pc_id : option Z;
  pc_eventId : option Z;
  pc_userId : option Z;
  pc_position : option (option Z);
  pc_score : option Z;
  pc_createdAt : option Z
}.

Record PartialForumPost := mkPartialForumPost {
  pp_id : option Z;
  pp_title : option string;
  pp_content : option string;
  pp_userId : option Z;
  pp_views : option Z;
  pp_createdAt : option Z;
  pp_updatedAt : option Z;
  pp_tags : option (option (list string))
}.

Record PartialResource := mkPartialResource {
  pr_id : option Z;
  pr_title : option string;
  pr_description : option string;
  pr_content : option (option string);
  pr_resourceType : option string;
  pr_link : option (option string);
  pr_userId : option Z;
  pr_createdAt : option Z;
  pr_updatedAt : option Z
}.

(** Field assignments on a reply ([reply.upvotes += 1],
    [reply.isBestAnswer = b]). *)
Definition reply_set_upvotes (n : Z) (r : ForumReply) : ForumReply :=
  mkForumReply (reply_id r) (reply_postId r) (reply_content r) (reply_userId r)
    n (reply_createdAt r) (reply_updatedAt r) (reply_isBestAnswer r).

Definition reply_set_isBestAnswer (b : bool) (r : ForumReply) : ForumReply :=
  mkForumReply (reply_id r) (reply_postId r) (reply_content r) (reply_userId r)
    (reply_upvotes r) (reply_createdAt r) (reply_updatedAt r) b.

Definition post_set_views (n : Z) (p : ForumPost) : ForumPost :=
  mkForumPost (post_id p) (post_title p) (post_content p) (post_userId p)
    n (post_createdAt p) (post_updatedAt p) (post_tags p).

(* ===================================================================== *)
(** * Completions of asynchronous methods *)
(* ===================================================================== *)

(** What a rejected promise carries: a JavaScript [Error] with its message,
    the [ZodError] of a schema that refuses a request body, or the error the
    database driver raises on a violated constraint or a value that the
    type of its column does not have. *)
Inductive DbViolation :=
| ForeignKey (table column : string)
| UniqueKey (table column : string)
| ValueTooLong (table column : string)
| IntegerOutOfRange
| InvalidByteSequence.

Inductive Failure :=
| JsError (message : string)
| ZodError
| DbError (violation : DbViolation).

Inductive Completion (A : Type) :=
| Resolved (a : A)
| Rejected (e : Failure).
Arguments Resolved {A} a.
Arguments Rejected {A} e.

Definition Async (St A : Type) : Type := St -> Completion A * St.

Definition ret {St A : Type} (a : A) : Async St A :=
  fun s => (Resolved a, s).

Definition throw {St A : Type} (e : Failure) : Async St A :=
  fun s => (Rejected e, s).

Definition bind {St A B : Type} (c : Async St A) (k : A -> Async St B)
  : Async St B :=
  fun s =>
    match c s with
    | (Resolved a, s') => k a s'
    | (Rejected e, s') => (Rejected e, s')
    end.

(** [try { c } catch (error) { h error }]. *)
Definition try_catch {St A : Type} (c : Async St A) (h : Failure -> Async St A)
  : Async St A :=
  fun s =>
    match c s with
    | (Resolved a, s') => (Resolved a, s')
    | (Rejected e, s') => h e s'
    end.

Definition gets {St A : Type} (f : St -> A) : Async St A :=
  fun s => (Resolved (f s), s).

Definition modify {St : Type} (f : St -> St) : Async St unit :=
  fun s => (Resolved tt, f s).

Declare Scope async_scope.
Delimit Scope async_scope with async.
Notation "x <- c ;; k" := (bind c (fun x => k))
  (at level 61, c at next level, right associativity) : async_scope.
Notation "c ;;; k" := (bind c (fun _ => k))
  (at level 61, right associativity) : async_scope.
Open Scope async_scope.

(* ===================================================================== *)
(** * server/storage.ts: [MemStorage] *)
(* ===================================================================== *)

Module Mem.

Record MemStorage := mkMemStorage {
  users : JsMap.t User;
  events : JsMap.t Event;
  eventRegistrations : JsMap.t EventRegistration;
  contestResults : JsMap.t ContestResult;
  forumPosts : JsMap.t ForumPost;
  forumReplies : JsMap.t ForumReply;
  resources : JsMap.t Resource;
  userId : Z;
  eventId : Z;
  eventRegistrationId : Z;
  contestResultId : Z;
  forumPostId : Z;
  forumReplyId : Z;
  resourceId : Z
}.

(** Assignments to the fields of [this]. *)
Definition set_users (m : JsMap.t User) (n : Z) (s : MemStorage) :=
  mkMemStorage m (events s) (eventRegistrations s) (contestResults s)
    (forumPosts s) (forumReplies s) (resources s)
    n (eventId s) (eventRegistrationId s) (contestResultId s)
    (forumPostId s) (forumReplyId s) (resourceId s).

Definition set_events (m : JsMap.t Event) (n : Z) (s : MemStorage) :=
  mkMemStorage (users s) m (eventRegistrations s) (contestResults s)
    (forumPosts s) (forumReplies s) (resources s)
    (userId s) n (eventRegistrationId s) (contestResultId s)
    (forumPostId s) (forumReplyId s) (resourceId s).

Definition set_eventRegistrations (m : JsMap.t EventRegistration) (n : Z)
    (s : MemStorage) :=
  mkMemStorage (users s) (events s) m (contestResults s)
    (forumPosts s) (forumReplies s) (resources s)
    (userId s) (eventId s) n (contestResultId s)
    (forumPostId s) (forumReplyId s) (resourceId s).

Definition set_contestResults (m : JsMap.t ContestResult) (n : Z)
    (s : MemStorage) :=
  mkMemStorage (users s) (events s) (eventRegistrations s) m
    (forumPosts s) (forumReplies s) (resources s)
    (userId s) (eventId s) (eventRegistrationId s) n
    (forumPostId s) (forumReplyId s) (resourceId s).

Definition set_forumPosts (m : JsMap.t ForumPost) (n : Z) (s : MemStorage) :=
  mkMemStorage (users s) (events s) (eventRegistrations s) (contestResults s)
    m (forumReplies s) (resources s)
    (userId s) (eventId s) (eventRegistrationId s) (contestResultId s)
    n (forumReplyId s) (resourceId s).

Definition set_forumReplies (m : JsMap.t ForumReply) (n : Z) (s : MemStorage) :=
  mkMemStorage (users s) (events s) (eventRegistrations s) (contestResults s)
    (forumPosts s) m (resources s)
    (userId s) (eventId s) (eventRegistrationId s) (contestResultId s)
    (forumPostId s) n (resourceId s).

Definition set_resources (m : JsMap.t Resource) (n : Z) (s : MemStorage) :=
  mkMemStorage (users s) (events s) (eventRegistrations s) (contestResults s)
    (forumPosts s) (forumReplies s) m
    (userId s) (eventId s) (eventRegistrationId s) (contestResultId s)
    (forumPostId s) (forumReplyId s) n.

(** The admin account the constructor installs. *)
Definition adminUser (adminId now : Z) : User :=
  mkUser adminId "admin"
    "$2b$10$X4kv7j5ZcG39WgogSl1Z.edYQTThGZpLJ/zqxK5eTnStY3olD5Wm2"
    "Admin" "admin@dsac.com"
    (Some "https://api.dicebear.com/7.x/avataaars/svg?seed=admin")
    (Some "Site administrator") "admin" "advanced" now.

(** [constructor()]: empty maps, counters at 1, then the admin user. *)
Definition constructor (now : Z) : MemStorage :=
  let adminId := 1 in
  mkMemStorage
    (JsMap.set adminId (adminUser adminId now) JsMap.empty)
    JsMap.empty JsMap.empty JsMap.empty JsMap.empty JsMap.empty JsMap.empty
    (adminId + 1) 1 1 1 1 1 1.

(** ** User operations *)

Definition getUser (id : Z) : Async MemStorage (option User) :=
  gets (fun s => JsMap.get id (users s)).

Definition createUser (insertUser : InsertUser) (now : Z)
  : Async MemStorage User :=
  fun s =>
    let id := userId s in
    let user :=
      mkUser id (iu_username insertUser) (iu_password insertUser)
        (iu_displayName insertUser) (iu_email insertUser)
        (str_or_null (iu_avatar insertUser))
        (str_or_null (iu_bio insertUser))
        (overridden (iu_role insertUser) "member")
        (overridden (iu_level insertUser) "beginner")
        now in
    (Resolved user, set_users (JsMap.set id user (users s)) (id + 1) s).

(** ** Event operations *)

Definition getEvent (id : Z) : Async MemStorage (option Event) :=
  gets (fun s => JsMap.get id (events s)).

Definition createEvent (insertEvent : InsertEvent) (now : Z)
  : Async MemStorage Event :=
  fun s =>
    let id := eventId s in
    let event :=
      mkEvent id (ie_title insertEvent) (ie_description insertEvent)
        (ie_eventType insertEvent) (ie_date insertEvent)
        (ie_duration insertEvent) (ie_location insertEvent)
        (ie_createdBy insertEvent) now in
    (Resolved event, set_events (JsMap.set id event (events s)) (id + 1) s).

(** ** Event registration operations *)

Definition getEventRegistration (eventId userId : Z)
  : Async MemStorage (option EventRegistration) :=
  gets (fun s =>
    find (fun reg => (reg_eventId reg =? eventId) && (reg_userId reg =? userId))
         (JsMap.values (eventRegistrations s))).

Definition createEventRegistration
    (insertRegistration : InsertEventRegistration) (now : Z)
  : Async MemStorage EventRegistration :=
  fun s =>
    let id := eventRegistrationId s in
    let registration :=
      mkEventRegistration id (ir_eventId insertRegistration)
        (ir_userId insertRegistration) now in
    (Resolved registration,
     set_eventRegistrations
       (JsMap.set id registration (eventRegistrations s)) (id + 1) s).

(** ** Contest result operations *)

Definition createContestResult (insertResult : InsertContestResult) (now : Z)
  : Async MemStorage ContestResult :=
  fun s =>
    let id := contestResultId s in
    let result :=
      mkContestResult id (ic_eventId insertResult) (ic_userId insertResult)
        (num_or_null (ic_position insertResult)) (ic_score insertResult) now in
    (Resolved result,
     set_contestResults (JsMap.set id result (contestResults s)) (id + 1) s).

Definition deleteContestResult (id : Z) : Async MemStorage bool :=
  fun s =>
    let (existed, m) := JsMap.delete id (contestResults s) in
    (Resolved existed, set_contestResults m (contestResultId s) s).

(** ** Leaderboard operations *)

(** The value type of the local map [userScores]. *)
Record ScoreData := mkScoreData {
  sd_userId : Z;
  sd_totalScore : Z;
  sd_contestCount : Z
}.

(** A row of the leaderboard. *)
Record LeaderboardRow := mkLeaderboardRow {
  lb_id : Z;
  lb_username : string;
  lb_displayName : string;
  lb_avatar : option string;
  lb_level : string;
  lb_score : Z;
  lb_contestCount : Z;
  lb_topProblem : string
}.

Definition problems : list string :=
  ["Binary Tree"; "DP"; "Graphs"; "Backtracking"; "Greedy"; "BFS/DFS"].

(** [getRandomTopProblem()], given the index
    [Math.floor(Math.random() * problems.length)] that the call draws. *)
Definition getRandomTopProblem (draw : nat) : string :=
  nth (Nat.modulo draw (List.length problems)) problems "".

(** One turn of the loop over [this.contestResults.values()];
    [currentData.totalScore += result.score] adds two doubles. *)
Definition gatherResult (userScores : JsMap.t ScoreData) (result : ContestResult)
  : JsMap.t ScoreData :=
  let currentData :=
    match JsMap.get (cr_userId result) userScores with
    | Some d => d
    | None => mkScoreData (cr_userId result) 0 0
    end in
  let currentData :=
    mkScoreData (sd_userId currentData)
      (jsAdd (sd_totalScore currentData) (cr_score result))
      (sd_contestCount currentData + 1) in
  JsMap.set (cr_userId result) currentData userScores.

Definition gatherScores (results : list ContestResult) : JsMap.t ScoreData :=
  fold_left gatherResult results JsMap.empty.

(** The callback mapped over [userScores.entries()]; the callbacks reach
    [getRandomTopProblem] in the order of the entries, so the row built after
    [calls] earlier ones takes the draw [random calls]. *)
Fixpoint leaderboardRows (users : JsMap.t User) (random : nat -> nat)
    (calls : nat) (scored : list (Z * ScoreData))
  : list (option LeaderboardRow) :=
  match scored with
  | [] => []
  | (userId, scoreData) :: rest =>
      match JsMap.get userId users with
      | None => None :: leaderboardRows users random calls rest
      | Some user =>
          Some (mkLeaderboardRow (user_id user) (user_username user)
                  (user_displayName user) (user_avatar user) (user_level user)
                  (sd_totalScore scoreData) (sd_contestCount scoreData)
                  (getRandomTopProblem (random calls)))
          :: leaderboardRows users random (S calls) rest
      end
  end.

(** [.filter(Boolean)] *)
Fixpoint filterBoolean {A : Type} (l : list (option A)) : list A :=
  match l with
  | [] => []
  | Some a :: l' => a :: filterBoolean l'
  | None :: l' => filterBoolean l'
  end.

(** [.sort((a, b) => b.score - a.score)]: the stable sort of the array,
    highest score first. *)
Fixpoint insertByScore (a : LeaderboardRow) (l : list LeaderboardRow)
  : list LeaderboardRow :=
  match l with
  | [] => [a]
  | b :: l' =>
      if lb_score b - lb_score a >? 0 then b :: insertByScore a l'
      else a :: b :: l'
  end.

Definition sortByScore (l : list LeaderboardRow) : list LeaderboardRow :=
  fold_right insertByScore [] l.

Definition getLeaderboard (random : nat -> nat)
  : Async MemStorage (list LeaderboardRow) :=
  gets (fun s =>
    let userScores := gatherScores (JsMap.values (contestResults s)) in
    let leaderboard :=
      leaderboardRows (users s) random 0 (JsMap.entries userScores) in
    sortByScore (filterBoolean leaderboard)).

(** [updateLeaderboardEntry]; [score] is [data.score] when the key is there.
    [if (data.score)] is false for 0 as well. *)
Definition updateLeaderboardEntry (userId : Z) (score : option Z)
    (random : nat -> nat) (now : Z)
  : Async MemStorage (option LeaderboardRow) :=
  user <- getUser userId ;;
  match user with
  | None => throw (JsError "User not found")
  | Some _ =>
      match num_or_null score with
      | Some sc =>
          modify (fun s =>
            let id := contestResultId s in
            let result := mkContestResult id 1 userId None sc now in
            set_contestResults (JsMap.set id result (contestResults s))
              (id + 1) s)
      | None => ret tt
      end ;;;
      leaderboard <- getLeaderboard random ;;
      ret (find (fun entry => lb_id entry =? userId) leaderboard)
  end.

(** ** Forum operations *)

Definition getForumPost (id : Z) : Async MemStorage (option ForumPost) :=
  gets (fun s => JsMap.get id (forumPosts s)).

Definition createForumPost (insertPost : InsertForumPost) (now : Z)
  : Async MemStorage ForumPost :=
  fun s =>
    let id := forumPostId s in
    let post :=
      mkForumPost id (ip_title insertPost) (ip_content insertPost)
        (ip_userId insertPost) 0 now now (arr_or_null (ip_tags insertPost)) in
    (Resolved post,
     set_forumPosts (JsMap.set id post (forumPosts s)) (id + 1) s).

(** The loop of [deleteForumPost] over [this.forumReplies.entries()]. *)
Definition deleteRepliesOf (id : Z) (replies : JsMap.t ForumReply)
  : JsMap.t ForumReply :=
  fold_left
    (fun acc '(replyId, reply) =>
       if reply_postId reply =? id then snd (JsMap.delete replyId acc)
       else acc)
    (JsMap.entries replies) replies.

Definition deleteForumPost (id : Z) : Async MemStorage bool :=
  fun s =>
    let replies := deleteRepliesOf id (forumReplies s) in
    let (existed, posts) := JsMap.delete id (forumPosts s) in
    (Resolved existed,
     set_forumPosts posts (forumPostId s)
       (set_forumReplies replies (forumReplyId s) s)).

Definition incrementForumPostViews (id : Z) : Async MemStorage unit :=
  fun s =>
    match JsMap.get id (forumPosts s) with
    | Some post =>
        let post := post_set_views (post_views post + 1) post in
        (Resolved tt,
         set_forumPosts (JsMap.set id post (forumPosts s)) (forumPostId s) s)
    | None => (Resolved tt, s)
    end.

(** ** Forum reply operations *)

Definition getForumReply (id : Z) : Async MemStorage (option ForumReply) :=
  gets (fun s => JsMap.get id (forumReplies s)).

Definition createForumReply (insertReply : InsertForumReply) (now : Z)
  : Async MemStorage ForumReply :=
  fun s =>
    let id := forumReplyId s in
    let reply :=
      mkForumReply id (iy_postId insertReply) (iy_content insertReply)
        (iy_userId insertReply) 0 now now false in
    (Resolved reply,
     set_forumReplies (JsMap.set id reply (forumReplies s)) (id + 1) s).

Definition upvoteForumReply (id : Z) : Async MemStorage ForumReply :=
  fun s =>
    match JsMap.get id (forumReplies s) with
    | None => (Rejected (JsError "Reply not found"), s)
    | Some reply =>
        let reply := reply_set_upvotes (reply_upvotes reply + 1) reply in
        (Resolved reply,
         set_forumReplies (JsMap.set id reply (forumReplies s))
           (forumReplyId s) s)
    end.

(** [{ ...reply, ...replyData, updatedAt: now }] *)
Definition mergeReply (reply : ForumReply) (replyData : PartialForumReply)
    (now : Z) : ForumReply :=
  mkForumReply
    (spread (reply_id reply) (py_id replyData))
    (spread (reply_postId reply) (py_postId replyData))
    (spread (reply_content reply) (py_content replyData))
    (spread (reply_userId reply) (py_userId replyData))
    (spread (reply_upvotes reply) (py_upvotes replyData))
    (spread (reply_createdAt reply) (py_createdAt replyData))
    (overridden (py_updatedAt replyData) now)
    (spread (reply_isBestAnswer reply) (py_isBestAnswer replyData)).

Definition updateForumReply (id : Z) (replyData : PartialForumReply) (now : Z)
  : Async MemStorage (option ForumReply) :=
  fun s =>
    match JsMap.get id (forumReplies s) with
    | None => (Resolved None, s)
    | Some reply =>
        let updatedReply := mergeReply reply replyData now in
        (Resolved (Some updatedReply),
         set_forumReplies (JsMap.set id updatedReply (forumReplies s))
           (forumReplyId s) s)
    end.

Definition deleteForumReply (id : Z) : Async MemStorage bool :=
  fun s =>
    let (existed, replies) := JsMap.delete id (forumReplies s) in
    (Resolved existed, set_forumReplies replies (forumReplyId s) s).

(** The first loop of [markAsBestAnswer]: reset any existing best answer of
    the post. *)
Definition resetBestAnswers (postId : Z) (replies : JsMap.t ForumReply)
  : JsMap.t ForumReply :=
  fold_left
    (fun acc '(id, reply) =>
       if (reply_postId reply =? postId) && reply_isBestAnswer reply
       then JsMap.set id (reply_set_isBestAnswer false reply) acc
       else acc)
    (JsMap.entries replies) replies.

Definition markAsBestAnswer (postId replyId : Z)
  : Async MemStorage ForumReply :=
  fun s =>
    let s := set_forumReplies (resetBestAnswers postId (forumReplies s))
               (forumReplyId s) s in
    match JsMap.get replyId (forumReplies s) with
    | None => (Rejected (JsError "Reply not found"), s)
    | Some reply =>
        let reply := reply_set_isBestAnswer true reply in
        (Resolved reply,
         set_forumReplies (JsMap.set replyId reply (forumReplies s))
           (forumReplyId s) s)
    end.

(** ** Resource operations *)

Definition getResource (id : Z) : Async MemStorage (option Resource) :=
  gets (fun s => JsMap.get id (resources s)).

Definition createResource (insertResource : InsertResource) (now : Z)
  : Async MemStorage Resource :=
  fun s =>
    let id := resourceId s in
    let resource :=
      mkResource id (is_title insertResource) (is_description insertResource)
        (str_or_null (is_content insertResource))
        (is_resourceType insertResource)
        (str_or_null (is_link insertResource))
        (is_userId insertResource) now now in
    (Resolved resource,
     set_resources (JsMap.set id resource (resources s)) (id + 1) s).

(** ** The remaining operations of [MemStorage] *)

(** [getUserByUsername] and [getUserByEmail] compare after
    [String.prototype.toLowerCase], which is taken as given. *)
Definition getUserByUsername (toLowerCase : string -> string)
    (username : string) : Async MemStorage (option User) :=
  gets (fun s =>
    find (fun user =>
            String.eqb (toLowerCase (user_username user))
                       (toLowerCase username))
         (JsMap.values (users s))).

Definition getUserByEmail (toLowerCase : string -> string) (email : string)
  : Async MemStorage (option User) :=
  gets (fun s =>
    find (fun user =>
            String.eqb (toLowerCase (user_email user)) (toLowerCase email))
         (JsMap.values (users s))).

(** [{ ...user, ...userData }] *)
Definition mergeUser (user : User) (userData : PartialUser) : User :=
  mkUser
    (spread (user_id user) (pu_id userData))
    (spread (user_username user) (pu_username userData))
    (spread (user_password user) (pu_password userData))
    (spread (user_displayName user) (pu_displayName userData))
    (spread (user_email user) (pu_email userData))
    (spread (user_avatar user) (pu_avatar userData))
    (spread (user_bio user) (pu_bio userData))
    (spread (user_role user) (pu_role userData))
    (spread (user_level user) (pu_level userData))
    (spread (user_createdAt user) (pu_createdAt userData)).

Definition updateUser (id : Z) (userData : PartialUser)
  : Async MemStorage (option User) :=
  fun s =>
    match JsMap.get id (users s) with
    | None => (Resolved None, s)
    | Some user =>
        let updatedUser := mergeUser user userData in
        (Resolved (Some updatedUser),
         set_users (JsMap.set id updatedUser (users s)) (userId s) s)
    end.

(** [getAllEvents]: by date, earliest first. *)
Definition getAllEvents : Async MemStorage (list Event) :=
  gets (fun s =>
    jsSort (fun a b => event_date a - event_date b)
           (JsMap.values (events s))).

(** [{ ...event, ...eventData }] *)
Definition mergeEvent (event : Event) (eventData : PartialEvent) : Event :=
  mkEvent
    (spread (event_id event) (pe_id eventData))
    (spread (event_title event) (pe_title eventData))
    (spread (event_description event) (pe_description eventData))
    (spread (event_eventType event) (pe_eventType eventData))
    (spread (event_date event) (pe_date eventData))
    (spread (event_duration event) (pe_duration eventData))
    (spread (event_location event) (pe_location eventData))
    (spread (event_createdBy event) (pe_createdBy eventData))
    (spread (event_createdAt event) (pe_createdAt eventData)).

Definition updateEvent (id : Z) (eventData : PartialEvent)
  : Async MemStorage (option Event) :=
  fun s =>
    match JsMap.get id (events s) with
    | None => (Resolved None, s)
    | Some event =>
        let updatedEvent := mergeEvent event eventData in
        (Resolved (Some updatedEvent),
         set_events (JsMap.set id updatedEvent (events s)) (eventId s) s)
    end.

Definition deleteEvent (id : Z) : Async MemStorage bool :=
  fun s =>
    let (existed, m) := JsMap.delete id (events s) in
    (Resolved existed, set_events m (eventId s) s).

(** [getAllEventRegistrations]: those of the event, by registration time. *)
Definition getAllEventRegistrations (eventId : Z)
  : Async MemStorage (list EventRegistration) :=
  gets (fun s =>
    jsSort (fun a b => reg_registeredAt a - reg_registeredAt b)
      (filter (fun registration => reg_eventId registration =? eventId)
         (JsMap.values (eventRegistrations s)))).

Definition deleteEventRegistration (id : Z) : Async MemStorage bool :=
  fun s =>
    let (existed, m) := JsMap.delete id (eventRegistrations s) in
    (Resolved existed, set_eventRegistrations m (eventRegistrationId s) s).

(** [getContestResults]: those of the event, highest score first. *)
Definition getContestResults (eventId : Z)
  : Async MemStorage (list ContestResult) :=
  gets (fun s =>
    jsSort (fun a b => cr_score b - cr_score a)
      (filter (fun result => cr_eventId result =? eventId)
         (JsMap.values (contestResults s)))).

(** [{ ...result, ...resultData }] *)
Definition mergeContestResult (result : ContestResult)
    (resultData : PartialContestResult) : ContestResult :=
  mkContestResult
    (spread (cr_id result) (pc_id resultData))
    (spread (cr_eventId result) (pc_eventId resultData))
    (spread (cr_userId result) (pc_userId resultData))
    (spread (cr_position result) (pc_position resultData))
    (spread (cr_score result) (pc_score resultData))
    (spread (cr_createdAt result) (pc_createdAt resultData)).

Definition updateContestResult (id : Z) (resultData : PartialContestResult)
  : Async MemStorage (option ContestResult) :=
  fun s =>
    match JsMap.get id (contestResults s) with
    | None => (Resolved None, s)
    | Some result =>
        let updatedResult := mergeContestResult result resultData in
        (Resolved (Some updatedResult),
         set_contestResults (JsMap.set id updatedResult (contestResults s))
           (contestResultId s) s)
    end.

(** [getAllForumPosts]: newest first. *)
Definition getAllForumPosts : Async MemStorage (list ForumPost) :=
  gets (fun s =>
    jsSort (fun a b => post_createdAt b - post_createdAt a)
           (JsMap.values (forumPosts s))).

(** [{ ...post, ...postData, updatedAt: now }] *)
Definition mergePost (post : ForumPost) (postData : PartialForumPost)
    (now : Z) : ForumPost :=
  mkForumPost
    (spread (post_id post) (pp_id postData))
    (spread (post_title post) (pp_title postData))
    (spread (post_content post) (pp_content postData))
    (spread (post_userId post) (pp_userId postData))
    (spread (post_views post) (pp_views postData))
    (spread (post_createdAt post) (pp_createdAt postData))
    (overridden (pp_updatedAt postData) now)
    (spread (post_tags post) (pp_tags postData)).

Definition updateForumPost (id : Z) (postData : PartialForumPost) (now : Z)
  : Async MemStorage (option ForumPost) :=
  fun s =>
    match JsMap.get id (forumPosts s) with
    | None => (Resolved None, s)
    | Some post =>
        let updatedPost := mergePost post postData now in
        (Resolved (Some updatedPost),
         set_forumPosts (JsMap.set id updatedPost (forumPosts s))
           (forumPostId s) s)
    end.

(** [getForumReplies]: those of the post, oldest first. *)
Definition getForumReplies (postId : Z)
  : Async MemStorage (list ForumReply) :=
  gets (fun s =>
    jsSort (fun a b => reply_createdAt a - reply_createdAt b)
      (filter (fun reply => reply_postId reply =? postId)
         (JsMap.values (forumReplies s)))).

(** [getAllResources]: newest first. *)
Definition getAllResources : Async MemStorage (list Resource) :=
  gets (fun s =>
    jsSort (fun a b => res_createdAt b - res_createdAt a)
           (JsMap.values (resources s))).

(** [{ ...resource, ...resourceData, updatedAt: now }] *)
Definition mergeResource (resource : Resource)
    (resourceData : PartialResource) (now : Z) : Resource :=
  mkResource
    (spread (res_id resource) (pr_id resourceData))
    (spread (res_title resource) (pr_title resourceData))
    (spread (res_description resource) (pr_description resourceData))
    (spread (res_content resource) (pr_content resourceData))
    (spread (res_resourceType resource) (pr_resourceType resourceData))
    (spread (res_link resource) (pr_link resourceData))
    (spread (res_userId resource) (pr_userId resourceData))
    (spread (res_createdAt resource) (pr_createdAt resourceData))
    (overridden (pr_updatedAt resourceData) now).

Definition updateResource (id : Z) (resourceData : PartialResource) (now : Z)
  : Async MemStorage (option Resource) :=
  fun s =>
    match JsMap.get id (resources s) with
    | None => (Resolved None, s)
    | Some resource =>
        let updatedResource := mergeResource resource resourceData now in
        (Resolved (Some updatedResource),
         set_resources (JsMap.set id updatedResource (resources s))
           (resourceId s) s)
    end.

Definition deleteResource (id : Z) : Async MemStorage bool :=
  fun s =>
    let (existed, m) := JsMap.delete id (resources s) in
    (Resolved existed, set_resources m (resourceId s) s).

(** [getAllUsers]: by display name, in the order of
    [String.prototype.localeCompare], which is taken as given. *)
Definition getAllUsers (localeCompare : string -> string -> Z)
  : Async MemStorage (list User) :=
  gets (fun s =>
    jsSort (fun a b => localeCompare (user_displayName a) (user_displayName b))
           (JsMap.values (users s))).

End Mem.

(* ===================================================================== *)
(** * server/routes.ts *)
(* ===================================================================== *)

(** The handlers run against the exported [storage], here the in-memory
    backend. A request is what the handler reads of it: the session user
    ([req.isAuthenticated()] holds exactly when there is one), the value of
    [parseInt(req.params.id)] ([None] for [NaN]) and the outcome of the zod
    schema on [req.body] ([None] when [parse] throws a [ZodError]). *)

Module Routes.

Record Request (B : Type) := mkRequest {
  req_user : option User;
  req_params_id : option Z;
  req_body : option B
}.
Arguments mkRequest {B}.
Arguments req_user {B}.
Arguments req_params_id {B}.
Arguments req_body {B}.

Inductive Json :=
| Message (message : string)
| ZodErrors
| JsonEvent (e : Event)
| JsonRegistration (r : EventRegistration)
| JsonContestResult (r : ContestResult)
| JsonReply (r : ForumReply)
| JsonResource (r : Resource).

Record Response := mkResponse {
  status : Z;
  json : Json
}.

(** [schema.parse(req.body)] *)
Definition parse {St B : Type} (body : option B) : Async St B :=
  match body with
  | Some data => ret data
  | None => throw ZodError
  end.

(** The [catch] clause the creating handlers share. *)
Definition zodOr500 {St : Type} (message : string) (error : Failure)
  : Async St Response :=
  match error with
  | ZodError => ret (mkResponse 400 ZodErrors)
  | _ => ret (mkResponse 500 (Message message))
  end.

(** [app.post("/api/events", ...)] *)
Definition postEvents (req : Request InsertEvent) (now : Z)
  : Async Mem.MemStorage Response :=
  match req_user req with
  | None => ret (mkResponse 401 (Message "Unauthorized"))
  | Some user =>
      try_catch
        (eventData <- parse (req_body req) ;;
         newEvent <- Mem.createEvent
                       (mkInsertEvent (ie_title eventData)
                          (ie_description eventData) (ie_eventType eventData)
                          (ie_date eventData) (ie_duration eventData)
                          (ie_location eventData) (user_id user)) now ;;
         ret (mkResponse 201 (JsonEvent newEvent)))
        (zodOr500 "Failed to create event")
  end.

(** [app.post("/api/events/:id/register", ...)] *)
Definition postEventRegister (req : Request unit) (now : Z)
  : Async Mem.MemStorage Response :=
  match req_user req with
  | None => ret (mkResponse 401 (Message "Unauthorized"))
  | Some user =>
      match req_params_id req with
      | None => ret (mkResponse 400 (Message "Invalid event ID"))
      | Some eventId =>
          try_catch
            (event <- Mem.getEvent eventId ;;
             match event with
             | None => ret (mkResponse 404 (Message "Event not found"))
             | Some _ =>
                 existingRegistration <-
                   Mem.getEventRegistration eventId (user_id user) ;;
                 match existingRegistration with
                 | Some _ =>
                     ret (mkResponse 400
                            (Message "Already registered for this event"))
                 | None =>
                     registration <-
                       Mem.createEventRegistration
                         (mkInsertEventRegistration eventId (user_id user))
                         now ;;
                     ret (mkResponse 201 (JsonRegistration registration))
                 end
             end)
            (fun _ =>
               ret (mkResponse 500 (Message "Failed to register for event")))
      end
  end.

(** [app.post("/api/events/:id/results", ...)]: the one handler that asks
    for the admin role. *)
Definition postEventResults (req : Request InsertContestResult) (now : Z)
  : Async Mem.MemStorage Response :=
  match req_user req with
  | None => ret (mkResponse 401 (Message "Unauthorized"))
  | Some user =>
      if negb (String.eqb (user_role user) "admin")
      then ret (mkResponse 401 (Message "Unauthorized"))
      else
        match req_params_id req with
        | None => ret (mkResponse 400 (Message "Invalid event ID"))
        | Some eventId =>
            try_catch
              (event <- Mem.getEvent eventId ;;
               match event with
               | None => ret (mkResponse 404 (Message "Event not found"))
               | Some _ =>
                   resultData <- parse (req_body req) ;;
                   result <-
                     Mem.createContestResult
                       (mkInsertContestResult eventId (ic_userId resultData)
                          (ic_position resultData) (ic_score resultData))
                       now ;;
                   ret (mkResponse 201 (JsonContestResult result))
               end)
              (zodOr500 "Failed to create contest result")
        end
  end.

(** [app.post("/api/forum/reply/:id/best-answer", ...)] *)
Definition postBestAnswer (req : Request unit)
  : Async Mem.MemStorage Response :=
  match req_user req with
  | None => ret (mkResponse 401 (Message "Unauthorized"))
  | Some user =>
      match req_params_id req with
      | None => ret (mkResponse 400 (Message "Invalid reply ID"))
      | Some replyId =>
          try_catch
            (reply <- Mem.getForumReply replyId ;;
             match reply with
             | None => ret (mkResponse 404 (Message "Reply not found"))
             | Some reply =>
                 post <- Mem.getForumPost (reply_postId reply) ;;
                 match post with
                 | None => ret (mkResponse 404 (Message "Post not found"))
                 | Some post =>
                     if negb (post_userId post =? user_id user)
                        && negb (String.eqb (user_role user) "admin")
                     then
                       ret (mkResponse 403
                              (Message
                                 "Only the post author can mark a best answer"))
                     else
                       updatedReply <-
                         Mem.markAsBestAnswer (reply_postId reply) replyId ;;
                       ret (mkResponse 200 (JsonReply updatedReply))
                 end
             end)
            (fun _ =>
               ret (mkResponse 500 (Message "Failed to mark as best answer")))
      end
  end.

(** [app.post("/api/resources", ...)] *)
Definition postResources (req : Request InsertResource) (now : Z)
  : Async Mem.MemStorage Response :=
  match req_user req with
  | None => ret (mkResponse 401 (Message "Unauthorized"))
  | Some user =>
      try_catch
        (resourceData <- parse (req_body req) ;;
         newResource <- Mem.createResource
                          (mkInsertResource (is_title resourceData)
                             (is_description resourceData)
                             (is_content resourceData)
                             (is_resourceType resourceData)
                             (is_link resourceData) (user_id user)) now ;;
         ret (mkResponse 201 (JsonResource newResource)))
        (zodOr500 "Failed to create resource")
  end.

(** ** The remaining handlers *)

(** The body of a response of the handlers below: the JSON of a value, a
    [{ message }] object, or the error list of zod. *)
Inductive Payload (A : Type) :=
| Body (a : A)
| Failed (message : string)
| Invalid.
Arguments Body {A} a.
Arguments Failed {A} message.
Arguments Invalid {A}.

Record Answer (A : Type) := mkAnswer {
  answer_status : Z;
  answer_json : Payload A
}.
Arguments mkAnswer {A}.
Arguments answer_status {A}.
Arguments answer_json {A}.

(** The [catch] clause of the creating handlers, for an [Answer]. *)
Definition invalidOr500 {St A : Type} (message : string) (error : Failure)
  : Async St (Answer A) :=
  match error with
  | ZodError => ret (mkAnswer 400 Invalid)
  | _ => ret (mkAnswer 500 (Failed message))
  end.

(** [app.get("/api/events", ...)] *)
Definition getEvents : Async Mem.MemStorage (Answer (list Event)) :=
  events <- Mem.getAllEvents ;;
  ret (mkAnswer 200 (Body events)).

(** [app.get("/api/events/:id", ...)] *)
Definition getEventById (req : Request unit)
  : Async Mem.MemStorage (Answer Event) :=
  match req_params_id req with
  | None => ret (mkAnswer 400 (Failed "Invalid event ID"))
  | Some eventId =>
      event <- Mem.getEvent eventId ;;
      match event with
      | None => ret (mkAnswer 404 (Failed "Event not found"))
      | Some event => ret (mkAnswer 200 (Body event))
      end
  end.

(** [app.get("/api/leaderboard", ...)] *)
Definition getLeaderboard (random : nat -> nat)
  : Async Mem.MemStorage (Answer (list Mem.LeaderboardRow)) :=
  try_catch
    (leaderboard <- Mem.getLeaderboard random ;;
     ret (mkAnswer 200 (Body leaderboard)))
    (fun _ => ret (mkAnswer 500 (Failed "Failed to fetch leaderboard"))).

(** [app.get("/api/forum", ...)] *)
Definition getForum : Async Mem.MemStorage (Answer (list ForumPost)) :=
  try_catch
    (posts <- Mem.getAllForumPosts ;;
     ret (mkAnswer 200 (Body posts)))
    (fun _ => ret (mkAnswer 500 (Failed "Failed to fetch forum posts"))).

(** [{ ...post, replies }] *)
Record PostWithReplies := mkPostWithReplies {
  pwr_post : ForumPost;
  pwr_replies : list ForumReply
}.

(** [app.get("/api/forum/:id", ...)]. The constant [post] is a reference to
    the object in the map, the very object whose [views]
    [incrementForumPostViews] then raises; the spread [{ ...post, replies }]
    copies the fields that object has by then, which is what the second
    look-up reads. *)
Definition getForumById (req : Request unit)
  : Async Mem.MemStorage (Answer PostWithReplies) :=
  match req_params_id req with
  | None => ret (mkAnswer 400 (Failed "Invalid post ID"))
  | Some postId =>
      try_catch
        (post <- Mem.getForumPost postId ;;
         match post with
         | None => ret (mkAnswer 404 (Failed "Post not found"))
         | Some post =>
             Mem.incrementForumPostViews postId ;;;
             replies <- Mem.getForumReplies postId ;;
             object <- Mem.getForumPost postId ;;
             ret (mkAnswer 200
                    (Body (mkPostWithReplies
                             (match object with
                              | Some object => object
                              | None => post
                              end)
                             replies)))
         end)
        (fun _ => ret (mkAnswer 500 (Failed "Failed to fetch forum post")))
  end.

(** [app.post("/api/forum", ...)] *)
Definition postForum (req : Request InsertForumPost) (now : Z)
  : Async Mem.MemStorage (Answer ForumPost) :=
  match req_user req with
  | None => ret (mkAnswer 401 (Failed "Unauthorized"))
  | Some user =>
      try_catch
        (postData <- parse (req_body req) ;;
         newPost <- Mem.createForumPost
                      (mkInsertForumPost (ip_title postData)
                         (ip_content postData) (user_id user)
                         (ip_tags postData)) now ;;
         ret (mkAnswer 201 (Body newPost)))
        (invalidOr500 "Failed to create forum post")
  end.

(** [app.post("/api/forum/:id/reply", ...)] *)
Definition postForumReply (req : Request InsertForumReply) (now : Z)
  : Async Mem.MemStorage (Answer ForumReply) :=
  match req_user req with
  | None => ret (mkAnswer 401 (Failed "Unauthorized"))
  | Some user =>
      match req_params_id req with
      | None => ret (mkAnswer 400 (Failed "Invalid post ID"))
      | Some postId =>
          try_catch
            (post <- Mem.getForumPost postId ;;
             match post with
             | None => ret (mkAnswer 404 (Failed "Post not found"))
             | Some _ =>
                 replyData <- parse (req_body req) ;;
                 newReply <- Mem.createForumReply
                               (mkInsertForumReply postId
                                  (iy_content replyData) (user_id user))
                               now ;;
                 ret (mkAnswer 201 (Body newReply))
             end)
            (invalidOr500 "Failed to create reply")
      end
  end.

(** [app.post("/api/forum/reply/:id/upvote", ...)] *)
Definition postUpvote (req : Request unit)
  : Async Mem.MemStorage (Answer ForumReply) :=
  match req_user req with
  | None => ret (mkAnswer 401 (Failed "Unauthorized"))
  | Some user =>
      match req_params_id req with
      | None => ret (mkAnswer 400 (Failed "Invalid reply ID"))
      | Some replyId =>
          try_catch
            (reply <- Mem.getForumReply replyId ;;
             match reply with
             | None => ret (mkAnswer 404 (Failed "Reply not found"))
             | Some _ =>
                 updatedReply <- Mem.upvoteForumReply replyId ;;
                 ret (mkAnswer 200 (Body updatedReply))
             end)
            (fun _ => ret (mkAnswer 500 (Failed "Failed to upvote reply")))
      end
  end.

(** [app.get("/api/resources", ...)] *)
Definition getResources : Async Mem.MemStorage (Answer (list Resource)) :=
  try_catch
    (resources <- Mem.getAllResources ;;
     ret (mkAnswer 200 (Body resources)))
    (fun _ => ret (mkAnswer 500 (Failed "Failed to fetch resources"))).

(** [app.get("/api/resources/:id", ...)] *)
Definition getResourceById (req : Request unit)
  : Async Mem.MemStorage (Answer Resource) :=
  match req_params_id req with
  | None => ret (mkAnswer 400 (Failed "Invalid resource ID"))
  | Some resourceId =>
      try_catch
        (resource <- Mem.getResource resourceId ;;
         match resource with
         | None => ret (mkAnswer 404 (Failed "Resource not found"))
         | Some resource => ret (mkAnswer 200 (Body resource))
         end)
        (fun _ => ret (mkAnswer 500 (Failed "Failed to fetch resource")))
  end.

(** The loop of [app.get("/api/forum/replies", ...)]:
    [allReplies.push(...replies)] for each post. *)
Fixpoint collectReplies (posts : list ForumPost) (allReplies : list ForumReply)
  : Async Mem.MemStorage (list ForumReply) :=
  match posts with
  | [] => ret allReplies
  | post :: rest =>
      replies <- Mem.getForumReplies (post_id post) ;;
      collectReplies rest (allReplies ++ replies)
  end.

(** [app.get("/api/forum/replies", ...)] *)
Definition getAllForumReplies : Async Mem.MemStorage (Answer (list ForumReply)) :=
  try_catch
    (posts <- Mem.getAllForumPosts ;;
     allReplies <- collectReplies posts [] ;;
     ret (mkAnswer 200 (Body allReplies)))
    (fun _ => ret (mkAnswer 500 (Failed "Failed to fetch forum replies"))).

(** ** The order of the routes *)

(** Express tries the routes in the order [registerRoutes] adds them and
    runs the first whose method and path pattern match; a handler here
    always answers and never passes on. A path is the list of its segments
    (a closing slash dropped); a pattern matches segment by segment, a
    literal without regard to case and [:id] any one non-empty segment. (The
    routes of [setupAuth], added first, are [/api/register], [/api/login],
    [/api/logout] and [/api/user].) *)
Inductive Method := GET | POST.

Inductive Segment :=
| Lit (text : string)
| Param.

Inductive Endpoint :=
| GetEvents | GetEventById | PostEvents | PostEventRegister
| PostEventResults | GetLeaderboard | GetForum | GetForumById | PostForum
| PostForumReply | PostUpvote | PostBestAnswer | GetResources
| GetResourceById | PostResources | GetUsers | GetAllForumReplies
| GetUserById.

Definition registeredRoutes : list (Method * list Segment * Endpoint) :=
  [ (GET, [Lit "api"; Lit "events"], GetEvents);
    (GET, [Lit "api"; Lit "events"; Param], GetEventById);
    (POST, [Lit "api"; Lit "events"], PostEvents);
    (POST, [Lit "api"; Lit "events"; Param; Lit "register"], PostEventRegister);
    (POST, [Lit "api"; Lit "events"; Param; Lit "results"], PostEventResults);
    (GET, [Lit "api"; Lit "leaderboard"], GetLeaderboard);
    (GET, [Lit "api"; Lit "forum"], GetForum);
    (GET, [Lit "api"; Lit "forum"; Param], GetForumById);
    (POST, [Lit "api"; Lit "forum"], PostForum);
    (POST, [Lit "api"; Lit "forum"; Param; Lit "reply"], PostForumReply);
    (POST, [Lit "api"; Lit "forum"; Lit "reply"; Param; Lit "upvote"],
     PostUpvote);
    (POST, [Lit "api"; Lit "forum"; Lit "reply"; Param; Lit "best-answer"],
     PostBestAnswer);
    (GET, [Lit "api"; Lit "resources"], GetResources);
    (GET, [Lit "api"; Lit "resources"; Param], GetResourceById);
    (POST, [Lit "api"; Lit "resources"], PostResources);
    (GET, [Lit "api"; Lit "users"], GetUsers);
    (GET, [Lit "api"; Lit "forum"; Lit "replies"], GetAllForumReplies);
    (GET, [Lit "api"; Lit "users"; Param], GetUserById) ].

Definition sameMethod (a b : Method) : bool :=
  match a, b with
  | GET, GET | POST, POST => true
  | _, _ => false
  end.

(** Whether the path matches the pattern, and the value of [:id] if so. *)
Fixpoint matchPath (pattern : list Segment) (path : list string)
    (id : option string) : option (option string) :=
  match pattern, path with
  | [], [] => Some id
  | Lit text :: pattern', segment :: path' =>
      if String.eqb (lowerText text) (lowerText segment)
      then matchPath pattern' path' id
      else None
  | Param :: pattern', segment :: path' =>
      if String.eqb segment "" then None
      else matchPath pattern' path' (Some segment)
  | _, _ => None
  end.

Fixpoint dispatchIn (routes : list (Method * list Segment * Endpoint))
    (method : Method) (path : list string)
  : option (Endpoint * option string) :=
  match routes with
  | [] => None
  | (m, pattern, endpoint) :: rest =>
      if sameMethod m method then
        match matchPath pattern path None with
        | Some id => Some (endpoint, id)
        | None => dispatchIn rest method path
        end
      else dispatchIn rest method path
  end.

Definition dispatch (method : Method) (path : list string)
  : option (Endpoint * option string) :=
  dispatchIn registeredRoutes method path.

(** The request a handler sees for the captured [:id]. *)
Definition requestFor {B : Type} (user : option User) (id : option string)
    (body : option B) : Request B :=
  mkRequest user
    (match id with
     | Some text => parseInt text
     | None => None
     end)
    body.

End Routes.

(* ===================================================================== *)
(** * server/storage.ts: [PostgreSQLStorage] *)
(* ===================================================================== *)

(** The relational backend sends SQL text to the database. The model reads
    each statement with its SQL meaning over the tables that [initTables]
    declares: a table is the list of its rows; an [INTEGER] column or
    parameter holds 32 bits, a text holds no character NUL and a
    [VARCHAR(n)] column [n] characters, and a parameter that does not fit is
    refused before the statement runs; a
    [SERIAL] column draws from a sequence, which an insert that then breaks
    a [UNIQUE] or [REFERENCES] clause has already advanced. Rows are kept
    in the shape [mapXFromDB] gives them. *)

Module Pg.

Record Database := mkDatabase {
  t_users : list User;
  t_contest_results : list ContestResult;
  t_forum_posts : list ForumPost;
  t_forum_replies : list ForumReply;
  users_id_seq : Z;
  forum_posts_id_seq : Z;
  forum_replies_id_seq : Z
}.

Definition set_t_users (rows : list User) (seq : Z) (db : Database) :=
  mkDatabase rows (t_contest_results db) (t_forum_posts db)
    (t_forum_replies db) seq (forum_posts_id_seq db) (forum_replies_id_seq db).

Definition set_t_forum_posts (rows : list ForumPost) (seq : Z) (db : Database) :=
  mkDatabase (t_users db) (t_contest_results db) rows
    (t_forum_replies db) (users_id_seq db) seq (forum_replies_id_seq db).

Definition set_t_forum_replies (rows : list ForumReply) (seq : Z)
    (db : Database) :=
  mkDatabase (t_users db) (t_contest_results db) (t_forum_posts db)
    rows (users_id_seq db) (forum_posts_id_seq db) seq.

(** The bounds of an [INTEGER] column; the upper one bounds a [SERIAL]
    sequence too. *)
Definition int4_max : Z := 2147483647.
Definition int4_min : Z := -2147483648.

Definition inInt4 (n : Z) : bool := (int4_min <=? n) && (n <=? int4_max).

(** A statement with the [INTEGER] parameter [n]: a number outside the
    type is refused when the parameters are bound, and nothing runs. (The
    driver sends a number as the text JavaScript prints for it; the
    database names the error by the range, or by the syntax for a text with
    an exponent. The model has the one error for both.) *)
Definition withInt4 {A : Type} (n : Z) (statement : Async Database A)
  : Async Database A :=
  fun db =>
    if inInt4 n then statement db
    else (Rejected (DbError IntegerOutOfRange), db).

(** A text parameter must not hold the character NUL: the database
    refuses it when the parameters are bound, in their order. *)
Fixpoint hasNul (text : string) : bool :=
  match text with
  | String c rest => (nat_of_ascii c =? 0)%nat || hasNul rest
  | EmptyString => false
  end.

Definition withText {A : Type} (texts : list string)
    (statement : Async Database A) : Async Database A :=
  fun db =>
    if existsb hasNul texts then (Rejected (DbError InvalidByteSequence), db)
    else statement db.

(** The text parameters that an optional value gives: none for [null]. *)
Definition textsOf {A : Type} (x : option A) (texts : A -> list string)
  : list string :=
  match x with
  | Some a => texts a
  | None => []
  end.

(** The characters of a text: the bytes of its UTF-8 encoding that do not
    continue a character. [VARCHAR(n)] takes [n] characters. (The database
    clips a longer text whose excess is all spaces instead of refusing it;
    the model refuses every longer text, so what it accepts is stored as
    given.) *)
Fixpoint characters (text : string) : nat :=
  match text with
  | String c rest =>
      if ((128 <=? nat_of_ascii c) && (nat_of_ascii c <? 192))%nat
      then characters rest
      else S (characters rest)
  | EmptyString => O
  end.

Definition fits (n : nat) (text : string) : bool :=
  (characters text <=? n)%nat.

(** [UPDATE t SET ... WHERE cond RETURNING *]: the table after the update
    and the rows it returns. *)
Definition update_where {R : Type} (cond : R -> bool) (assign : R -> R)
    (rows : list R) : list R * list R :=
  (map (fun r => if cond r then assign r else r) rows,
   map assign (filter cond rows)).

(** [DELETE FROM t WHERE cond RETURNING ...] *)
Definition delete_where {R : Type} (cond : R -> bool) (rows : list R)
  : list R * list R :=
  (filter (fun r => negb (cond r)) rows, filter cond rows).

(** [SELECT * FROM t WHERE cond] *)
Definition select_where {R : Type} (cond : R -> bool) (rows : list R)
  : list R := filter cond rows.

(** The database once [initTables] has run on an empty one. *)
Definition initTables (now : Z) : Database :=
  mkDatabase [Mem.adminUser 1 now] [] [] [] 2 1 1.

(** ** User operations *)

Definition getUser (id : Z) : Async Database (option User) :=
  withInt4 id
    (gets (fun db =>
       hd_error (select_where (fun u => user_id u =? id) (t_users db)))).

(** The text parameters of the insert, [$1] to [$6]. *)
Definition userTexts (insertUser : InsertUser) : list string :=
  [iu_username insertUser; iu_password insertUser;
   iu_displayName insertUser; iu_email insertUser]
  ++ textsOf (str_or_null (iu_avatar insertUser)) (fun text => [text])
  ++ textsOf (str_or_null (iu_bio insertUser)) (fun text => [text]).

Definition createUser (insertUser : InsertUser) (now : Z)
  : Async Database User :=
  withText (userTexts insertUser) (fun db =>
    let id := users_id_seq db in
    let row :=
      mkUser id (iu_username insertUser) (iu_password insertUser)
        (iu_displayName insertUser) (iu_email insertUser)
        (str_or_null (iu_avatar insertUser))
        (str_or_null (iu_bio insertUser))
        "member" "beginner" now in
    let refused v := (Rejected (DbError v), db) in
    let rejected v := (Rejected (DbError v), set_t_users (t_users db) (id + 1) db) in
    if negb (fits 50 (user_username row)) then
      refused (ValueTooLong "users" "username")
    else if negb (fits 255 (user_password row)) then
      refused (ValueTooLong "users" "password")
    else if negb (fits 100 (user_displayName row)) then
      refused (ValueTooLong "users" "display_name")
    else if negb (fits 255 (user_email row)) then
      refused (ValueTooLong "users" "email")
    else if negb (inInt4 id) then refused IntegerOutOfRange
    else if existsb (fun u => String.eqb (user_username u) (user_username row))
              (t_users db) then
      rejected (UniqueKey "users" "username")
    else if existsb (fun u => String.eqb (user_email u) (user_email row))
              (t_users db) then
      rejected (UniqueKey "users" "email")
    else (Resolved row, set_t_users (t_users db ++ [row]) (id + 1) db)).

(** ** Leaderboard operations *)

(** [COUNT(DISTINCT x)] over the values [xs]. *)
Definition count_distinct (xs : list Z) : Z :=
  Z.of_nat (List.length (nodup Z.eq_dec xs)).

(** [SUM(x)] over the values [xs]. *)
Definition sum (xs : list Z) : Z := fold_right Z.add 0 xs.

Definition caseProblems : list string :=
  ["Binary Tree"; "DP"; "Graphs"; "Backtracking"; "Greedy"].

(** The groups of [users u JOIN contest_results cr ON u.id = cr.user_id
    GROUP BY u.id] with their aggregates; [random] says which branch the
    [CASE] over [random()] takes in each group. *)
Fixpoint leaderboardGroups (results : list ContestResult)
    (random : nat -> nat) (group : nat) (us : list User)
  : list Mem.LeaderboardRow :=
  match us with
  | [] => []
  | u :: rest =>
      let joined := filter (fun cr => user_id u =? cr_userId cr) results in
      match joined with
      | [] => leaderboardGroups results random group rest
      | _ =>
          Mem.mkLeaderboardRow (user_id u) (user_username u)
            (user_displayName u) (user_avatar u) (user_level u)
            (sum (map cr_score joined))
            (count_distinct (map cr_eventId joined))
            (nth (Nat.modulo (random group) (List.length caseProblems))
                 caseProblems "")
          :: leaderboardGroups results random (S group) rest
      end
  end.

(** The rows of the result set in the order of [ORDER BY score DESC],
    which leaves the order of equal scores open; the model keeps them in
    group order. *)
Definition leaderboardResult (random : nat -> nat) (db : Database)
  : list Mem.LeaderboardRow :=
  Mem.sortByScore
    (leaderboardGroups (t_contest_results db) random 0 (t_users db)).

(** The text of an integer in decimal notation. *)
Definition decimalText (n : Z) : string :=
  NilZero.string_of_int (Z.to_int n).

(** A row of the leaderboard as the driver hands it over: [SUM] and [COUNT]
    are of type [bigint], which arrives as a string. *)
Record LeaderboardRow := mkLeaderboardRow {
  lb_id : Z;
  lb_username : string;
  lb_displayName : string;
  lb_avatar : option string;
  lb_level : string;
  lb_score : string;
  lb_contestCount : string;
  lb_topProblem : string
}.

Definition fromResult (row : Mem.LeaderboardRow) : LeaderboardRow :=
  mkLeaderboardRow (Mem.lb_id row) (Mem.lb_username row)
    (Mem.lb_displayName row) (Mem.lb_avatar row) (Mem.lb_level row)
    (decimalText (Mem.lb_score row)) (decimalText (Mem.lb_contestCount row))
    (Mem.lb_topProblem row).

(** [getLeaderboard] returns [result.rows] as they are. *)
Definition getLeaderboard (random : nat -> nat)
  : Async Database (list LeaderboardRow) :=
  gets (fun db => map fromResult (leaderboardResult random db)).

(** ** Forum operations *)

Definition getForumPost (id : Z) : Async Database (option ForumPost) :=
  withInt4 id
    (gets (fun db =>
       hd_error (select_where (fun p => post_id p =? id) (t_forum_posts db)))).

Definition createForumPost (post : InsertForumPost) (now : Z)
  : Async Database ForumPost :=
  withText [ip_title post; ip_content post]
  (withInt4 (ip_userId post)
  (withText (textsOf (arr_or_null (ip_tags post)) (fun tags => tags))
  (fun db =>
    let id := forum_posts_id_seq db in
    let row :=
      mkForumPost id (ip_title post) (ip_content post) (ip_userId post)
        0 now now (arr_or_null (ip_tags post)) in
    let rejected v :=
      (Rejected (DbError v),
       set_t_forum_posts (t_forum_posts db) (id + 1) db) in
    if negb (fits 255 (post_title row)) then
      (Rejected (DbError (ValueTooLong "forum_posts" "title")), db)
    else if negb (inInt4 id) then (Rejected (DbError IntegerOutOfRange), db)
    else if negb (existsb (fun u => user_id u =? post_userId row) (t_users db))
    then rejected (ForeignKey "forum_posts" "user_id")
    else (Resolved row,
          set_t_forum_posts (t_forum_posts db ++ [row]) (id + 1) db)))).

(** [DELETE FROM forum_posts WHERE id = $1 RETURNING id]; the replies of a
    deleted post go with it ([ON DELETE CASCADE]). *)
Definition deleteForumPost (id : Z) : Async Database bool :=
  withInt4 id (fun db =>
    let (posts, deleted) :=
      delete_where (fun p => post_id p =? id) (t_forum_posts db) in
    let replies :=
      match deleted with
      | [] => t_forum_replies db
      | _ => fst (delete_where (fun r => reply_postId r =? id)
                    (t_forum_replies db))
      end in
    (Resolved (0 <? Z.of_nat (List.length deleted)),
     set_t_forum_posts posts (forum_posts_id_seq db)
       (set_t_forum_replies replies (forum_replies_id_seq db) db))).

Definition incrementForumPostViews (id : Z) : Async Database unit :=
  withInt4 id (fun db =>
    if existsb (fun p => (post_id p =? id) && (int4_max <? post_views p + 1))
         (t_forum_posts db)
    then (Rejected (DbError IntegerOutOfRange), db)
    else
      let (posts, _) :=
        update_where (fun p => post_id p =? id)
          (fun p => post_set_views (post_views p + 1) p) (t_forum_posts db) in
      (Resolved tt, set_t_forum_posts posts (forum_posts_id_seq db) db)).

(** ** Forum reply operations *)

Definition getForumReply (id : Z) : Async Database (option ForumReply) :=
  withInt4 id
    (gets (fun db =>
       hd_error
         (select_where (fun r => reply_id r =? id) (t_forum_replies db)))).

Definition createForumReply (reply : InsertForumReply) (now : Z)
  : Async Database ForumReply :=
  withInt4 (iy_postId reply) (withInt4 (iy_userId reply)
  (withText [iy_content reply] (fun db =>
    let id := forum_replies_id_seq db in
    let row :=
      mkForumReply id (iy_postId reply) (iy_content reply) (iy_userId reply)
        0 now now false in
    let rejected v :=
      (Rejected (DbError v),
       set_t_forum_replies (t_forum_replies db) (id + 1) db) in
    if negb (inInt4 id) then (Rejected (DbError IntegerOutOfRange), db)
    else if negb (existsb (fun p => post_id p =? reply_postId row)
                    (t_forum_posts db))
    then rejected (ForeignKey "forum_replies" "post_id")
    else if negb (existsb (fun u => user_id u =? reply_userId row) (t_users db))
    then rejected (ForeignKey "forum_replies" "user_id")
    else (Resolved row,
          set_t_forum_replies (t_forum_replies db ++ [row]) (id + 1) db)))).

Definition upvoteForumReply (id : Z) : Async Database ForumReply :=
  withInt4 id (fun db =>
    if existsb (fun r => (reply_id r =? id) && (int4_max <? reply_upvotes r + 1))
         (t_forum_replies db)
    then (Rejected (DbError IntegerOutOfRange), db)
    else
      let (replies, returned) :=
        update_where (fun r => reply_id r =? id)
          (fun r => reply_set_upvotes (reply_upvotes r + 1) r)
          (t_forum_replies db) in
      match returned with
      | [] => (Rejected (JsError "Reply not found"), db)
      | row :: _ =>
          (Resolved row,
           set_t_forum_replies replies (forum_replies_id_seq db) db)
      end).

(** [updateForumReply]: the statement sets [content], [upvotes] and
    [is_best_answer] when the patch has them, and [updated_at = NOW()]
    always. *)
Definition updateForumReply (id : Z) (replyData : PartialForumReply) (now : Z)
  : Async Database (option ForumReply) :=
  withText (textsOf (py_content replyData) (fun text => [text]))
  (withInt4 id (fun db =>
    let assign r :=
      mkForumReply (reply_id r) (reply_postId r)
        (spread (reply_content r) (py_content replyData))
        (reply_userId r)
        (spread (reply_upvotes r) (py_upvotes replyData))
        (reply_createdAt r) now
        (spread (reply_isBestAnswer r) (py_isBestAnswer replyData)) in
    let outOfRange :=
      match py_upvotes replyData with
      | Some n => (n <? int4_min) || (int4_max <? n)
      | None => false
      end in
    if outOfRange then (Rejected (DbError IntegerOutOfRange), db)
    else
      let (replies, returned) :=
        update_where (fun r => reply_id r =? id) assign (t_forum_replies db) in
      (Resolved (hd_error returned),
       set_t_forum_replies replies (forum_replies_id_seq db) db))).

Definition deleteForumReply (id : Z) : Async Database bool :=
  withInt4 id (fun db =>
    let (replies, deleted) :=
      delete_where (fun r => reply_id r =? id) (t_forum_replies db) in
    (Resolved (0 <? Z.of_nat (List.length deleted)),
     set_t_forum_replies replies (forum_replies_id_seq db) db)).

(** [markAsBestAnswer]: both updates run between [BEGIN] and [COMMIT]; the
    [catch] clause rolls back to the tables as they were at [BEGIN], also
    when the database refuses one of the two parameters. *)
Definition markAsBestAnswer (postId replyId : Z)
  : Async Database ForumReply :=
  withInt4 postId (withInt4 replyId (fun db =>
    let (reset, _) :=
      update_where
        (fun r => (reply_postId r =? postId) && reply_isBestAnswer r)
        (reply_set_isBestAnswer false) (t_forum_replies db) in
    let (marked, returned) :=
      update_where
        (fun r => (reply_id r =? replyId) && (reply_postId r =? postId))
        (reply_set_isBestAnswer true) reset in
    match returned with
    | [] =>
        (Rejected
           (JsError "Reply not found or doesn't belong to the specified post"),
         db)
    | row :: _ =>
        (Resolved row, set_t_forum_replies marked (forum_replies_id_seq db) db)
    end)).

(** What the schema guarantees of every database state: the primary keys
    are unique, and every reply points to a post of the table, whose ids
    are values of the type [INTEGER]. *)
Definition primary_keys (db : Database) : Prop :=
  NoDup (map user_id (t_users db)) /\
  NoDup (map post_id (t_forum_posts db)) /\
  NoDup (map reply_id (t_forum_replies db)).

Definition replies_reference_posts (db : Database) : Prop :=
  (forall r, In r (t_forum_replies db) ->
     In (reply_postId r) (map post_id (t_forum_posts db))) /\
  (forall p, In p (t_forum_posts db) -> inInt4 (post_id p) = true).

End Pg.

(* ===================================================================== *)
(** * The vocabulary of the properties *)
(* ===================================================================== *)

(** What one turn of the first loop of [markAsBestAnswer] leaves of a
    reply. *)
Definition resetOne (postId : Z) (reply : ForumReply) : ForumReply :=
  if (reply_postId reply =? postId) && reply_isBestAnswer reply
  then reply_set_isBestAnswer false reply
  else reply.

(** The test for "is a best answer of post [P]". *)
Definition isBestOf (P : Z) (r : ForumReply) : bool :=
  (reply_postId r =? P) && reply_isBestAnswer r.

(** The replies of post [P] that are marked best answer. *)
Definition bestAnswersOf (P : Z) (replies : JsMap.t ForumReply)
  : list ForumReply :=
  filter (isBestOf P) (JsMap.values replies).

(** The invariant of the forum: no post has two best answers. *)
Definition at_most_one_best (replies : JsMap.t ForumReply) : Prop :=
  forall P, (List.length (bestAnswersOf P replies) <= 1)%nat.

(** The store an asynchronous call leaves behind. *)
Definition exec {St A : Type} (c : Async St A) (s : St) : St := snd (c s).

(** A small forum: the admin asks a question (post 1) that gets the replies
    1 and 2, and a second question (post 2) that gets the reply 3. *)
Definition forumScenario : Mem.MemStorage :=
  exec (Mem.createForumReply (mkInsertForumReply 2 "use a heap" 1) 50)
  (exec (Mem.createForumPost (mkInsertForumPost "Top k" "how?" 1 None) 40)
  (exec (Mem.createForumReply (mkInsertForumReply 1 "memoise it" 1) 30)
  (exec (Mem.createForumReply (mkInsertForumReply 1 "try recursion" 1) 20)
  (exec (Mem.createForumPost (mkInsertForumPost "DP" "how?" 1 None) 10)
     (Mem.constructor 0))))).

(** The same forum in the relational backend. *)
Definition forumDatabase : Pg.Database :=
  exec (Pg.createForumReply (mkInsertForumReply 2 "use a heap" 1) 50)
  (exec (Pg.createForumPost (mkInsertForumPost "Top k" "how?" 1 None) 40)
  (exec (Pg.createForumReply (mkInsertForumReply 1 "memoise it" 1) 30)
  (exec (Pg.createForumReply (mkInsertForumReply 1 "try recursion" 1) 20)
  (exec (Pg.createForumPost (mkInsertForumPost "DP" "how?" 1 None) 10)
     (Pg.initTables 0))))).

(** The storage operations that write forum replies. *)
Inductive ForumOp :=
| OpCreateForumReply (insertReply : InsertForumReply) (now : Z)
| OpUpdateForumReply (id : Z) (replyData : PartialForumReply) (now : Z)
| OpUpvoteForumReply (id : Z)
| OpMarkAsBestAnswer (postId replyId : Z)
| OpDeleteForumReply (id : Z)
| OpDeleteForumPost (id : Z).

Definition forumStep (op : ForumOp) (s : Mem.MemStorage) : Mem.MemStorage :=
  match op with
  | OpCreateForumReply insertReply now =>
      exec (Mem.createForumReply insertReply now) s
  | OpUpdateForumReply id replyData now =>
      exec (Mem.updateForumReply id replyData now) s
  | OpUpvoteForumReply id => exec (Mem.upvoteForumReply id) s
  | OpMarkAsBestAnswer postId replyId =>
      exec (Mem.markAsBestAnswer postId replyId) s
  | OpDeleteForumReply id => exec (Mem.deleteForumReply id) s
  | OpDeleteForumPost id => exec (Mem.deleteForumPost id) s
  end.

Definition runForum (ops : list ForumOp) (s : Mem.MemStorage)
  : Mem.MemStorage :=
  fold_left (fun s op => forumStep op s) ops s.

(** The calls that go through the best-answer protocol: an update does not
    write [isBestAnswer = true] nor move the reply to another post, and
    [markAsBestAnswer] names the post of the reply it marks (as the
    best-answer endpoint does) or a reply that is not there. *)
Definition keepsProtocol (s : Mem.MemStorage) (op : ForumOp) : bool :=
  match op with
  | OpUpdateForumReply _ replyData _ =>
      match py_postId replyData, py_isBestAnswer replyData with
      | None, None | None, Some false => true
      | _, _ => false
      end
  | OpMarkAsBestAnswer postId replyId =>
      match JsMap.get replyId (Mem.forumReplies s) with
      | Some reply => reply_postId reply =? postId
      | None => true
      end
  | _ => true
  end.

Fixpoint keepProtocol (ops : list ForumOp) (s : Mem.MemStorage) : bool :=
  match ops with
  | [] => true
  | op :: rest => keepsProtocol s op && keepProtocol rest (forumStep op s)
  end.

(** The sample forum once reply 1 is the best answer of post 1. *)
Definition forumWithBest : Mem.MemStorage :=
  exec (Mem.markAsBestAnswer 1 1) forumScenario.

Definition databaseWithBest : Pg.Database :=
  exec (Pg.markAsBestAnswer 1 1) forumDatabase.

(** A patch that only says [isBestAnswer: true]. *)
Definition patchBest : PartialForumReply :=
  mkPartialForumReply None None None None None None None (Some true).

(** The pairs (eventId, userId) of the stored registrations, row by row. *)
Definition registrationPairs (s : Mem.MemStorage) : list (Z * Z) :=
  map (fun reg => (reg_eventId reg, reg_userId reg))
      (JsMap.values (Mem.eventRegistrations s)).

(** A club with the admin (user 1) and the member alice (user 2). *)
Definition aliceForm : InsertUser :=
  mkInsertUser "alice" "$2b$10$hash" "Alice" "alice@dsac.com" None None
    None None.

Definition alice : User :=
  mkUser 2 "alice" "$2b$10$hash" "Alice" "alice@dsac.com" None None
    "member" "beginner" 5.

Definition clubScenario : Mem.MemStorage :=
  exec (Mem.createUser aliceForm 5) (Mem.constructor 0).

Definition contestForm : InsertEvent :=
  mkInsertEvent "Weekly contest" "Five problems" "contest" 1000 120 "Lab 2" 0.

Definition guideForm : InsertResource :=
  mkInsertResource "Graphs" "A guide to graphs" None "guide"
    (Some "https://example.org/graphs") 0.

(** The club after the admin announced the contest (event 1) and alice
    registered for it. *)
Definition clubWithContest : Mem.MemStorage :=
  exec (Routes.postEvents
          (Routes.mkRequest (Some (Mem.adminUser 1 0)) None (Some contestForm))
          10)
       clubScenario.

Definition clubWithRegistration : Mem.MemStorage :=
  exec (Routes.postEventRegister
          (Routes.mkRequest (Some alice) (Some 1) None) 20)
       clubWithContest.

(** The contest results of user [U], their summed score and the number of
    distinct events among them. *)
Definition resultsOf (U : Z) (results : list ContestResult)
  : list ContestResult :=
  filter (fun cr => cr_userId cr =? U) results.

Definition scoreSum (results : list ContestResult) : Z :=
  Pg.sum (map cr_score results).

Definition distinctEvents (results : list ContestResult) : Z :=
  Pg.count_distinct (map cr_eventId results).

(** The scores added up as the loop of [getLeaderboard] adds them: one
    after the other, each sum a double. *)
Definition jsSum (scores : list Z) : Z := fold_left jsAdd scores 0.

(** No running sum of the scores leaves the range in which every integer
    is a double. *)
Fixpoint safeFrom (total : Z) (scores : list Z) : bool :=
  match scores with
  | [] => true
  | score :: rest =>
      (Z.abs (total + score) <=? 2 ^ 53) && safeFrom (total + score) rest
  end.

Definition safeSums (scores : list Z) : bool := safeFrom 0 scores.

(** The rows of a leaderboard that belong to user [U]. *)
Definition rowsOf (U : Z) (leaderboard : list Mem.LeaderboardRow)
  : list Mem.LeaderboardRow :=
  filter (fun row => Mem.lb_id row =? U) leaderboard.


(** Every user record is filed under its own id, as [createUser] files it. *)
Definition users_keyed (users : JsMap.t User) : Prop :=
  forall k u, JsMap.get k users = Some u -> user_id u = k.

(** What [userScores] holds for user [U] once the loop has seen [seen]. *)
Definition gathered (U : Z) (seen : list ContestResult) : option Mem.ScoreData :=
  match resultsOf U seen with
  | [] => None
  | rs =>
      Some (Mem.mkScoreData U (jsSum (map cr_score rs))
              (Z.of_nat (List.length rs)))
  end.

(** A source of draws for [Math.random()]. *)
Definition noRandom : nat -> nat := fun _ => 0%nat.



(** The admin files two results of alice for the same contest (event 1). *)
Definition clubWithRepeatedEvent : Mem.MemStorage :=
  exec (Routes.postEventResults
          (Routes.mkRequest (Some (Mem.adminUser 1 0)) (Some 1)
             (Some (mkInsertContestResult 0 2 None 60))) 40)
  (exec (Routes.postEventResults
          (Routes.mkRequest (Some (Mem.adminUser 1 0)) (Some 1)
             (Some (mkInsertContestResult 0 2 (Some 1) 80))) 30)
       clubWithContest).

(** The same users and contest results as rows of the database. *)
Definition databaseWithRepeatedEvent : Pg.Database :=
  Pg.mkDatabase
    (JsMap.values (Mem.users clubWithRepeatedEvent))
    (JsMap.values (Mem.contestResults clubWithRepeatedEvent))
    [] [] 3 1 1.

(** ** The two backends side by side *)

(** The operations of [IStorage] on users, posts and replies, as calls
    without a receiver. *)
Inductive StorageOp :=
| CreateUser (insertUser : InsertUser) (now : Z)
| GetUser (id : Z)
| CreateForumPost (post : InsertForumPost) (now : Z)
| GetForumPost (id : Z)
| DeleteForumPost (id : Z)
| IncrementForumPostViews (id : Z)
| CreateForumReply (reply : InsertForumReply) (now : Z)
| GetForumReply (id : Z)
| UpvoteForumReply (id : Z)
| UpdateForumReply (id : Z) (replyData : PartialForumReply) (now : Z)
| DeleteForumReply (id : Z)
| MarkAsBestAnswer (postId replyId : Z).

(** What such a call resolves to. *)
Inductive Value :=
| VUndefined
| VBoolean (b : bool)
| VUser (user : option User)
| VPost (post : option ForumPost)
| VReply (reply : option ForumReply).

Definition amap {St A B : Type} (f : A -> B) (c : Async St A) : Async St B :=
  fun s =>
    match c s with
    | (Resolved a, s') => (Resolved (f a), s')
    | (Rejected e, s') => (Rejected e, s')
    end.

Definition memCall (op : StorageOp) : Async Mem.MemStorage Value :=
  match op with
  | CreateUser insertUser now =>
      amap (fun u => VUser (Some u)) (Mem.createUser insertUser now)
  | GetUser id => amap VUser (Mem.getUser id)
  | CreateForumPost post now =>
      amap (fun p => VPost (Some p)) (Mem.createForumPost post now)
  | GetForumPost id => amap VPost (Mem.getForumPost id)
  | DeleteForumPost id => amap VBoolean (Mem.deleteForumPost id)
  | IncrementForumPostViews id =>
      amap (fun _ => VUndefined) (Mem.incrementForumPostViews id)
  | CreateForumReply reply now =>
      amap (fun r => VReply (Some r)) (Mem.createForumReply reply now)
  | GetForumReply id => amap VReply (Mem.getForumReply id)
  | UpvoteForumReply id =>
      amap (fun r => VReply (Some r)) (Mem.upvoteForumReply id)
  | UpdateForumReply id replyData now =>
      amap VReply (Mem.updateForumReply id replyData now)
  | DeleteForumReply id => amap VBoolean (Mem.deleteForumReply id)
  | MarkAsBestAnswer postId replyId =>
      amap (fun r => VReply (Some r)) (Mem.markAsBestAnswer postId replyId)
  end.

Definition pgCall (op : StorageOp) : Async Pg.Database Value :=
  match op with
  | CreateUser insertUser now =>
      amap (fun u => VUser (Some u)) (Pg.createUser insertUser now)
  | GetUser id => amap VUser (Pg.getUser id)
  | CreateForumPost post now =>
      amap (fun p => VPost (Some p)) (Pg.createForumPost post now)
  | GetForumPost id => amap VPost (Pg.getForumPost id)
  | DeleteForumPost id => amap VBoolean (Pg.deleteForumPost id)
  | IncrementForumPostViews id =>
      amap (fun _ => VUndefined) (Pg.incrementForumPostViews id)
  | CreateForumReply reply now =>
      amap (fun r => VReply (Some r)) (Pg.createForumReply reply now)
  | GetForumReply id => amap VReply (Pg.getForumReply id)
  | UpvoteForumReply id =>
      amap (fun r => VReply (Some r)) (Pg.upvoteForumReply id)
  | UpdateForumReply id replyData now =>
      amap VReply (Pg.updateForumReply id replyData now)
  | DeleteForumReply id => amap VBoolean (Pg.deleteForumReply id)
  | MarkAsBestAnswer postId replyId =>
      amap (fun r => VReply (Some r)) (Pg.markAsBestAnswer postId replyId)
  end.

(** The completions of a sequence of calls, in order. *)
Fixpoint runCalls {St : Type} (call : StorageOp -> Async St Value)
    (ops : list StorageOp) (s : St) : list (Completion Value) :=
  match ops with
  | [] => []
  | op :: rest =>
      let (c, s') := call op s in
      c :: runCalls call rest s'
  end.

(** A table as the [Map] that holds its rows under their ids. *)
Definition tableMap {R : Type} (id : R -> Z) (rows : list R) : JsMap.t R :=
  map (fun r => (id r, r)) rows.

(** The two backends hold the same state: the same users, contest results,
    posts and replies in the same order, and the same next ids. (Events,
    registrations and resources are not part of the modelled database.) *)
Definition same_state (m : Mem.MemStorage) (db : Pg.Database) : Prop :=
  Mem.users m = tableMap user_id (Pg.t_users db) /\
  Mem.contestResults m = tableMap cr_id (Pg.t_contest_results db) /\
  Mem.forumPosts m = tableMap post_id (Pg.t_forum_posts db) /\
  Mem.forumReplies m = tableMap reply_id (Pg.t_forum_replies db) /\
  Mem.userId m = Pg.users_id_seq db /\
  Mem.forumPostId m = Pg.forum_posts_id_seq db /\
  Mem.forumReplyId m = Pg.forum_replies_id_seq db.

(** The ids a [SERIAL] column has handed out lie below its sequence. *)
Definition sequences_ahead (db : Pg.Database) : Prop :=
  (forall u, In u (Pg.t_users db) -> user_id u < Pg.users_id_seq db) /\
  (forall p, In p (Pg.t_forum_posts db) -> post_id p < Pg.forum_posts_id_seq db) /\
  (forall r, In r (Pg.t_forum_replies db) ->
             reply_id r < Pg.forum_replies_id_seq db).

Definition consistent (db : Pg.Database) : Prop :=
  Pg.primary_keys db /\ Pg.replies_reference_posts db /\ sequences_ahead db.






(** ** Orders of listings *)

(** A list in which every element comes before the elements with a larger
    (for [descendingBy]: smaller) or equal key. *)
Definition ascendingBy {A : Type} (key : A -> Z) (l : list A) : Prop :=
  StronglySorted (fun a b => key a <= key b) l.

Definition descendingBy {A : Type} (key : A -> Z) (l : list A) : Prop :=
  StronglySorted (fun a b => key b <= key a) l.

(** ** Reachable stores *)

(** The writing operations of [MemStorage]. *)
Inductive MemWrite :=
| WCreateUser (insertUser : InsertUser) (now : Z)
| WUpdateUser (id : Z) (userData : PartialUser)
| WCreateEvent (insertEvent : InsertEvent) (now : Z)
| WUpdateEvent (id : Z) (eventData : PartialEvent)
| WDeleteEvent (id : Z)
| WCreateEventRegistration (insertRegistration : InsertEventRegistration)
    (now : Z)
| WDeleteEventRegistration (id : Z)
| WCreateContestResult (insertResult : InsertContestResult) (now : Z)
| WUpdateContestResult (id : Z) (resultData : PartialContestResult)
| WDeleteContestResult (id : Z)
| WUpdateLeaderboardEntry (userId : Z) (score : option Z)
    (random : nat -> nat) (now : Z)
| WCreateForumPost (insertPost : InsertForumPost) (now : Z)
| WUpdateForumPost (id : Z) (postData : PartialForumPost) (now : Z)
| WDeleteForumPost (id : Z)
| WIncrementForumPostViews (id : Z)
| WCreateForumReply (insertReply : InsertForumReply) (now : Z)
| WUpdateForumReply (id : Z) (replyData : PartialForumReply) (now : Z)
| WUpvoteForumReply (id : Z)
| WDeleteForumReply (id : Z)
| WMarkAsBestAnswer (postId replyId : Z)
| WCreateResource (insertResource : InsertResource) (now : Z)
| WUpdateResource (id : Z) (resourceData : PartialResource) (now : Z)
| WDeleteResource (id : Z).

Definition memWrite (op : MemWrite) (s : Mem.MemStorage) : Mem.MemStorage :=
  match op with
  | WCreateUser insertUser now => exec (Mem.createUser insertUser now) s
  | WUpdateUser id userData => exec (Mem.updateUser id userData) s
  | WCreateEvent insertEvent now => exec (Mem.createEvent insertEvent now) s
  | WUpdateEvent id eventData => exec (Mem.updateEvent id eventData) s
  | WDeleteEvent id => exec (Mem.deleteEvent id) s
  | WCreateEventRegistration insertRegistration now =>
      exec (Mem.createEventRegistration insertRegistration now) s
  | WDeleteEventRegistration id => exec (Mem.deleteEventRegistration id) s
  | WCreateContestResult insertResult now =>
      exec (Mem.createContestResult insertResult now) s
  | WUpdateContestResult id resultData =>
      exec (Mem.updateContestResult id resultData) s
  | WDeleteContestResult id => exec (Mem.deleteContestResult id) s
  | WUpdateLeaderboardEntry userId score random now =>
      exec (Mem.updateLeaderboardEntry userId score random now) s
  | WCreateForumPost insertPost now =>
      exec (Mem.createForumPost insertPost now) s
  | WUpdateForumPost id postData now =>
      exec (Mem.updateForumPost id postData now) s
  | WDeleteForumPost id => exec (Mem.deleteForumPost id) s
  | WIncrementForumPostViews id => exec (Mem.incrementForumPostViews id) s
  | WCreateForumReply insertReply now =>
      exec (Mem.createForumReply insertReply now) s
  | WUpdateForumReply id replyData now =>
      exec (Mem.updateForumReply id replyData now) s
  | WUpvoteForumReply id => exec (Mem.upvoteForumReply id) s
  | WDeleteForumReply id => exec (Mem.deleteForumReply id) s
  | WMarkAsBestAnswer postId replyId =>
      exec (Mem.markAsBestAnswer postId replyId) s
  | WCreateResource insertResource now =>
      exec (Mem.createResource insertResource now) s
  | WUpdateResource id resourceData now =>
      exec (Mem.updateResource id resourceData now) s
  | WDeleteResource id => exec (Mem.deleteResource id) s
  end.

Definition memWrites (ops : list MemWrite) (s : Mem.MemStorage)
  : Mem.MemStorage :=
  fold_left (fun s op => memWrite op s) ops s.

(** A map whose keys are distinct and lie below the counter that hands out
    the next one. *)
Definition map_ok {V : Type} (next : Z) (m : JsMap.t V) : Prop :=
  JsMap.wf m /\ forall k, In k (JsMap.keys m) -> k < next.

Definition store_ok (s : Mem.MemStorage) : Prop :=
  map_ok (Mem.userId s) (Mem.users s) /\
  map_ok (Mem.eventId s) (Mem.events s) /\
  map_ok (Mem.eventRegistrationId s) (Mem.eventRegistrations s) /\
  map_ok (Mem.contestResultId s) (Mem.contestResults s) /\
  map_ok (Mem.forumPostId s) (Mem.forumPosts s) /\
  map_ok (Mem.forumReplyId s) (Mem.forumReplies s) /\
  map_ok (Mem.resourceId s) (Mem.resources s).

(** ** Updates *)

(** What an update by id does to a map: the keys stay as they are, in their
    order; the record under [id], if there is one, is replaced by its merge
    with the patch, which is also the answer; every other record stays. *)
Definition updates_in_place {V : Type} (id : Z) (merged : V -> V)
    (m m' : JsMap.t V) (answer : option V) : Prop :=
  JsMap.keys m' = JsMap.keys m /\
  answer = option_map merged (JsMap.get id m) /\
  JsMap.get id m' = option_map merged (JsMap.get id m) /\
  forall k, k <> id -> JsMap.get k m' = JsMap.get k m.

(** ** Handlers *)

(** A completion that is not a success: a rejection, or an answer whose
    status is neither 200 nor 201. *)
Definition notSuccess {A : Type} (status : A -> Z) (c : Completion A) : Prop :=
  match c with
  | Resolved a => status a <> 200 /\ status a <> 201
  | Rejected _ => True
  end.

(** Every stored reply belongs to a stored post. *)
Definition replies_have_posts (s : Mem.MemStorage) : Prop :=
  forall r, In r (JsMap.values (Mem.forumReplies s)) ->
    JsMap.has (reply_postId r) (Mem.forumPosts s) = true.

(** ** Requests *)

(** A request to one of the handlers of [registerRoutes] that work on the
    storage, with what the handler reads of it. *)
Inductive Call :=
| CallGetEvents
| CallGetEventById (req : Routes.Request unit)
| CallPostEvents (req : Routes.Request InsertEvent) (now : Z)
| CallPostEventRegister (req : Routes.Request unit) (now : Z)
| CallPostEventResults (req : Routes.Request InsertContestResult) (now : Z)
| CallGetLeaderboard (random : nat -> nat)
| CallGetForum
| CallGetForumById (req : Routes.Request unit)
| CallPostForum (req : Routes.Request InsertForumPost) (now : Z)
| CallPostForumReply (req : Routes.Request InsertForumReply) (now : Z)
| CallPostUpvote (req : Routes.Request unit)
| CallPostBestAnswer (req : Routes.Request unit)
| CallGetResources
| CallGetResourceById (req : Routes.Request unit)
| CallPostResources (req : Routes.Request InsertResource) (now : Z)
| CallGetAllForumReplies.

Definition methodOf (call : Call) : Routes.Method :=
  match call with
  | CallGetEvents | CallGetEventById _ | CallGetLeaderboard _ | CallGetForum
  | CallGetForumById _ | CallGetResources | CallGetResourceById _
  | CallGetAllForumReplies => Routes.GET
  | _ => Routes.POST
  end.

(** The handler runs and the status of its answer is kept. *)
Definition serve (call : Call) : Async Mem.MemStorage Z :=
  match call with
  | CallGetEvents => amap Routes.answer_status Routes.getEvents
  | CallGetEventById req => amap Routes.answer_status (Routes.getEventById req)
  | CallPostEvents req now => amap Routes.status (Routes.postEvents req now)
  | CallPostEventRegister req now =>
      amap Routes.status (Routes.postEventRegister req now)
  | CallPostEventResults req now =>
      amap Routes.status (Routes.postEventResults req now)
  | CallGetLeaderboard random =>
      amap Routes.answer_status (Routes.getLeaderboard random)
  | CallGetForum => amap Routes.answer_status Routes.getForum
  | CallGetForumById req => amap Routes.answer_status (Routes.getForumById req)
  | CallPostForum req now => amap Routes.answer_status (Routes.postForum req now)
  | CallPostForumReply req now =>
      amap Routes.answer_status (Routes.postForumReply req now)
  | CallPostUpvote req => amap Routes.answer_status (Routes.postUpvote req)
  | CallPostBestAnswer req => amap Routes.status (Routes.postBestAnswer req)
  | CallGetResources => amap Routes.answer_status Routes.getResources
  | CallGetResourceById req =>
      amap Routes.answer_status (Routes.getResourceById req)
  | CallPostResources req now =>
      amap Routes.status (Routes.postResources req now)
  | CallGetAllForumReplies =>
      amap Routes.answer_status Routes.getAllForumReplies
  end.

Definition serveAll (calls : list Call) (s : Mem.MemStorage)
  : Mem.MemStorage :=
  fold_left (fun s call => exec (serve call) s) calls s.

(** The writes that leave every reply with a post: a reply is created for,
    or moved to, a stored post only. *)
Definition attaches (s : Mem.MemStorage) (op : MemWrite) : bool :=
  match op with
  | WCreateForumReply insertReply _ =>
      JsMap.has (iy_postId insertReply) (Mem.forumPosts s)
  | WUpdateForumReply _ replyData _ =>
      match py_postId replyData with
      | Some postId => JsMap.has postId (Mem.forumPosts s)
      | None => true
      end
  | _ => true
  end.

(** A write that leaves the [id] of every user alone: no patch of
    [updateUser] has the key [id]. *)
Definition keepsUserId (op : MemWrite) : bool :=
  match op with
  | WUpdateUser _ userData =>
      match pu_id userData with
      | None => true
      | Some _ => false
      end
  | _ => true
  end.

(** The database after a sequence of calls. *)
Definition pgCalls (ops : list StorageOp) (db : Pg.Database) : Pg.Database :=
  fold_left (fun db op => exec (pgCall op) db) ops db.

(** [username VARCHAR(50) UNIQUE] and [email VARCHAR(255) UNIQUE]. *)
Definition unique_logins (db : Pg.Database) : Prop :=
  NoDup (map user_username (Pg.t_users db)) /\
  NoDup (map user_email (Pg.t_users db)).

(** The same rows in every table; the sequences may differ. *)
Definition same_tables (db db' : Pg.Database) : Prop :=
  Pg.t_users db' = Pg.t_users db /\
  Pg.t_contest_results db' = Pg.t_contest_results db /\
  Pg.t_forum_posts db' = Pg.t_forum_posts db /\
  Pg.t_forum_replies db' = Pg.t_forum_replies db.

(* ===================================================================== *)
(** * Facts about [JsMap] *)
(* ===================================================================== *)

Module JsMapFacts.
Import JsMap.

Section Facts.
Context {V : Type}.
Implicit Types (m : JsMap.t V) (k : Z) (v : V).

Lemma get_set_same k v m : get k (set k v m) = Some v.
Proof.
  induction m as [|[k' v'] m IH]; simpl.
  - now rewrite Z.eqb_refl.
  - destruct (k' =? k) eqn:E; simpl.
    + now rewrite Z.eqb_refl.
    + now rewrite E.
Qed.

Lemma get_set_other k k' v m : k <> k' -> get k' (set k v m) = get k' m.
Proof.
  intros Hne. induction m as [|[k0 v0] m IH]; simpl.
  - destruct (k =? k') eqn:E; [apply Z.eqb_eq in E; contradiction | reflexivity].
  - destruct (k0 =? k) eqn:E; simpl.
    + apply Z.eqb_eq in E; subst k0.
      destruct (k =? k') eqn:E'; [apply Z.eqb_eq in E'; contradiction | reflexivity].
    + destruct (k0 =? k'); auto.
Qed.

Lemma get_In k v m : get k m = Some v -> In (k, v) m.
Proof.
  induction m as [|[k' v'] m IH]; simpl; [discriminate|].
  destruct (k' =? k) eqn:E.
  - apply Z.eqb_eq in E. intros [= ->]. subst. now left.
  - intros H. right. auto.
Qed.

Lemma get_None_keys k m : get k m = None <-> ~ In k (keys m).
Proof.
  induction m as [|[k' v'] m IH]; simpl.
  - tauto.
  - destruct (k' =? k) eqn:E.
    + apply Z.eqb_eq in E. split; [discriminate | intros H; exfalso; auto].
    + apply Z.eqb_neq in E. rewrite IH. tauto.
Qed.

Lemma In_get k v m : wf m -> In (k, v) m -> get k m = Some v.
Proof.
  unfold wf. induction m as [|[k' v'] m IH]; simpl; [tauto|].
  intros Hnd [H|H].
  - inversion H; subst. now rewrite Z.eqb_refl.
  - inversion Hnd as [|? ? Hnin Hnd']; subst.
    destruct (k' =? k) eqn:E.
    + apply Z.eqb_eq in E; subst k'. exfalso. apply Hnin.
      change k with (fst (k, v)). now apply in_map.
    + auto.
Qed.

Lemma set_absent k v m : ~ In k (keys m) -> set k v m = m ++ [(k, v)].
Proof.
  induction m as [|[k' v'] m IH]; simpl; [reflexivity|].
  intros Hnin. destruct (k' =? k) eqn:E.
  - apply Z.eqb_eq in E. exfalso; auto.
  - f_equal. apply IH. tauto.
Qed.

Lemma set_middle k v v0 (pre post : JsMap.t V) :
  ~ In k (keys pre) ->
  set k v (pre ++ (k, v0) :: post) = pre ++ (k, v) :: post.
Proof.
  induction pre as [|[k' v'] pre IH]; simpl.
  - now rewrite Z.eqb_refl.
  - intros Hnin. destruct (k' =? k) eqn:E.
    + apply Z.eqb_eq in E. exfalso; auto.
    + f_equal. apply IH. tauto.
Qed.

Lemma keys_set_present k v m : In k (keys m) -> keys (set k v m) = keys m.
Proof.
  induction m as [|[k' v'] m IH]; simpl; [tauto|].
  intros Hin. destruct (k' =? k) eqn:E; simpl.
  - apply Z.eqb_eq in E. now subst.
  - apply Z.eqb_neq in E. f_equal. apply IH. destruct Hin; congruence.
Qed.

Lemma wf_set k v m : wf m -> wf (set k v m).
Proof.
  unfold wf. intros Hnd.
  destruct (in_dec Z.eq_dec k (keys m)) as [Hin|Hnin].
  - now rewrite keys_set_present.
  - rewrite set_absent by assumption. unfold keys in *.
    rewrite map_app. simpl.
    apply NoDup_app_remove_l with (l := []). simpl.
    apply Permutation_NoDup with (l := k :: map fst m).
    + apply Permutation_cons_append.
    + now constructor.
Qed.

Lemma wf_empty : wf (@empty V).
Proof. constructor. Qed.

Lemma remove_absent k m : ~ In k (keys m) -> remove k m = m.
Proof.
  induction m as [|[k' v'] m IH]; simpl; [reflexivity|].
  intros Hnin. destruct (k' =? k) eqn:E; simpl.
  - apply Z.eqb_eq in E. exfalso; auto.
  - f_equal. apply IH. tauto.
Qed.

Lemma remove_app k (m1 m2 : JsMap.t V) :
  remove k (m1 ++ m2) = remove k m1 ++ remove k m2.
Proof. unfold remove. apply filter_app. Qed.

Lemma get_remove_same k m : get k (remove k m) = None.
Proof.
  induction m as [|[k' v'] m IH]; simpl; [reflexivity|].
  destruct (k' =? k) eqn:E; simpl; [assumption|]. now rewrite E.
Qed.

Lemma get_remove_other k k' m : k <> k' -> get k' (remove k m) = get k' m.
Proof.
  intros Hne. induction m as [|[k0 v0] m IH]; simpl; [reflexivity|].
  destruct (k0 =? k) eqn:E; simpl.
  - apply Z.eqb_eq in E; subst k0.
    destruct (k =? k') eqn:E'; [apply Z.eqb_eq in E'; contradiction | assumption].
  - destruct (k0 =? k'); auto.
Qed.

Lemma keys_filter_incl (f : Z * V -> bool) m k :
  In k (keys (filter f m)) -> In k (keys m).
Proof.
  unfold keys. rewrite !in_map_iff. intros [e [He Hin]].
  apply filter_In in Hin. exists e. tauto.
Qed.

Lemma wf_filter (f : Z * V -> bool) m : wf m -> wf (filter f m).
Proof.
  unfold wf. induction m as [|[k v] m IH]; simpl; [auto|].
  intros Hnd. inversion Hnd as [|? ? Hnin Hnd']; subst.
  destruct (f (k, v)); simpl; auto.
  constructor; auto. intros Hin. apply Hnin. eapply keys_filter_incl; eauto.
Qed.

Lemma wf_remove k m : wf m -> wf (remove k m).
Proof. apply wf_filter. Qed.

Lemma wf_map_values (g : Z * V -> V) m :
  wf m -> wf (map (fun e => (fst e, g e)) m).
Proof.
  unfold wf, keys. rewrite map_map. simpl. auto.
Qed.

Lemma get_map_values (g : V -> V) k m :
  get k (map (fun e => (fst e, g (snd e))) m) = option_map g (get k m).
Proof.
  induction m as [|[k' v'] m IH]; simpl; [reflexivity|].
  destruct (k' =? k); auto.
Qed.

Lemma get_filter_values (f : V -> bool) k v m :
  wf m ->
  get k (filter (fun e => f (snd e)) m) = Some v <->
  get k m = Some v /\ f v = true.
Proof.
  intros Hwf. split.
  - intros H. apply get_In in H. apply filter_In in H. destruct H as [Hin Hf].
    split; [now apply In_get | assumption].
  - intros [H Hf]. apply In_get; [now apply wf_filter|].
    apply filter_In. split; [now apply get_In | assumption].
Qed.
End Facts.

End JsMapFacts.

(* ===================================================================== *)
(** * The loops of [MemStorage] *)
(* ===================================================================== *)

Module MemFacts.
Import JsMap JsMapFacts.

Lemma NoDup_keys_app_inv {V : Type} (pre post : JsMap.t V) k v :
  NoDup (keys (pre ++ (k, v) :: post)) ->
  ~ In k (keys pre) /\ ~ In k (keys post).
Proof.
  unfold keys. rewrite map_app. simpl. intros Hnd.
  apply NoDup_remove_2 in Hnd. rewrite in_app_iff in Hnd. tauto.
Qed.

(** The loop that resets the best answers rewrites every entry in place. *)
Lemma resetBestAnswers_from (P : Z) (todo pre : JsMap.t ForumReply) :
  NoDup (keys (pre ++ todo)) ->
  fold_left
    (fun acc '(id, reply) =>
       if (reply_postId reply =? P) && reply_isBestAnswer reply
       then JsMap.set id (reply_set_isBestAnswer false reply) acc
       else acc)
    todo (pre ++ todo)
  = pre ++ map (fun e => (fst e, resetOne P (snd e))) todo.
Proof.
  revert pre. induction todo as [|[k r] todo IH]; intros pre Hnd; simpl.
  - reflexivity.
  - destruct (NoDup_keys_app_inv _ _ _ _ Hnd) as [Hpre _].
    assert (Hstep :
      (if (reply_postId r =? P) && reply_isBestAnswer r
       then JsMap.set k (reply_set_isBestAnswer false r) (pre ++ (k, r) :: todo)
       else pre ++ (k, r) :: todo)
      = (pre ++ [(k, resetOne P r)]) ++ todo).
    { unfold resetOne. rewrite <- app_assoc. simpl.
      destruct ((reply_postId r =? P) && reply_isBestAnswer r).
      - now apply set_middle.
      - reflexivity. }
    rewrite Hstep, IH.
    + now rewrite <- app_assoc.
    + unfold keys in *. rewrite <- app_assoc. simpl.
      rewrite map_app in *. simpl in *. exact Hnd.
Qed.

Lemma resetBestAnswers_map (P : Z) (m : JsMap.t ForumReply) :
  wf m ->
  Mem.resetBestAnswers P m = map (fun e => (fst e, resetOne P (snd e))) m.
Proof.
  intros Hwf. unfold Mem.resetBestAnswers, entries.
  apply (resetBestAnswers_from P m []). exact Hwf.
Qed.

(** The loop of the cascading delete keeps the entries of the other posts,
    in their order. *)
Lemma deleteRepliesOf_from (P : Z) (todo pre : JsMap.t ForumReply) :
  NoDup (keys (pre ++ todo)) ->
  fold_left
    (fun acc '(replyId, reply) =>
       if reply_postId reply =? P then snd (JsMap.delete replyId acc)
       else acc)
    todo (pre ++ todo)
  = pre ++ filter (fun e => negb (reply_postId (snd e) =? P)) todo.
Proof.
  revert pre. induction todo as [|[k r] todo IH]; intros pre Hnd; simpl.
  - reflexivity.
  - destruct (NoDup_keys_app_inv _ _ _ _ Hnd) as [Hpre Hpost].
    destruct (reply_postId r =? P) eqn:E; simpl.
    + rewrite remove_app. simpl. rewrite Z.eqb_refl. simpl.
      rewrite !remove_absent by assumption.
      apply IH. unfold keys in *. rewrite map_app in *. simpl in Hnd.
      now apply NoDup_remove_1 in Hnd.
    + change (pre ++ (k, r) :: todo) with (pre ++ [(k, r)] ++ todo).
      rewrite app_assoc, IH.
      * now rewrite <- app_assoc.
      * now rewrite <- app_assoc.
Qed.

Lemma deleteRepliesOf_filter (P : Z) (m : JsMap.t ForumReply) :
  wf m ->
  Mem.deleteRepliesOf P m
  = filter (fun e => negb (reply_postId (snd e) =? P)) m.
Proof.
  intros Hwf. unfold Mem.deleteRepliesOf, entries.
  apply (deleteRepliesOf_from P m []). exact Hwf.
Qed.

End MemFacts.

(* ===================================================================== *)
(** * Creating users *)
(* ===================================================================== *)

(** C10. Whatever object [createUser] receives, also one that carries a
    [role] or a [level], the user it returns and stores has role "member"
    and level "beginner", hence is no admin. The in-memory backend always
    returns; the relational backend either stores such a user or rejects the
    insert and stores none; and it does store the user, with the next id of
    the sequence and the texts of the form, whenever no text of the form
    holds the character NUL, the four texts of limited length fit their
    columns, the sequence has not run out, and no stored user has the
    username or the email address. *)
Theorem C10_createUser_role_and_level :
  (forall (insertUser : InsertUser) (now : Z) (s : Mem.MemStorage),
     exists user,
       Mem.createUser insertUser now s
         = (Resolved user, exec (Mem.createUser insertUser now) s) /\
       JsMap.get (user_id user)
         (Mem.users (exec (Mem.createUser insertUser now) s)) = Some user /\
       user_role user = "member" /\ user_level user = "beginner" /\
       user_role user <> "admin") /\
  (forall (insertUser : InsertUser) (now : Z) (db : Pg.Database),
     match Pg.createUser insertUser now db with
     | (Resolved user, db') =>
         Pg.t_users db' = Pg.t_users db ++ [user] /\
         user_role user = "member" /\ user_level user = "beginner" /\
         user_role user <> "admin"
     | (Rejected _, db') => Pg.t_users db' = Pg.t_users db
     end) /\
  (forall (insertUser : InsertUser) (now : Z) (db : Pg.Database),
     existsb Pg.hasNul (Pg.userTexts insertUser) = false ->
     Pg.fits 50 (iu_username insertUser) = true ->
     Pg.fits 255 (iu_password insertUser) = true ->
     Pg.fits 100 (iu_displayName insertUser) = true ->
     Pg.fits 255 (iu_email insertUser) = true ->
     Pg.inInt4 (Pg.users_id_seq db) = true ->
     (forall u, In u (Pg.t_users db) ->
        user_username u <> iu_username insertUser /\
        user_email u <> iu_email insertUser) ->
     exists db',
       Pg.createUser insertUser now db
       = (Resolved
            (mkUser (Pg.users_id_seq db) (iu_username insertUser)
               (iu_password insertUser) (iu_displayName insertUser)
               (iu_email insertUser) (str_or_null (iu_avatar insertUser))
               (str_or_null (iu_bio insertUser)) "member" "beginner" now),
          db') /\
       Pg.t_users db'
       = Pg.t_users db
         ++ [mkUser (Pg.users_id_seq db) (iu_username insertUser)
               (iu_password insertUser) (iu_displayName insertUser)
               (iu_email insertUser) (str_or_null (iu_avatar insertUser))
               (str_or_null (iu_bio insertUser)) "member" "beginner" now]).
Proof.
  split; [|split].
  - intros insertUser now s. eexists. unfold exec, Mem.createUser. simpl.
    repeat split.
    + apply JsMapFacts.get_set_same.
    + discriminate.
  - intros insertUser now db. unfold Pg.createUser, Pg.withText.
    repeat match goal with
           | |- context [if ?b then _ else _] => destruct b
           end; simpl; auto.
    repeat split. discriminate.
  - intros insertUser now db Htexts Hname Hpass Hdisplay Hmail Hseq Hfresh.
    unfold Pg.createUser, Pg.withText. rewrite Htexts. cbv zeta. simpl.
    rewrite Hname, Hpass, Hdisplay, Hmail, Hseq. simpl.
    destruct (existsb
                (fun u => String.eqb (user_username u)
                            (iu_username insertUser))
                (Pg.t_users db)) eqn:En.
    { apply existsb_exists in En. destruct En as (u & Hin & He).
      apply String.eqb_eq in He. now destruct (Hfresh u Hin). }
    destruct (existsb
                (fun u => String.eqb (user_email u) (iu_email insertUser))
                (Pg.t_users db)) eqn:Ee.
    { apply existsb_exists in Ee. destruct Ee as (u & Hin & He).
      apply String.eqb_eq in He. now destruct (Hfresh u Hin). }
    eexists. split; reflexivity.
Qed.

(** A form that asks for the role "admin" and the level "expert" gives a
    member at beginner level in both backends. *)
Lemma C10_createUser_role_and_level_witness :
  (exists user,
     Mem.createUser
       (mkInsertUser "mallory" "$2b$10$hash" "Mallory" "mallory@dsac.com"
          None None (Some "admin") (Some "expert")) 5 (Mem.constructor 0)
     = (Resolved user,
        exec (Mem.createUser
                (mkInsertUser "mallory" "$2b$10$hash" "Mallory"
                   "mallory@dsac.com" None None (Some "admin")
                   (Some "expert")) 5) (Mem.constructor 0)) /\
     user_role user = "member" /\ user_level user = "beginner") /\
  (exists db',
     Pg.createUser
       (mkInsertUser "mallory" "$2b$10$hash" "Mallory" "mallory@dsac.com"
          None None (Some "admin") (Some "expert")) 5 (Pg.initTables 0)
     = (Resolved
          (mkUser 2 "mallory" "$2b$10$hash" "Mallory" "mallory@dsac.com"
             None None "member" "beginner" 5), db') /\
     Pg.t_users db'
     = [Mem.adminUser 1 0;
        mkUser 2 "mallory" "$2b$10$hash" "Mallory" "mallory@dsac.com"
          None None "member" "beginner" 5]).
Proof.
  split.
  - destruct (proj1 C10_createUser_role_and_level
                (mkInsertUser "mallory" "$2b$10$hash" "Mallory"
                   "mallory@dsac.com" None None (Some "admin")
                   (Some "expert")) 5 (Mem.constructor 0))
      as (user & Heq & _ & Hrole & Hlevel & _).
    exists user. repeat split; assumption.
  - apply (proj2 (proj2 C10_createUser_role_and_level)
             (mkInsertUser "mallory" "$2b$10$hash" "Mallory"
                "mallory@dsac.com" None None (Some "admin") (Some "expert"))
             5 (Pg.initTables 0)); try reflexivity.
    intros u [<-|[]]. split; discriminate.
Defined.

(* ===================================================================== *)
(** * Deleting a post *)
(* ===================================================================== *)

(** C9. [deleteForumPost P] leaves no reply with [postId = P] in the store,
    and a reply of another post is in the store afterwards exactly when it
    was there before, under the same id. The same holds of the relational
    backend, where the cascade does the work. *)
Theorem C9_deleteForumPost_cascades :
  (forall (P : Z) (s : Mem.MemStorage),
     JsMap.wf (Mem.forumReplies s) ->
     let s' := exec (Mem.deleteForumPost P) s in
     (forall r, In r (JsMap.values (Mem.forumReplies s')) ->
                reply_postId r <> P) /\
     (forall id r, reply_postId r <> P ->
        (JsMap.get id (Mem.forumReplies s') = Some r <->
         JsMap.get id (Mem.forumReplies s) = Some r)) /\
     JsMap.get P (Mem.forumPosts s') = None) /\
  (forall (P : Z) (db : Pg.Database),
     Pg.replies_reference_posts db ->
     let db' := exec (Pg.deleteForumPost P) db in
     (forall r, In r (Pg.t_forum_replies db') -> reply_postId r <> P) /\
     (forall r, reply_postId r <> P ->
        (In r (Pg.t_forum_replies db') <-> In r (Pg.t_forum_replies db))) /\
     ~ In P (map post_id (Pg.t_forum_posts db'))).
Proof.
  split.
  - intros P s Hwf. unfold exec, Mem.deleteForumPost. simpl.
    rewrite MemFacts.deleteRepliesOf_filter by assumption.
    split; [|split].
    + intros r Hin. unfold JsMap.values in Hin.
      apply in_map_iff in Hin. destruct Hin as [[k r'] [<- Hin]].
      apply filter_In in Hin. destruct Hin as [_ Hne]. simpl in *.
      apply negb_true_iff, Z.eqb_neq in Hne. exact Hne.
    + intros id r Hne.
      rewrite (JsMapFacts.get_filter_values
                 (fun r => negb (reply_postId r =? P))) by assumption.
      split; [tauto|]. intros H. split; [assumption|].
      now apply negb_true_iff, Z.eqb_neq.
    + apply JsMapFacts.get_remove_same.
  - intros P db [Hfk Hty]. unfold exec, Pg.deleteForumPost, Pg.withInt4.
    destruct (Pg.inInt4 P) eqn:HP.
    2:{ assert (Hnone : ~ In P (map post_id (Pg.t_forum_posts db))).
        { intros Hin. apply in_map_iff in Hin. destruct Hin as [p [Hp Hin]].
          apply Hty in Hin. congruence. }
        simpl. split; [|split; [tauto | exact Hnone]].
        intros r Hin Heq. apply Hnone. rewrite <- Heq. now apply Hfk. }
    unfold Pg.delete_where. simpl.
    split; [|split].
    + intros r Hin Heq.
      destruct (filter (fun p => post_id p =? P) (Pg.t_forum_posts db)) eqn:E.
      * simpl in Hin. apply Hfk in Hin. apply in_map_iff in Hin.
        destruct Hin as [p [Hp Hin]].
        assert (Hin' : In p (filter (fun p => post_id p =? P)
                               (Pg.t_forum_posts db))).
        { apply filter_In. split; [assumption|]. apply Z.eqb_eq. congruence. }
        rewrite E in Hin'. destruct Hin'.
      * simpl in Hin. apply filter_In in Hin. destruct Hin as [_ Hne].
        apply negb_true_iff, Z.eqb_neq in Hne. contradiction.
    + intros r Hne.
      destruct (filter (fun p => post_id p =? P) (Pg.t_forum_posts db));
        simpl; [tauto|].
      rewrite filter_In. split; [tauto|]. intros H. split; [assumption|].
      now apply negb_true_iff, Z.eqb_neq.
    + intros Hin. apply in_map_iff in Hin. destruct Hin as [p [Hp Hin]].
      apply filter_In in Hin. destruct Hin as [_ Hne].
      apply negb_true_iff, Z.eqb_neq in Hne. contradiction.
Qed.

(** The cascade at work on the sample forum: deleting post 1 removes the
    replies 1 and 2 and keeps the reply 3 of post 2. *)
Lemma C9_deleteForumPost_cascades_witness :
  (JsMap.keys (Mem.forumReplies forumScenario) = [1; 2; 3] /\
   JsMap.keys (Mem.forumReplies (exec (Mem.deleteForumPost 1) forumScenario))
     = [3]) /\
  (forall r, In r (JsMap.values (Mem.forumReplies
                      (exec (Mem.deleteForumPost 1) forumScenario))) ->
             reply_postId r <> 1) /\
  (forall r, In r (Pg.t_forum_replies
                      (exec (Pg.deleteForumPost 1) forumDatabase)) ->
             reply_postId r <> 1).
Proof.
  split; [split; reflexivity|]. split.
  - apply (proj1 C9_deleteForumPost_cascades 1 forumScenario).
    unfold JsMap.wf. vm_compute.
    repeat constructor; simpl; intuition discriminate.
  - assert (Hfk : Pg.replies_reference_posts forumDatabase).
    { split.
      - intros r Hin. vm_compute in Hin. vm_compute.
        intuition (subst; simpl; auto).
      - intros p Hin. vm_compute in Hin.
        intuition (subst; reflexivity). }
    exact (proj1 (proj2 C9_deleteForumPost_cascades 1 forumDatabase Hfk)).
Defined.

(* ===================================================================== *)
(** * The best answer of a post *)
(* ===================================================================== *)

Module ForumFacts.
Import JsMap JsMapFacts.

Lemma bestAnswersOf_eq P m : bestAnswersOf P m = filter (isBestOf P) (values m).
Proof. reflexivity. Qed.

Section Counting.
Context {V : Type} (f : V -> bool).

(** Writing a value that fails the test, or that replaces one that passes
    it, does not raise the count. *)
Lemma count_set_le k v (m : JsMap.t V) :
  (f v = true -> exists r, get k m = Some r /\ f r = true) ->
  (List.length (filter f (values (set k v m)))
   <= List.length (filter f (values m)))%nat.
Proof.
  induction m as [|[k' v'] m IH]; simpl; intros H.
  - destruct (f v) eqn:E; simpl; [|lia].
    destruct (H eq_refl) as [r [Hr _]]. discriminate.
  - destruct (k' =? k) eqn:Ek; simpl.
    + destruct (f v) eqn:E; simpl.
      * destruct (H eq_refl) as [r [Hr Hf]]. injection Hr as ->.
        rewrite Hf. simpl. lia.
      * destruct (f v'); simpl; lia.
    + specialize (IH H). destruct (f v'); simpl; lia.
Qed.

Lemma count_set_le_succ k v (m : JsMap.t V) :
  (List.length (filter f (values (set k v m)))
   <= S (List.length (filter f (values m))))%nat.
Proof.
  induction m as [|[k' v'] m IH]; simpl.
  - destruct (f v); simpl; lia.
  - destruct (k' =? k); simpl.
    + destruct (f v), (f v'); simpl; lia.
    + destruct (f v'); simpl; lia.
Qed.

Lemma count_filter_le (g : Z * V -> bool) (m : JsMap.t V) :
  (List.length (filter f (values (filter g m)))
   <= List.length (filter f (values m)))%nat.
Proof.
  induction m as [|[k' v'] m IH]; simpl; [lia|].
  destruct (g (k', v')); simpl; destruct (f v'); simpl; lia.
Qed.
End Counting.

Lemma isBestOf_resetOne_same P r : isBestOf P (resetOne P r) = false.
Proof.
  unfold resetOne, isBestOf.
  destruct ((reply_postId r =? P) && reply_isBestAnswer r) eqn:E; simpl.
  - apply andb_false_r.
  - exact E.
Qed.

Lemma isBestOf_resetOne_other P Q r :
  Q <> P -> isBestOf Q (resetOne P r) = isBestOf Q r.
Proof.
  intros Hne. unfold resetOne, isBestOf. destruct r as [i p c u n ca ua b].
  simpl. destruct (p =? P) eqn:E; simpl; [|reflexivity].
  destruct b; simpl; [|reflexivity].
  apply Z.eqb_eq in E.
  destruct (p =? Q) eqn:E'; [|reflexivity].
  apply Z.eqb_eq in E'. congruence.
Qed.

Lemma resetOne_postId P r : reply_postId (resetOne P r) = reply_postId r.
Proof. unfold resetOne. now destruct (_ && _). Qed.

Lemma mark_resetOne P r :
  reply_set_isBestAnswer true (resetOne P r) = reply_set_isBestAnswer true r.
Proof. unfold resetOne. now destruct (_ && _). Qed.

Lemma values_reset P (m : JsMap.t ForumReply) :
  values (map (fun e => (fst e, resetOne P (snd e))) m)
  = map (resetOne P) (values m).
Proof. unfold values. now rewrite !map_map. Qed.

(** After the reset loop post [P] has no best answer, the other posts keep
    theirs. *)
Lemma bestAnswersOf_reset_same P (m : JsMap.t ForumReply) :
  bestAnswersOf P (map (fun e => (fst e, resetOne P (snd e))) m) = [].
Proof.
  unfold bestAnswersOf. rewrite values_reset.
  induction (values m) as [|r l IH]; simpl; [reflexivity|].
  fold (isBestOf P (resetOne P r)). now rewrite isBestOf_resetOne_same.
Qed.

Lemma bestAnswersOf_reset_other P Q (m : JsMap.t ForumReply) :
  Q <> P ->
  bestAnswersOf Q (map (fun e => (fst e, resetOne P (snd e))) m)
  = bestAnswersOf Q m.
Proof.
  intros Hne. unfold bestAnswersOf. rewrite values_reset.
  induction (values m) as [|r l IH]; simpl; [reflexivity|].
  fold (isBestOf Q (resetOne P r)) (isBestOf Q r).
  rewrite isBestOf_resetOne_other by assumption.
  destruct (isBestOf Q r) eqn:E; [|assumption].
  rewrite IH. f_equal. unfold resetOne.
  destruct (reply_postId r =? P) eqn:E'; simpl; [|reflexivity].
  apply Z.eqb_eq in E'. unfold isBestOf in E.
  apply andb_true_iff in E. destruct E as [E _]. apply Z.eqb_eq in E.
  congruence.
Qed.

(** What [markAsBestAnswer] does when the reply is there. *)
Lemma markAsBestAnswer_found P R s reply :
  wf (Mem.forumReplies s) ->
  get R (Mem.forumReplies s) = Some reply ->
  Mem.markAsBestAnswer P R s
  = (Resolved (reply_set_isBestAnswer true reply),
     Mem.set_forumReplies
       (set R (reply_set_isBestAnswer true reply)
          (map (fun e => (fst e, resetOne P (snd e))) (Mem.forumReplies s)))
       (Mem.forumReplyId s) s).
Proof.
  intros Hwf Hget. unfold Mem.markAsBestAnswer. simpl.
  rewrite MemFacts.resetBestAnswers_map by assumption.
  rewrite get_map_values, Hget. simpl. rewrite mark_resetOne.
  destruct s; reflexivity.
Qed.

(** What it does when the reply is missing: the reset stays, the call
    rejects. *)
Lemma markAsBestAnswer_missing P R s :
  wf (Mem.forumReplies s) ->
  get R (Mem.forumReplies s) = None ->
  Mem.markAsBestAnswer P R s
  = (Rejected (JsError "Reply not found"),
     Mem.set_forumReplies
       (map (fun e => (fst e, resetOne P (snd e))) (Mem.forumReplies s))
       (Mem.forumReplyId s) s).
Proof.
  intros Hwf Hget. unfold Mem.markAsBestAnswer. simpl.
  rewrite MemFacts.resetBestAnswers_map by assumption.
  rewrite get_map_values, Hget. reflexivity.
Qed.

(** The relational backend rolls a rejected call back. *)
Lemma pg_markAsBestAnswer_atomic P R db e db' :
  Pg.markAsBestAnswer P R db = (Rejected e, db') -> db' = db.
Proof.
  unfold Pg.markAsBestAnswer, Pg.withInt4, Pg.update_where.
  destruct (Pg.inInt4 P); [|now intros [= _ <-]].
  destruct (Pg.inInt4 R); [|now intros [= _ <-]].
  destruct (map _ (filter _ _)); intros [= _ <-]. reflexivity.
Qed.

(** Every forum operation keeps the keys of the reply map unique. *)
Lemma forumStep_wf op s :
  wf (Mem.forumReplies s) -> wf (Mem.forumReplies (forumStep op s)).
Proof.
  intros Hwf. destruct op as [ins now|id data now|id|P R|id|id];
    unfold forumStep, exec; simpl.
  - now apply wf_set.
  - unfold Mem.updateForumReply.
    destruct (get id (Mem.forumReplies s)); simpl; [now apply wf_set | assumption].
  - unfold Mem.upvoteForumReply.
    destruct (get id (Mem.forumReplies s)); simpl; [now apply wf_set | assumption].
  - destruct (get R (Mem.forumReplies s)) as [reply|] eqn:E.
    + rewrite (markAsBestAnswer_found P R s reply) by assumption. simpl.
      apply wf_set. unfold wf, keys in *. now rewrite map_map.
    + rewrite (markAsBestAnswer_missing P R s) by assumption. simpl.
      unfold wf, keys in *. now rewrite map_map.
  - now apply wf_remove.
  - rewrite MemFacts.deleteRepliesOf_filter by assumption. now apply wf_filter.
Qed.

Lemma get_split {V : Type} k (v : V) (m : JsMap.t V) :
  get k m = Some v ->
  exists pre post, m = pre ++ (k, v) :: post /\ ~ In k (keys pre).
Proof.
  induction m as [|[k' v'] m IH]; simpl; [discriminate|].
  destruct (k' =? k) eqn:E.
  - apply Z.eqb_eq in E. intros [= ->]. subst.
    exists [], m. simpl. tauto.
  - apply Z.eqb_neq in E. intros H.
    destruct (IH H) as [pre [post [-> Hnin]]].
    exists ((k', v') :: pre), post. simpl. split; [reflexivity|].
    intros [?|?]; auto.
Qed.

Lemma filter_isBestOf_reset P (l : list ForumReply) :
  filter (isBestOf P) (map (resetOne P) l) = [].
Proof.
  induction l as [|r l IH]; simpl; [reflexivity|].
  now rewrite isBestOf_resetOne_same.
Qed.

(** After a successful call the marked reply is the only best answer. *)
Lemma bestAnswersOf_marked P R reply (m : JsMap.t ForumReply) :
  get R m = Some reply ->
  reply_postId reply = P ->
  bestAnswersOf P
    (set R (reply_set_isBestAnswer true reply)
       (map (fun e => (fst e, resetOne P (snd e))) m))
  = [reply_set_isBestAnswer true reply].
Proof.
  intros Hget HP. destruct (get_split _ _ _ Hget) as [pre [post [-> Hnin]]].
  rewrite map_app. simpl.
  rewrite set_middle.
  - unfold bestAnswersOf, values. rewrite map_app, filter_app. simpl.
    rewrite !map_map. simpl.
    rewrite <- (map_map snd (resetOne P) pre), <- (map_map snd (resetOne P) post).
    rewrite !filter_isBestOf_reset.
    unfold isBestOf at 1. simpl. rewrite HP, Z.eqb_refl. reflexivity.
  - unfold keys. rewrite map_map. simpl. exact Hnin.
Qed.

Ltac solve_wf :=
  unfold JsMap.wf; vm_compute; repeat constructor; simpl; intuition discriminate.

Lemma forumScenario_wf : wf (Mem.forumReplies forumScenario).
Proof. solve_wf. Qed.

Lemma forumWithBest_wf : wf (Mem.forumReplies forumWithBest).
Proof. solve_wf. Qed.

Lemma forumWithBest_inv : at_most_one_best (Mem.forumReplies forumWithBest).
Proof.
  intros P. set (m := Mem.forumReplies forumWithBest).
  vm_compute in m. subst m. unfold bestAnswersOf, isBestOf. simpl.
  rewrite ?andb_false_r, ?andb_true_r.
  repeat match goal with
         | |- context [if ?b then _ else _] => destruct b
         end; simpl; lia.
Qed.

(** One protocol-keeping operation preserves the invariant. *)
Lemma forumStep_inv op s :
  wf (Mem.forumReplies s) ->
  at_most_one_best (Mem.forumReplies s) ->
  keepsProtocol s op = true ->
  at_most_one_best (Mem.forumReplies (forumStep op s)).
Proof.
  intros Hwf Hinv Hok Q. specialize (Hinv Q). rewrite bestAnswersOf_eq in *.
  destruct op as [ins now|id data now|id|P R|id|id];
    unfold forumStep, exec; simpl.
  - etransitivity; [apply count_set_le | exact Hinv].
    unfold isBestOf. simpl. rewrite andb_false_r. discriminate.
  - unfold Mem.updateForumReply.
    destruct (get id (Mem.forumReplies s)) as [r|] eqn:E; simpl; [|exact Hinv].
    etransitivity; [apply count_set_le | exact Hinv].
    intros Hv. exists r. split; [assumption|].
    simpl in Hok. unfold isBestOf, Mem.mergeReply in *. simpl in Hv.
    destruct (py_postId data); [discriminate|].
    destruct (py_isBestAnswer data) as [[|]|]; simpl in *;
      try discriminate; try assumption.
    rewrite andb_false_r in Hv. discriminate.
  - unfold Mem.upvoteForumReply.
    destruct (get id (Mem.forumReplies s)) as [r|] eqn:E; simpl; [|exact Hinv].
    etransitivity; [apply count_set_le | exact Hinv].
    intros Hv. exists r. split; [assumption|]. exact Hv.
  - simpl in Hok.
    destruct (get R (Mem.forumReplies s)) as [reply|] eqn:E.
    + apply Z.eqb_eq in Hok.
      rewrite (markAsBestAnswer_found P R s reply) by assumption. simpl.
      destruct (Z.eq_dec Q P) as [->|Hne].
      * rewrite <- bestAnswersOf_eq.
        rewrite bestAnswersOf_marked by assumption. simpl. lia.
      * etransitivity; [apply count_set_le|].
        -- unfold isBestOf. simpl. rewrite Hok.
           destruct (P =? Q) eqn:E'; [|discriminate].
           apply Z.eqb_eq in E'. congruence.
        -- rewrite <- !bestAnswersOf_eq.
           rewrite bestAnswersOf_reset_other by assumption.
           rewrite bestAnswersOf_eq. exact Hinv.
    + rewrite (markAsBestAnswer_missing P R s) by assumption. simpl.
      rewrite <- !bestAnswersOf_eq.
      destruct (Z.eq_dec Q P) as [->|Hne].
      * rewrite bestAnswersOf_reset_same. simpl. lia.
      * rewrite bestAnswersOf_reset_other by assumption.
        rewrite bestAnswersOf_eq. exact Hinv.
  - etransitivity; [apply count_filter_le | exact Hinv].
  - rewrite MemFacts.deleteRepliesOf_filter by assumption.
    etransitivity; [apply count_filter_le | exact Hinv].
Qed.

(** Outside the protocol: called with a post the reply does not belong to,
    the in-memory [markAsBestAnswer] marks the reply all the same (reply 2
    of post 1, next to the best answer 1), where the relational backend
    rejects the call. *)
Lemma markAsBestAnswer_foreign_post :
  List.length
    (bestAnswersOf 1
       (Mem.forumReplies (exec (Mem.markAsBestAnswer 2 2) forumWithBest)))
  = 2%nat /\
  Pg.markAsBestAnswer 2 2 databaseWithBest
  = (Rejected
       (JsError "Reply not found or doesn't belong to the specified post"),
     databaseWithBest).
Proof. split; reflexivity. Qed.

(** Through the endpoint the in-memory call cannot fail half-way: the
    handler answers 200 after a complete reassignment, or leaves the store
    as it was. *)
Lemma postBestAnswer_all_or_nothing (req : Routes.Request unit) s :
  wf (Mem.forumReplies s) ->
  (exists reply,
     fst (Routes.postBestAnswer req s)
     = Resolved (Routes.mkResponse 200 (Routes.JsonReply reply))) \/
  exec (Routes.postBestAnswer req) s = s.
Proof.
  intros Hwf. unfold exec, Routes.postBestAnswer.
  destruct (Routes.req_user req) as [user|]; [|now right].
  destruct (Routes.req_params_id req) as [R|]; [|now right].
  unfold try_catch, bind, Mem.getForumReply, Mem.getForumPost, gets, ret.
  destruct (get R (Mem.forumReplies s)) as [reply|] eqn:E; [|now right].
  destruct (get (reply_postId reply) (Mem.forumPosts s)); [|now right].
  destruct (_ && _); [now right|].
  rewrite (markAsBestAnswer_found _ R s reply) by assumption.
  left. eexists. reflexivity.
Qed.

End ForumFacts.

(** C5. When reply [R] of post [P] is in the store, [markAsBestAnswer P R]
    returns [R] marked, stores it so, and leaves every other reply of [P]
    unmarked, so that [R] is the one best answer of [P]. Marking [A] and
    then [B] of the same post leaves [A] unmarked and [B] marked. The
    best-answer endpoint, called by the author of the post or by an admin,
    performs exactly this call on the post of the reply. *)
Theorem C5_markAsBestAnswer_single_winner :
  (forall (P R : Z) (s : Mem.MemStorage) (reply : ForumReply),
     JsMap.wf (Mem.forumReplies s) ->
     JsMap.get R (Mem.forumReplies s) = Some reply ->
     reply_postId reply = P ->
     let s' := exec (Mem.markAsBestAnswer P R) s in
     fst (Mem.markAsBestAnswer P R s)
       = Resolved (reply_set_isBestAnswer true reply) /\
     JsMap.get R (Mem.forumReplies s')
       = Some (reply_set_isBestAnswer true reply) /\
     (forall id r, id <> R ->
        JsMap.get id (Mem.forumReplies s') = Some r ->
        reply_postId r = P -> reply_isBestAnswer r = false) /\
     bestAnswersOf P (Mem.forumReplies s')
       = [reply_set_isBestAnswer true reply]) /\
  (forall (P A B : Z) (s : Mem.MemStorage) (a b : ForumReply),
     JsMap.wf (Mem.forumReplies s) ->
     A <> B ->
     JsMap.get A (Mem.forumReplies s) = Some a -> reply_postId a = P ->
     JsMap.get B (Mem.forumReplies s) = Some b -> reply_postId b = P ->
     let s'' :=
       exec (Mem.markAsBestAnswer P B) (exec (Mem.markAsBestAnswer P A) s) in
     option_map reply_isBestAnswer (JsMap.get A (Mem.forumReplies s''))
       = Some false /\
     option_map reply_isBestAnswer (JsMap.get B (Mem.forumReplies s''))
       = Some true) /\
  (forall (req : Routes.Request unit) (user : User) (R : Z)
          (reply : ForumReply) (post : ForumPost) (s : Mem.MemStorage),
     Routes.req_user req = Some user ->
     Routes.req_params_id req = Some R ->
     JsMap.wf (Mem.forumReplies s) ->
     JsMap.get R (Mem.forumReplies s) = Some reply ->
     JsMap.get (reply_postId reply) (Mem.forumPosts s) = Some post ->
     post_userId post = user_id user \/ user_role user = "admin" ->
     Routes.postBestAnswer req s
     = (Resolved (Routes.mkResponse 200
                    (Routes.JsonReply (reply_set_isBestAnswer true reply))),
        exec (Mem.markAsBestAnswer (reply_postId reply) R) s)).
Proof.
  split; [|split].
  - intros P R s reply Hwf Hget HP. unfold exec. simpl.
    rewrite (ForumFacts.markAsBestAnswer_found P R s reply) by assumption.
    simpl. split; [reflexivity|]. split; [apply JsMapFacts.get_set_same|].
    split.
    + intros id r Hne Hr HPr.
      rewrite JsMapFacts.get_set_other in Hr by congruence.
      rewrite JsMapFacts.get_map_values in Hr.
      destruct (JsMap.get id (Mem.forumReplies s)) as [r0|]; [|discriminate].
      simpl in Hr. injection Hr as <-.
      pose proof (ForumFacts.isBestOf_resetOne_same P r0) as Hb.
      unfold isBestOf in Hb. rewrite HPr, Z.eqb_refl in Hb. exact Hb.
    + now apply ForumFacts.bestAnswersOf_marked.
  - intros P A B s a b Hwf Hne Ha HPa Hb HPb. unfold exec.
    rewrite (ForumFacts.markAsBestAnswer_found P A s a) by assumption.
    simpl.
    remember (Mem.set_forumReplies _ _ s) as s1 eqn:Hs1.
    assert (Hwf1 : JsMap.wf (Mem.forumReplies s1)).
    { rewrite Hs1. simpl. apply JsMapFacts.wf_set.
      unfold JsMap.wf, JsMap.keys in *. now rewrite map_map. }
    assert (Hb1 : JsMap.get B (Mem.forumReplies s1) = Some (resetOne P b)).
    { rewrite Hs1. simpl. rewrite JsMapFacts.get_set_other by assumption.
      now rewrite JsMapFacts.get_map_values, Hb. }
    assert (Ha1 : JsMap.get A (Mem.forumReplies s1)
                  = Some (reply_set_isBestAnswer true a)).
    { rewrite Hs1. simpl. apply JsMapFacts.get_set_same. }
    clear Hs1.
    rewrite (ForumFacts.markAsBestAnswer_found P B s1 _ Hwf1 Hb1). simpl.
    split.
    + rewrite JsMapFacts.get_set_other by congruence.
      rewrite JsMapFacts.get_map_values, Ha1. simpl. f_equal.
      unfold resetOne. simpl. now rewrite HPa, Z.eqb_refl.
    + now rewrite JsMapFacts.get_set_same.
  - intros req user R reply post s Huser Hid Hwf Hget Hpost Hauth.
    unfold Routes.postBestAnswer. rewrite Huser, Hid.
    unfold try_catch, bind, Mem.getForumReply, Mem.getForumPost, gets, ret.
    rewrite Hget, Hpost.
    assert (Hrole : negb (post_userId post =? user_id user)
                    && negb (String.eqb (user_role user) "admin") = false).
    { destruct Hauth as [H|H].
      - rewrite H, Z.eqb_refl. reflexivity.
      - rewrite H. simpl. apply andb_false_r. }
    rewrite Hrole. unfold exec.
    rewrite (ForumFacts.markAsBestAnswer_found _ R s reply) by assumption.
    reflexivity.
Qed.

(** The three parts of C5 on the sample forum, where reply 1 is the best
    answer of post 1 and reply 2 is marked next. *)
Lemma C5_markAsBestAnswer_single_winner_witness :
  bestAnswersOf 1
    (Mem.forumReplies (exec (Mem.markAsBestAnswer 1 2) forumWithBest))
  = [mkForumReply 2 1 "memoise it" 1 0 30 30 true] /\
  (option_map reply_isBestAnswer
     (JsMap.get 1 (Mem.forumReplies
        (exec (Mem.markAsBestAnswer 1 2)
           (exec (Mem.markAsBestAnswer 1 1) forumScenario)))) = Some false /\
   option_map reply_isBestAnswer
     (JsMap.get 2 (Mem.forumReplies
        (exec (Mem.markAsBestAnswer 1 2)
           (exec (Mem.markAsBestAnswer 1 1) forumScenario)))) = Some true) /\
  Routes.postBestAnswer
    (Routes.mkRequest (Some (Mem.adminUser 1 0)) (Some 2) None) forumWithBest
  = (Resolved (Routes.mkResponse 200
       (Routes.JsonReply (mkForumReply 2 1 "memoise it" 1 0 30 30 true))),
     exec (Mem.markAsBestAnswer 1 2) forumWithBest).
Proof.
  split; [|split].
  - apply (proj1 C5_markAsBestAnswer_single_winner 1 2 forumWithBest
             (mkForumReply 2 1 "memoise it" 1 0 30 30 false)
             ForumFacts.forumWithBest_wf eq_refl eq_refl).
  - apply (proj1 (proj2 C5_markAsBestAnswer_single_winner) 1 1 2 forumScenario
             (mkForumReply 1 1 "try recursion" 1 0 20 20 false)
             (mkForumReply 2 1 "memoise it" 1 0 30 30 false)
             ForumFacts.forumScenario_wf);
      [discriminate | reflexivity | reflexivity | reflexivity | reflexivity].
  - apply (proj2 (proj2 C5_markAsBestAnswer_single_winner)
             (Routes.mkRequest (Some (Mem.adminUser 1 0)) (Some 2) None)
             (Mem.adminUser 1 0) 2
             (mkForumReply 2 1 "memoise it" 1 0 30 30 false)
             (mkForumPost 1 "DP" "how?" 1 0 10 10 None) forumWithBest
             eq_refl eq_refl ForumFacts.forumWithBest_wf eq_refl eq_refl).
    left. reflexivity.
Defined.

(** C6 (the in-memory backend is not atomic). In the sample forum reply 1 is
    the best answer of post 1 and there is no reply 99. The call
    [markAsBestAnswer 1 99] rejects with "Reply not found", yet the store it
    leaves has reply 1 unmarked and post 1 without a best answer. The
    relational backend rejects the same call and leaves the database as it
    was. *)
Theorem C6_failed_markAsBestAnswer_clears_best :
  option_map reply_isBestAnswer
    (JsMap.get 1 (Mem.forumReplies forumWithBest)) = Some true /\
  JsMap.get 99 (Mem.forumReplies forumWithBest) = None /\
  fst (Mem.markAsBestAnswer 1 99 forumWithBest)
    = Rejected (JsError "Reply not found") /\
  option_map reply_isBestAnswer
    (JsMap.get 1 (Mem.forumReplies
       (exec (Mem.markAsBestAnswer 1 99) forumWithBest))) = Some false /\
  bestAnswersOf 1
    (Mem.forumReplies (exec (Mem.markAsBestAnswer 1 99) forumWithBest)) = [] /\
  exec (Mem.markAsBestAnswer 1 99) forumWithBest <> forumWithBest /\
  Pg.markAsBestAnswer 1 99 databaseWithBest
    = (Rejected
         (JsError "Reply not found or doesn't belong to the specified post"),
       databaseWithBest).
Proof.
  repeat split; try reflexivity.
  intros H. apply (f_equal (fun s => bestAnswersOf 1 (Mem.forumReplies s))) in H.
  vm_compute in H. discriminate.
Qed.

(** C1 as stated fails: in the sample forum, where reply 1 is the one best
    answer of post 1, the storage operation [updateForumReply] with the
    patch [{isBestAnswer: true}] on reply 2 leaves post 1 with two best
    answers. *)
Lemma C1_updateForumReply_adds_best_answer :
  JsMap.wf (Mem.forumReplies forumWithBest) /\
  at_most_one_best (Mem.forumReplies forumWithBest) /\
  ~ at_most_one_best
      (Mem.forumReplies
         (runForum [OpUpdateForumReply 2 patchBest 60] forumWithBest)).
Proof.
  split; [exact ForumFacts.forumWithBest_wf|].
  split; [exact ForumFacts.forumWithBest_inv|].
  intros H. specialize (H 1). vm_compute in H. lia.
Qed.

(** C1, amended. From a store where no post has two best answers, every
    sequence of [createForumReply], [upvoteForumReply], [deleteForumReply],
    [deleteForumPost], of [markAsBestAnswer] called with the post of the
    reply (or with a missing reply), and of [updateForumReply] with a patch
    that neither sets [isBestAnswer] to true nor changes [postId], leads to a
    store where no post has two best answers. *)
Theorem C1_best_answer_invariant :
  forall (ops : list ForumOp) (s : Mem.MemStorage),
    JsMap.wf (Mem.forumReplies s) ->
    at_most_one_best (Mem.forumReplies s) ->
    keepProtocol ops s = true ->
    at_most_one_best (Mem.forumReplies (runForum ops s)).
Proof.
  induction ops as [|op ops IH]; intros s Hwf Hinv Hok; simpl in *.
  - exact Hinv.
  - apply andb_true_iff in Hok. destruct Hok as [Hop Hrest].
    apply IH.
    + now apply ForumFacts.forumStep_wf.
    + now apply ForumFacts.forumStep_inv.
    + exact Hrest.
Qed.

(** A run of all six operations on the sample forum. *)
Lemma C1_best_answer_invariant_witness :
  at_most_one_best
    (Mem.forumReplies
       (runForum
          [OpCreateForumReply (mkInsertForumReply 1 "bottom up" 1) 60;
           OpMarkAsBestAnswer 1 4;
           OpUpvoteForumReply 4;
           OpUpdateForumReply 1
             (mkPartialForumReply None None (Some "edited") None None None
                None None) 70;
           OpMarkAsBestAnswer 2 3;
           OpDeleteForumReply 2;
           OpDeleteForumPost 2]
          forumWithBest)).
Proof.
  apply C1_best_answer_invariant.
  - exact ForumFacts.forumWithBest_wf.
  - exact ForumFacts.forumWithBest_inv.
  - vm_compute. reflexivity.
Defined.

(* ===================================================================== *)
(** * Access checks and registrations *)
(* ===================================================================== *)

Module RouteFacts.
Import JsMap JsMapFacts.

(** The handler of [POST /api/events] never looks at the role. *)
Lemma postEvents_any_user (user : User) (data : InsertEvent) (now : Z)
    (s : Mem.MemStorage) :
  exists event,
    Routes.postEvents (Routes.mkRequest (Some user) None (Some data)) now s
    = (Resolved (Routes.mkResponse 201 (Routes.JsonEvent event)),
       Mem.set_events (set (Mem.eventId s) event (Mem.events s))
         (Mem.eventId s + 1) s) /\
    event_createdBy event = user_id user.
Proof. eexists. split; reflexivity. Qed.

(** Nor does the handler of [POST /api/resources]. *)
Lemma postResources_any_user (user : User) (data : InsertResource) (now : Z)
    (s : Mem.MemStorage) :
  exists resource,
    Routes.postResources (Routes.mkRequest (Some user) None (Some data)) now s
    = (Resolved (Routes.mkResponse 201 (Routes.JsonResource resource)),
       Mem.set_resources (set (Mem.resourceId s) resource (Mem.resources s))
         (Mem.resourceId s + 1) s) /\
    res_userId resource = user_id user.
Proof. eexists. split; reflexivity. Qed.

Lemma In_values_set {V : Type} k (v x : V) (m : JsMap.t V) :
  In x (values (set k v m)) -> x = v \/ In x (values m).
Proof.
  induction m as [|[k' v'] m IH]; simpl.
  - intros [H|[]]. now left.
  - destruct (k' =? k); simpl.
    + intros [H|H]; [now left | right; now right].
    + intros [H|H]; [right; now left|].
      destruct (IH H); [now left | right; now right].
Qed.

(** Writing a value with a new image keeps the images distinct. *)
Lemma NoDup_images_set {V K : Type} (g : V -> K) k v (m : JsMap.t V) :
  NoDup (map g (values m)) ->
  ~ In (g v) (map g (values m)) ->
  NoDup (map g (values (set k v m))).
Proof.
  induction m as [|[k' v'] m IH]; simpl; intros Hnd Hnin.
  - constructor; [tauto | constructor].
  - inversion Hnd as [|? ? Hv' Hnd']; subst.
    destruct (k' =? k); simpl.
    + constructor; [tauto | assumption].
    + constructor.
      * intros Hin. apply in_map_iff in Hin. destruct Hin as [x [Hx Hin]].
        apply In_values_set in Hin. destruct Hin as [->|Hin].
        -- apply Hnin. left. now symmetry.
        -- apply Hv'. rewrite <- Hx. now apply in_map.
      * apply IH; [assumption | tauto].
Qed.

End RouteFacts.

(** C7 (the handlers do not check the role). Alice is an authenticated
    member, not an admin. Her [POST /api/events] with a valid body is
    answered 201 and the event is stored with her as creator; her
    [POST /api/resources] likewise stores the resource. Only her
    [POST /api/events/:id/results] is refused, by the admin check that the
    other two handlers lack. *)
Theorem C7_member_creates_event_and_resource :
  user_role alice = "member" /\
  JsMap.get 2 (Mem.users clubScenario) = Some alice /\
  Routes.postEvents (Routes.mkRequest (Some alice) None (Some contestForm)) 10
    clubScenario
  = (Resolved (Routes.mkResponse 201
       (Routes.JsonEvent
          (mkEvent 1 "Weekly contest" "Five problems" "contest" 1000 120
             "Lab 2" 2 10))),
     exec (Routes.postEvents
             (Routes.mkRequest (Some alice) None (Some contestForm)) 10)
          clubScenario) /\
  JsMap.keys (Mem.events clubScenario) = [] /\
  JsMap.keys (Mem.events
    (exec (Routes.postEvents
             (Routes.mkRequest (Some alice) None (Some contestForm)) 10)
          clubScenario)) = [1] /\
  Routes.postResources (Routes.mkRequest (Some alice) None (Some guideForm)) 10
    clubScenario
  = (Resolved (Routes.mkResponse 201
       (Routes.JsonResource
          (mkResource 1 "Graphs" "A guide to graphs" None "guide"
             (Some "https://example.org/graphs") 2 10 10))),
     exec (Routes.postResources
             (Routes.mkRequest (Some alice) None (Some guideForm)) 10)
          clubScenario) /\
  JsMap.keys (Mem.resources
    (exec (Routes.postResources
             (Routes.mkRequest (Some alice) None (Some guideForm)) 10)
          clubScenario)) = [1] /\
  Routes.postEventResults
    (Routes.mkRequest (Some alice) (Some 1)
       (Some (mkInsertContestResult 1 2 None 100))) 30 clubWithContest
  = (Resolved (Routes.mkResponse 401 (Routes.Message "Unauthorized")),
     clubWithContest).
Proof. repeat split. Qed.

(** C8. When [U] is registered for [E], a request of [U] to register for
    [E] is answered with an error (400 "Already registered for this event",
    or 404 when the event is gone) and leaves the store as it was. Whatever
    the request, the handler keeps the pairs (eventId, userId) of the stored
    registrations distinct. *)
Theorem C8_second_registration_rejected :
  (forall (req : Routes.Request unit) (user : User) (E now : Z)
          (s : Mem.MemStorage) (reg : EventRegistration),
     Routes.req_user req = Some user ->
     Routes.req_params_id req = Some E ->
     In reg (JsMap.values (Mem.eventRegistrations s)) ->
     reg_eventId reg = E ->
     reg_userId reg = user_id user ->
     Routes.postEventRegister req now s
     = (Resolved
          (match JsMap.get E (Mem.events s) with
           | Some _ =>
               Routes.mkResponse 400
                 (Routes.Message "Already registered for this event")
           | None => Routes.mkResponse 404 (Routes.Message "Event not found")
           end),
        s)) /\
  (forall (req : Routes.Request unit) (now : Z) (s : Mem.MemStorage),
     NoDup (registrationPairs s) ->
     NoDup (registrationPairs (exec (Routes.postEventRegister req now) s))).
Proof.
  split.
  - intros req user E now s reg Huser Hid Hin HE HU.
    unfold Routes.postEventRegister. rewrite Huser, Hid.
    unfold try_catch, bind, Mem.getEvent, Mem.getEventRegistration, gets, ret.
    destruct (JsMap.get E (Mem.events s)); [|reflexivity].
    destruct (find _ _) eqn:Hfind; [reflexivity|].
    exfalso. apply (find_none _ _ Hfind) in Hin.
    rewrite HE, HU, !Z.eqb_refl in Hin. discriminate.
  - intros req now s Hnd. unfold exec, Routes.postEventRegister.
    destruct (Routes.req_user req) as [user|]; [|exact Hnd].
    destruct (Routes.req_params_id req) as [E|]; [|exact Hnd].
    unfold try_catch, bind, Mem.getEvent, Mem.getEventRegistration, gets, ret.
    destruct (JsMap.get E (Mem.events s)); [|exact Hnd].
    destruct (find _ _) eqn:Hfind; [exact Hnd|].
    unfold registrationPairs. simpl.
    apply (RouteFacts.NoDup_images_set
             (fun reg => (reg_eventId reg, reg_userId reg))).
    + exact Hnd.
    + simpl. intros Hin. apply in_map_iff in Hin.
      destruct Hin as [reg [Hpair Hin]].
      apply (find_none _ _ Hfind) in Hin.
      injection Hpair as H1 H2. rewrite H1, H2, !Z.eqb_refl in Hin.
      discriminate.
Qed.

(** Alice registers a second time for the contest: 400, and still one
    registration. *)
Lemma C8_second_registration_rejected_witness :
  Routes.postEventRegister (Routes.mkRequest (Some alice) (Some 1) None) 30
    clubWithRegistration
  = (Resolved (Routes.mkResponse 400
       (Routes.Message "Already registered for this event")),
     clubWithRegistration) /\
  registrationPairs clubWithRegistration = [(1, 2)] /\
  NoDup (registrationPairs
    (exec (Routes.postEventRegister
             (Routes.mkRequest (Some alice) (Some 1) None) 30)
          clubWithRegistration)).
Proof.
  split; [|split].
  - apply (proj1 C8_second_registration_rejected
             (Routes.mkRequest (Some alice) (Some 1) None) alice 1 30
             clubWithRegistration (mkEventRegistration 1 1 2 20));
      try reflexivity.
    simpl. left. reflexivity.
  - reflexivity.
  - apply (proj2 C8_second_registration_rejected).
    vm_compute. repeat constructor; simpl; intuition discriminate.
Defined.

(* ===================================================================== *)
(** * The leaderboard *)
(* ===================================================================== *)

Module LeaderboardFacts.
Import JsMap JsMapFacts.

Lemma scoreSum_snoc rs r : scoreSum (rs ++ [r]) = scoreSum rs + cr_score r.
Proof.
  unfold scoreSum, Pg.sum. rewrite map_app. simpl.
  induction (map cr_score rs) as [|x l IH]; simpl; lia.
Qed.

Lemma jsSum_snoc scores score :
  jsSum (scores ++ [score]) = jsAdd (jsSum scores) score.
Proof. unfold jsSum. now rewrite fold_left_app. Qed.

(** Up to 2^53 in magnitude every integer is a double. *)
Lemma roundToDouble_exact n : Z.abs n <= 2 ^ 53 -> roundToDouble n = n.
Proof.
  intros H. unfold roundToDouble. apply Z.leb_le in H. now rewrite H.
Qed.

Lemma safeFrom_exact scores : forall total,
  safeFrom total scores = true ->
  fold_left jsAdd scores total = total + Pg.sum scores.
Proof.
  induction scores as [|score scores IH]; intros total Hsafe; simpl in *.
  - unfold Pg.sum. simpl. lia.
  - apply andb_true_iff in Hsafe. destruct Hsafe as [Hfit Hsafe].
    apply Z.leb_le in Hfit. unfold jsAdd at 2.
    rewrite roundToDouble_exact by assumption.
    rewrite IH by assumption. unfold Pg.sum. simpl. lia.
Qed.

(** While the running sums are safe, the doubles add up to the sum. *)
Lemma safeSums_exact scores :
  safeSums scores = true -> jsSum scores = Pg.sum scores.
Proof. intros H. unfold jsSum. now rewrite safeFrom_exact. Qed.

Lemma resultsOf_snoc_same U seen r :
  cr_userId r = U -> resultsOf U (seen ++ [r]) = resultsOf U seen ++ [r].
Proof.
  intros H. unfold resultsOf. rewrite filter_app. simpl.
  now rewrite H, Z.eqb_refl.
Qed.

Lemma resultsOf_snoc_other U seen r :
  cr_userId r <> U -> resultsOf U (seen ++ [r]) = resultsOf U seen.
Proof.
  intros H. unfold resultsOf. rewrite filter_app. simpl.
  apply Z.eqb_neq in H. rewrite H. apply app_nil_r.
Qed.

(** One turn of the gathering loop. *)
Lemma gatherResult_get seen acc r :
  (forall U, get U acc = gathered U seen) ->
  forall U, get U (Mem.gatherResult acc r) = gathered U (seen ++ [r]).
Proof.
  intros Hacc U. unfold Mem.gatherResult, gathered.
  destruct (Z.eq_dec (cr_userId r) U) as [Heq|Hne].
  - rewrite Heq, get_set_same, resultsOf_snoc_same by assumption.
    rewrite Hacc. unfold gathered.
    destruct (resultsOf U seen) as [|r0 rs] eqn:E.
    + cbn [app map List.length Mem.sd_userId Mem.sd_totalScore
           Mem.sd_contestCount].
      unfold jsSum. simpl fold_left. do 2 f_equal.
    + rewrite <- E. cbn [Mem.sd_userId Mem.sd_totalScore Mem.sd_contestCount].
      pose proof (jsSum_snoc (map cr_score (resultsOf U seen)) (cr_score r))
        as Hs.
      pose proof (length_app (resultsOf U seen) [r]) as Hl.
      change [cr_score r] with (map cr_score [r]) in Hs.
      rewrite <- (map_app cr_score (resultsOf U seen) [r]) in Hs.
      destruct (resultsOf U seen ++ [r]) eqn:E'.
      * apply app_eq_nil in E'. destruct E' as [_ E']. discriminate.
      * rewrite Hs, Hl. simpl List.length. do 2 f_equal. lia.
  - rewrite get_set_other, resultsOf_snoc_other by assumption. apply Hacc.
Qed.

Lemma gather_fold rs : forall seen acc,
  (forall U, get U acc = gathered U seen) ->
  forall U, get U (fold_left Mem.gatherResult rs acc) = gathered U (seen ++ rs).
Proof.
  induction rs as [|r rs IH]; intros seen acc Hacc U; simpl.
  - rewrite app_nil_r. apply Hacc.
  - change (r :: rs) with ([r] ++ rs). rewrite app_assoc.
    apply IH. now apply gatherResult_get.
Qed.

(** The map the loop builds: for each user the sum of the scores and the
    number of the results. *)
Lemma gatherScores_get results U :
  get U (Mem.gatherScores results) = gathered U results.
Proof. apply (gather_fold results [] empty). reflexivity. Qed.

Lemma gather_wf rs : forall acc, wf acc -> wf (fold_left Mem.gatherResult rs acc).
Proof.
  induction rs as [|r rs IH]; intros acc Hwf; simpl; [assumption|].
  apply IH. unfold Mem.gatherResult. now apply wf_set.
Qed.

Lemma gatherScores_wf results : wf (Mem.gatherScores results).
Proof. apply gather_wf, wf_empty. Qed.

(** The rows of [U] among the rows built from the entries. *)
Lemma rows_absent users random U es : forall calls,
  users_keyed users ->
  ~ In U (keys es) ->
  rowsOf U (Mem.filterBoolean (Mem.leaderboardRows users random calls es)) = [].
Proof.
  induction es as [|[k d] es IH]; intros calls Hkeyed Hnin; simpl.
  - reflexivity.
  - simpl in Hnin.
    destruct (get k users) as [u|] eqn:E; simpl.
    + rewrite (Hkeyed _ _ E).
      destruct (k =? U) eqn:E'; [apply Z.eqb_eq in E'; tauto|].
      apply IH; tauto.
    + apply IH; tauto.
Qed.

Lemma rows_present users random U u d es : forall calls,
  users_keyed users ->
  NoDup (keys es) ->
  get U es = Some d ->
  get U users = Some u ->
  exists row,
    rowsOf U (Mem.filterBoolean (Mem.leaderboardRows users random calls es))
      = [row] /\
    Mem.lb_id row = U /\
    Mem.lb_score row = Mem.sd_totalScore d /\
    Mem.lb_contestCount row = Mem.sd_contestCount d.
Proof.
  induction es as [|[k d'] es IH]; intros calls Hkeyed Hnd Hd Hu; simpl in *.
  - discriminate.
  - inversion Hnd as [|? ? Hnin Hnd']; subst.
    destruct (k =? U) eqn:E.
    + apply Z.eqb_eq in E. subst k. injection Hd as ->.
      rewrite Hu. simpl. rewrite (Hkeyed _ _ Hu), Z.eqb_refl.
      rewrite rows_absent by assumption.
      eexists. split; [reflexivity|]. simpl. auto using Hkeyed.
    + destruct (get k users) as [u'|] eqn:E'; simpl.
      * rewrite (Hkeyed _ _ E'), E. now apply IH.
      * now apply IH.
Qed.

(** Sorting permutes the rows. *)
Lemma insertByScore_perm a l : Permutation (a :: l) (Mem.insertByScore a l).
Proof.
  induction l as [|b l IH]; simpl; [reflexivity|].
  destruct (Mem.lb_score b - Mem.lb_score a >? 0); [|reflexivity].
  rewrite perm_swap. now apply perm_skip.
Qed.

Lemma sortByScore_perm l : Permutation l (Mem.sortByScore l).
Proof.
  induction l as [|a l IH]; simpl; [reflexivity|].
  rewrite <- insertByScore_perm. now apply perm_skip.
Qed.

Lemma filter_perm {A : Type} (f : A -> bool) l l' :
  Permutation l l' -> Permutation (filter f l) (filter f l').
Proof.
  induction 1 as [|x l l' H IH|x y l|l l' l'' H1 IH1 H2 IH2]; simpl.
  - reflexivity.
  - destruct (f x); [now apply perm_skip | assumption].
  - destruct (f x), (f y); try reflexivity. apply perm_swap.
  - now transitivity (filter f l').
Qed.

Lemma rowsOf_sortByScore U l row :
  rowsOf U l = [row] -> rowsOf U (Mem.sortByScore l) = [row].
Proof.
  intros H. apply Permutation_length_1_inv. rewrite <- H.
  apply filter_perm, sortByScore_perm.
Qed.



Lemma users_keyed_Forall (users : JsMap.t User) :
  Forall (fun e => user_id (snd e) = fst e) users -> users_keyed users.
Proof.
  intros HF k u Hget. apply get_In in Hget.
  rewrite Forall_forall in HF. apply (HF _ Hget).
Qed.


(** The in-memory [contestCount] of a user is the number of the result
    rows of that user. *)
Lemma mem_contestCount_counts_rows (random : nat -> nat) s U u :
  users_keyed (Mem.users s) ->
  get U (Mem.users s) = Some u ->
  resultsOf U (values (Mem.contestResults s)) <> [] ->
  exists leaderboard row,
    Mem.getLeaderboard random s = (Resolved leaderboard, s) /\
    rowsOf U leaderboard = [row] /\
    Mem.lb_contestCount row
    = Z.of_nat (List.length (resultsOf U (values (Mem.contestResults s)))).
Proof.
  intros Hkeyed Hu Hres. unfold Mem.getLeaderboard, gets.
  set (results := values (Mem.contestResults s)) in *.
  pose proof (gatherScores_get results U) as Hg. unfold gathered in Hg.
  destruct (resultsOf U results) as [|r rs] eqn:E; [tauto|].
  destruct (rows_present (Mem.users s) random U u _
              (Mem.gatherScores results) 0%nat Hkeyed
              (gatherScores_wf results) Hg Hu)
    as [row [Hrows [_ [_ Hcount]]]].
  eexists. exists row. split; [reflexivity|]. split.
  - now apply rowsOf_sortByScore.
  - exact Hcount.
Qed.


End LeaderboardFacts.




(** C3 (the in-memory backend counts rows, not events). Alice has two
    contest results, both for event 1, so one distinct event. The in-memory
    leaderboard gives her [contestCount = 2]; the SQL query of the
    relational backend, with its [COUNT(DISTINCT cr.event_id)], gives 1 on
    the same rows (as the text "1": the count is a [bigint]). *)
Theorem C3_contestCount_counts_rows :
  map cr_eventId
    (resultsOf 2 (JsMap.values (Mem.contestResults clubWithRepeatedEvent)))
    = [1; 1] /\
  distinctEvents
    (resultsOf 2 (JsMap.values (Mem.contestResults clubWithRepeatedEvent)))
    = 1 /\
  Mem.getLeaderboard noRandom clubWithRepeatedEvent
    = (Resolved
         [Mem.mkLeaderboardRow 2 "alice" "Alice" None "beginner" 140 2
            "Binary Tree"],
       clubWithRepeatedEvent) /\
  Pg.getLeaderboard noRandom databaseWithRepeatedEvent
    = (Resolved
         [Pg.mkLeaderboardRow 2 "alice" "Alice" None "beginner" "140" "1"
            "Binary Tree"],
       databaseWithRepeatedEvent).
Proof. repeat split. Qed.

(* ===================================================================== *)
(** * The two backends on the forum *)
(* ===================================================================== *)

Module TableFacts.
Import JsMap JsMapFacts.

Section Table.
Context {R : Type} (id : R -> Z).
Implicit Types (rows : list R) (k : Z).









Lemma filter_id_none k rows :
  ~ In k (map id rows) -> filter (fun r => id r =? k) rows = [].
Proof.
  induction rows as [|r rows IH]; simpl; [reflexivity|].
  intros Hnin. destruct (id r =? k) eqn:E.
  - apply Z.eqb_eq in E. tauto.
  - apply IH. tauto.
Qed.

Lemma filter_id_nil_inv k rows :
  filter (fun r => id r =? k) rows = [] -> ~ In k (map id rows).
Proof.
  intros Hnil Hin. apply in_map_iff in Hin. destruct Hin as [r [Hr Hin]].
  assert (H : In r (filter (fun r => id r =? k) rows)).
  { apply filter_In. split; [assumption | now apply Z.eqb_eq]. }
  rewrite Hnil in H. destruct H.
Qed.




Lemma NoDup_map_filter (f : R -> bool) rows :
  NoDup (map id rows) -> NoDup (map id (filter f rows)).
Proof.
  induction rows as [|r rows IH]; simpl; [auto|].
  intros Hnd. inversion Hnd as [|? ? Hnin Hnd']; subst.
  destruct (f r); simpl; auto. constructor; auto.
  intros Hin. apply Hnin. apply in_map_iff in Hin.
  destruct Hin as [x [Hx Hin]]. apply filter_In in Hin.
  rewrite <- Hx. apply in_map. tauto.
Qed.

Lemma NoDup_map_snoc v rows :
  NoDup (map id rows) -> ~ In (id v) (map id rows) ->
  NoDup (map id (rows ++ [v])).
Proof.
  intros Hnd Hnin. rewrite map_app. simpl.
  apply NoDup_app_remove_l with (l := []). simpl.
  apply Permutation_NoDup with (l := id v :: map id rows).
  - apply Permutation_cons_append.
  - now constructor.
Qed.

Lemma map_id_update (g : R -> R) (c : R -> bool) rows :
  (forall r, id (g r) = id r) ->
  map id (map (fun r => if c r then g r else r) rows) = map id rows.
Proof.
  intros Hid. rewrite map_map. apply map_ext.
  intros r. destruct (c r); auto.
Qed.

End Table.

End TableFacts.

Module BackendFacts.
Import JsMap JsMapFacts TableFacts.


(** Splits [consistent] into the key, reference and sequence goals that
    are not among the hypotheses. *)
Ltac consistent_split :=
  split;
  [ unfold Pg.primary_keys; simpl; repeat split; try assumption
  | split;
    [ unfold Pg.replies_reference_posts; simpl; split; try assumption
    | repeat split; simpl; try assumption ] ].




Lemma filter_map_comm {A B : Type} (f : B -> bool) (g : A -> B) l :
  filter f (map g l) = map g (filter (fun x => f (g x)) l).
Proof.
  induction l as [|x l IH]; simpl; [reflexivity|].
  destruct (f (g x)); simpl; now rewrite IH.
Qed.

Lemma filter_andb {A : Type} (a b : A -> bool) l :
  filter (fun x => a x && b x) l = filter b (filter a l).
Proof.
  induction l as [|x l IH]; simpl; [reflexivity|].
  destruct (a x); simpl; [|assumption]. destruct (b x); now rewrite IH.
Qed.


Lemma resetOne_id P r : reply_id (resetOne P r) = reply_id r.
Proof. unfold resetOne. now destruct (_ && _). Qed.

Lemma fresh_id {R : Type} (id : R -> Z) rows seq :
  (forall r, In r rows -> id r < seq) -> ~ In seq (map id rows).
Proof.
  intros Hseq Hin. apply in_map_iff in Hin. destruct Hin as [r [Hr Hin]].
  apply Hseq in Hin. lia.
Qed.

Lemma below_next {R : Type} (id : R -> Z) rows row seq :
  (forall r, In r rows -> id r < seq) -> id row = seq ->
  forall r, In r (rows ++ [row]) -> id r < seq + 1.
Proof.
  intros Hseq Hrow r Hin. apply in_app_iff in Hin.
  destruct Hin as [Hin|[<-|[]]]; [apply Hseq in Hin|]; lia.
Qed.








(** An [UPDATE] by id that keeps ids and post ids keeps the database
    consistent. *)
Lemma update_replies_consistent (g : ForumReply -> ForumReply) id
    tu tc tp tr su sp sr :
  (forall r, reply_id (g r) = reply_id r) ->
  (forall r, reply_postId (g r) = reply_postId r) ->
  consistent (Pg.mkDatabase tu tc tp tr su sp sr) ->
  consistent
    (Pg.mkDatabase tu tc tp
       (map (fun r => if reply_id r =? id then g r else r) tr) su sp sr).
Proof.
  intros Hid Hpost
    ((Hpku & Hpkp & Hpkr) & (Hfk & Hty) & (Hsequ & Hseqp & Hseqr)).
  simpl in *. consistent_split.
  - rewrite (map_id_update reply_id); auto.
  - intros r Hr. apply in_map_iff in Hr.
    destruct Hr as [r' [<- Hr']].
    destruct (reply_id r' =? id); [rewrite Hpost|]; now apply Hfk.
  - intros r Hr. apply in_map_iff in Hr. destruct Hr as [r' [<- Hr']].
    destruct (reply_id r' =? id); [rewrite Hid|]; now apply Hseqr.
Qed.









Lemma initial_consistent now : consistent (Pg.initTables now).
Proof.
  consistent_split; try (repeat constructor; simpl; tauto);
    intros ? Hin; simpl in Hin; try contradiction.
  destruct Hin as [<-|[]]. simpl. lia.
Qed.

End BackendFacts.

(** C4 (the backends differ). Both backends start in the same state, the
    admin and nothing else, and receive the same call. (1)
    [createForumReply] for a post 7 that does not exist: the in-memory
    backend stores and returns the reply, the database rejects the insert
    for its foreign key on [post_id]. (2) [getUser(2147483648)]: the
    in-memory backend resolves to [undefined], the database rejects the
    parameter, which is no [INTEGER]. (3) [createUser] with the username
    and the email of the admin: the in-memory backend stores a second
    "admin" (as a member), the database rejects the insert for its unique
    key. *)
Theorem C4_backends_differ :
  same_state (Mem.constructor 0) (Pg.initTables 0) /\
  (runCalls memCall [CreateForumReply (mkInsertForumReply 7 "hello" 1) 10]
     (Mem.constructor 0)
   = [Resolved (VReply (Some (mkForumReply 1 7 "hello" 1 0 10 10 false)))] /\
   runCalls pgCall [CreateForumReply (mkInsertForumReply 7 "hello" 1) 10]
     (Pg.initTables 0)
   = [Rejected (DbError (ForeignKey "forum_replies" "post_id"))]) /\
  (runCalls memCall [GetUser 2147483648] (Mem.constructor 0)
   = [Resolved (VUser None)] /\
   runCalls pgCall [GetUser 2147483648] (Pg.initTables 0)
   = [Rejected (DbError IntegerOutOfRange)]) /\
  (runCalls memCall
     [CreateUser
        (mkInsertUser "admin" "$2b$10$hash" "Admin II" "admin@dsac.com" None
           None None None) 10]
     (Mem.constructor 0)
   = [Resolved
        (VUser
           (Some
              (mkUser 2 "admin" "$2b$10$hash" "Admin II" "admin@dsac.com"
                 None None "member" "beginner" 10)))] /\
   runCalls pgCall
     [CreateUser
        (mkInsertUser "admin" "$2b$10$hash" "Admin II" "admin@dsac.com" None
           None None None) 10]
     (Pg.initTables 0)
   = [Rejected (DbError (UniqueKey "users" "username"))]).
Proof. repeat split. Qed.

(* ===================================================================== *)
(** * Where the backends agree *)
(* ===================================================================== *)



(* ===================================================================== *)
(** * Sorted listings *)
(* ===================================================================== *)

Module SortFacts.

Section Sort.
Context {A : Type} (compare : A -> A -> Z).

Lemma insertWith_perm a l : Permutation (a :: l) (insertWith compare a l).
Proof.
  induction l as [|b l IH]; simpl; [reflexivity|].
  destruct (compare a b >? 0); [|reflexivity].
  rewrite perm_swap. now apply perm_skip.
Qed.

Lemma jsSort_perm l : Permutation l (jsSort compare l).
Proof.
  induction l as [|a l IH]; simpl; [reflexivity|].
  rewrite <- insertWith_perm. now apply perm_skip.
Qed.

Lemma jsSort_In a l : In a (jsSort compare l) <-> In a l.
Proof.
  split; apply Permutation_in;
    [symmetry|]; apply jsSort_perm.
Qed.

Lemma jsSort_length l : List.length (jsSort compare l) = List.length l.
Proof. symmetry. apply Permutation_length, jsSort_perm. Qed.

(** A comparator never asks for both orders. *)
Hypothesis compare_asym : forall a b, compare a b > 0 -> compare b a <= 0.

Lemma insertWith_sorted a l :
  Sorted (fun x y => compare x y <= 0) l ->
  Sorted (fun x y => compare x y <= 0) (insertWith compare a l).
Proof.
  induction l as [|b l IH]; simpl; intros Hs.
  - repeat constructor.
  - inversion Hs as [|? ? Hs' Hhd]; subst.
    destruct (compare a b >? 0) eqn:E.
    + apply Z.gtb_lt in E. constructor; [now apply IH|].
      destruct l as [|c l]; simpl.
      * constructor. apply compare_asym. lia.
      * destruct (compare a c >? 0).
        -- inversion Hhd; subst. now constructor.
        -- constructor. apply compare_asym. lia.
    + constructor; [assumption|]. constructor.
      destruct (compare a b) eqn:E'; simpl in E; try discriminate; lia.
Qed.

Lemma jsSort_sorted l : Sorted (fun x y => compare x y <= 0) (jsSort compare l).
Proof.
  induction l as [|a l IH]; simpl; [constructor|].
  now apply insertWith_sorted.
Qed.
End Sort.

Lemma jsSort_ascending {A : Type} (key : A -> Z) l :
  ascendingBy key (jsSort (fun a b => key a - key b) l).
Proof.
  unfold ascendingBy. apply Sorted_StronglySorted.
  - intros x y z Hxy Hyz. lia.
  - eapply Sorted_ind with (P := fun l => Sorted _ l);
      [constructor| |apply (jsSort_sorted (fun a b => key a - key b))].
    + intros a l' _ IH Hhd. constructor; [assumption|].
      destruct Hhd; constructor. lia.
    + intros a b H. lia.
Qed.

Lemma jsSort_descending {A : Type} (key : A -> Z) l :
  descendingBy key (jsSort (fun a b => key b - key a) l).
Proof.
  unfold descendingBy. apply Sorted_StronglySorted.
  - intros x y z Hxy Hyz. lia.
  - eapply Sorted_ind with (P := fun l => Sorted _ l);
      [constructor| |apply (jsSort_sorted (fun a b => key b - key a))].
    + intros a l' _ IH Hhd. constructor; [assumption|].
      destruct Hhd; constructor. lia.
    + intros a b H. lia.
Qed.

(** The sort of the leaderboard is this sort. *)
Lemma sortByScore_jsSort l :
  Mem.sortByScore l
  = jsSort (fun a b => Mem.lb_score b - Mem.lb_score a) l.
Proof.
  unfold Mem.sortByScore, jsSort. induction l as [|a l IH]; simpl;
    [reflexivity|].
  rewrite IH. generalize (fold_right
    (insertWith (fun a b => Mem.lb_score b - Mem.lb_score a)) [] l).
  intros l'. induction l' as [|b l' IH']; simpl; [reflexivity|].
  now rewrite IH'.
Qed.

End SortFacts.

(** X1. [getForumReplies(P)] answers with the stored replies of post [P], each
    as often as it is stored and no other reply, the oldest first; the
    store is not touched. *)
Theorem getForumReplies_of_post_oldest_first :
  forall (P : Z) (s : Mem.MemStorage),
    exists replies,
      Mem.getForumReplies P s = (Resolved replies, s) /\
      Permutation replies
        (filter (fun r => reply_postId r =? P)
           (JsMap.values (Mem.forumReplies s))) /\
      (forall r, In r replies <->
                 In r (JsMap.values (Mem.forumReplies s)) /\
                 reply_postId r = P) /\
      ascendingBy reply_createdAt replies.
Proof.
  intros P s. eexists. split; [reflexivity|]. split; [|split].
  - symmetry. apply SortFacts.jsSort_perm.
  - intros r. rewrite SortFacts.jsSort_In, filter_In, Z.eqb_eq. tauto.
  - apply SortFacts.jsSort_ascending.
Qed.

(** X2. [getContestResults(E)] answers with the stored results of event [E],
    the highest score first, and [getAllEventRegistrations(E)] with the
    stored registrations for [E], the earliest first. *)
Theorem event_listings_filtered_and_sorted :
  (forall (E : Z) (s : Mem.MemStorage),
     exists results,
       Mem.getContestResults E s = (Resolved results, s) /\
       Permutation results
         (filter (fun r => cr_eventId r =? E)
            (JsMap.values (Mem.contestResults s))) /\
       (forall r, In r results <->
                  In r (JsMap.values (Mem.contestResults s)) /\
                  cr_eventId r = E) /\
       descendingBy cr_score results) /\
  (forall (E : Z) (s : Mem.MemStorage),
     exists registrations,
       Mem.getAllEventRegistrations E s = (Resolved registrations, s) /\
       Permutation registrations
         (filter (fun r => reg_eventId r =? E)
            (JsMap.values (Mem.eventRegistrations s))) /\
       (forall r, In r registrations <->
                  In r (JsMap.values (Mem.eventRegistrations s)) /\
                  reg_eventId r = E) /\
       ascendingBy reg_registeredAt registrations).
Proof.
  split; intros E s; eexists; (split; [reflexivity|]); (split; [|split]).
  - symmetry. apply SortFacts.jsSort_perm.
  - intros r. rewrite SortFacts.jsSort_In, filter_In, Z.eqb_eq. tauto.
  - apply SortFacts.jsSort_descending.
  - symmetry. apply SortFacts.jsSort_perm.
  - intros r. rewrite SortFacts.jsSort_In, filter_In, Z.eqb_eq. tauto.
  - apply SortFacts.jsSort_ascending.
Qed.

(** X3. [getAllEvents], [getAllForumPosts] and [getAllResources] answer with
    all stored records, rearranged: the events by date, earliest first, the
    posts and the resources by creation time, newest first. *)
Theorem full_listings_sorted :
  (forall s : Mem.MemStorage,
     exists events,
       Mem.getAllEvents s = (Resolved events, s) /\
       Permutation events (JsMap.values (Mem.events s)) /\
       ascendingBy event_date events) /\
  (forall s : Mem.MemStorage,
     exists posts,
       Mem.getAllForumPosts s = (Resolved posts, s) /\
       Permutation posts (JsMap.values (Mem.forumPosts s)) /\
       descendingBy post_createdAt posts) /\
  (forall s : Mem.MemStorage,
     exists resources,
       Mem.getAllResources s = (Resolved resources, s) /\
       Permutation resources (JsMap.values (Mem.resources s)) /\
       descendingBy res_createdAt resources).
Proof.
  repeat split; intros s; eexists; (split; [reflexivity|]); split;
    try (symmetry; apply SortFacts.jsSort_perm);
    try apply SortFacts.jsSort_ascending;
    apply SortFacts.jsSort_descending.
Qed.

(* ===================================================================== *)
(** * Reachable stores *)
(* ===================================================================== *)

Module StoreFacts.
Import JsMap JsMapFacts.

Lemma In_keys_set {V : Type} k k' (v : V) (m : JsMap.t V) :
  In k' (keys (set k v m)) -> k' = k \/ In k' (keys m).
Proof.
  induction m as [|[k0 v0] m IH]; simpl.
  - intros [H|[]]. now left.
  - destruct (k0 =? k) eqn:E; simpl.
    + intros [H|H]; [now left | right; now right].
    + intros [H|H]; [right; now left|].
      destruct (IH H); [now left | right; now right].
Qed.

Lemma get_Some_keys {V : Type} k (v : V) (m : JsMap.t V) :
  get k m = Some v -> In k (keys m).
Proof.
  intros H. apply get_In in H. change k with (fst (k, v)). now apply in_map.
Qed.

Lemma map_ok_empty {V : Type} n : map_ok n (@empty V).
Proof. split; [apply wf_empty | intros k []]. Qed.

Lemma map_ok_create {V : Type} n (v : V) m :
  map_ok n m -> map_ok (n + 1) (set n v m).
Proof.
  intros [Hwf Hlt]. split; [now apply wf_set|].
  intros k Hin. apply In_keys_set in Hin. destruct Hin as [->|Hin].
  - lia.
  - apply Hlt in Hin. lia.
Qed.

Lemma map_ok_update {V : Type} n k (v v0 : V) m :
  map_ok n m -> get k m = Some v0 -> map_ok n (set k v m).
Proof.
  intros [Hwf Hlt] Hget. split; [now apply wf_set|].
  intros k' Hin. rewrite keys_set_present in Hin; auto.
  eapply get_Some_keys; eauto.
Qed.

Lemma map_ok_filter {V : Type} n (f : Z * V -> bool) m :
  map_ok n m -> map_ok n (filter f m).
Proof.
  intros [Hwf Hlt]. split; [now apply wf_filter|].
  intros k Hin. apply Hlt. eapply keys_filter_incl; eauto.
Qed.

Lemma map_ok_remove {V : Type} n k (m : JsMap.t V) :
  map_ok n m -> map_ok n (remove k m).
Proof. apply map_ok_filter. Qed.

Lemma map_ok_map {V : Type} n (g : V -> V) (m : JsMap.t V) :
  map_ok n m -> map_ok n (map (fun e => (fst e, g (snd e))) m).
Proof.
  unfold map_ok, wf, keys. rewrite map_map. simpl. auto.
Qed.

Create HintDb store.
#[local] Hint Resolve map_ok_create map_ok_remove map_ok_map map_ok_empty
  : store.

Ltac store_split :=
  unfold store_ok in *; simpl in *;
  repeat match goal with
         | H : _ /\ _ |- _ => destruct H
         end;
  repeat match goal with
         | |- _ /\ _ => split
         end.

Lemma constructor_ok now : store_ok (Mem.constructor now).
Proof.
  unfold store_ok. simpl. repeat split; try apply wf_empty;
    try (intros ? Hin; simpl in Hin; contradiction).
  - repeat constructor. simpl. tauto.
  - intros ? [<-|[]]. reflexivity.
Qed.

(** Every writing operation keeps the store in order. *)
Lemma memWrite_ok op s : store_ok s -> store_ok (memWrite op s).
Proof.
  intros Hok.
  destruct op; unfold memWrite, exec;
    try (unfold Mem.createUser, Mem.createEvent, Mem.createEventRegistration,
           Mem.createContestResult, Mem.createForumPost,
           Mem.createForumReply, Mem.createResource,
           Mem.deleteEvent, Mem.deleteEventRegistration,
           Mem.deleteContestResult, Mem.deleteForumReply, Mem.deleteResource;
         store_split; auto with store; fail).
  - (* updateUser *)
    unfold Mem.updateUser.
    destruct (get id (Mem.users s)) eqn:E; [|exact Hok].
    store_split; eauto using map_ok_update.
  - unfold Mem.updateEvent.
    destruct (get id (Mem.events s)) eqn:E; [|exact Hok].
    store_split; eauto using map_ok_update.
  - unfold Mem.updateContestResult.
    destruct (get id (Mem.contestResults s)) eqn:E; [|exact Hok].
    store_split; eauto using map_ok_update.
  - (* updateLeaderboardEntry *)
    unfold Mem.updateLeaderboardEntry, bind, Mem.getUser, gets, throw.
    destruct (get userId (Mem.users s)); [|exact Hok].
    destruct (num_or_null score); simpl;
      unfold modify, ret, Mem.getLeaderboard, gets; simpl;
      store_split; auto with store.
  - unfold Mem.updateForumPost.
    destruct (get id (Mem.forumPosts s)) eqn:E; [|exact Hok].
    store_split; eauto using map_ok_update.
  - (* deleteForumPost *)
    unfold Mem.deleteForumPost. simpl.
    rewrite MemFacts.deleteRepliesOf_filter by apply Hok.
    store_split; auto using map_ok_filter with store.
  - unfold Mem.incrementForumPostViews.
    destruct (get id (Mem.forumPosts s)) eqn:E; [|exact Hok].
    store_split; eauto using map_ok_update.
  - unfold Mem.updateForumReply.
    destruct (get id (Mem.forumReplies s)) eqn:E; [|exact Hok].
    store_split; eauto using map_ok_update.
  - unfold Mem.upvoteForumReply.
    destruct (get id (Mem.forumReplies s)) eqn:E; [|exact Hok].
    store_split; eauto using map_ok_update.
  - (* markAsBestAnswer *)
    assert (Hwf : wf (Mem.forumReplies s)) by apply Hok.
    destruct (get replyId (Mem.forumReplies s)) as [reply|] eqn:E.
    + rewrite (ForumFacts.markAsBestAnswer_found postId replyId s reply)
        by assumption.
      store_split; try assumption.
      eapply map_ok_update; [now apply map_ok_map|].
      rewrite get_map_values, E. reflexivity.
    + rewrite (ForumFacts.markAsBestAnswer_missing postId replyId s)
        by assumption.
      store_split; auto with store.
  - unfold Mem.updateResource.
    destruct (get id (Mem.resources s)) eqn:E; [|exact Hok].
    store_split; eauto using map_ok_update.
Qed.

End StoreFacts.

(** X4. In every store that the writing operations of [MemStorage] build from
    the freshly constructed one, each map holds a key once and below the
    counter of its kind: no operation reuses or overtakes an id. *)
Theorem reachable_store_ok :
  forall (now : Z) (ops : list MemWrite),
    store_ok (memWrites ops (Mem.constructor now)).
Proof.
  intros now ops. unfold memWrites.
  generalize (StoreFacts.constructor_ok now).
  generalize (Mem.constructor now).
  induction ops as [|op ops IH]; intros s Hok; simpl; [assumption|].
  apply IH. now apply StoreFacts.memWrite_ok.
Qed.

(* ===================================================================== *)
(** * Creating, updating and deleting records *)
(* ===================================================================== *)

Module CrudFacts.
Import JsMap JsMapFacts.

Lemma set_fresh {V : Type} n (v : V) m :
  map_ok n m -> set n v m = m ++ [(n, v)].
Proof.
  intros [_ Hlt]. apply set_absent. intros Hin. apply Hlt in Hin. lia.
Qed.

Lemma get_fresh {V : Type} n (m : JsMap.t V) : map_ok n m -> get n m = None.
Proof.
  intros [_ Hlt]. apply get_None_keys. intros Hin. apply Hlt in Hin. lia.
Qed.

Lemma remove_remove {V : Type} k (m : JsMap.t V) :
  remove k (remove k m) = remove k m.
Proof.
  unfold remove. induction m as [|[k' v] m IH]; simpl; [reflexivity|].
  destruct (negb (k' =? k)) eqn:E; simpl; [rewrite E|]; now rewrite IH.
Qed.

Lemma has_remove {V : Type} k (m : JsMap.t V) : has k (remove k m) = false.
Proof. unfold has. now rewrite get_remove_same. Qed.

Lemma has_true_iff {V : Type} k (m : JsMap.t V) :
  has k m = true <-> exists v, get k m = Some v.
Proof.
  unfold has. destruct (get k m) as [v|].
  - split; [intros _; now exists v | reflexivity].
  - split; [discriminate | intros [v H]; discriminate].
Qed.

End CrudFacts.

(** X5. In a store in order, each of the seven creating operations files the
    new record under the id its counter holds, an id no stored record has;
    it appends the record to the map, leaves the records that were there as
    they were, and moves the counter on by one. *)
Theorem create_files_under_fresh_id :
  forall (s : Mem.MemStorage) (now : Z),
    store_ok s ->
    (forall insertUser,
       let '(c, s') := Mem.createUser insertUser now s in
       exists user,
         c = Resolved user /\ user_id user = Mem.userId s /\
         JsMap.get (Mem.userId s) (Mem.users s) = None /\
         Mem.users s' = Mem.users s ++ [(Mem.userId s, user)] /\
         Mem.userId s' = Mem.userId s + 1) /\
    (forall insertEvent,
       let '(c, s') := Mem.createEvent insertEvent now s in
       exists event,
         c = Resolved event /\ event_id event = Mem.eventId s /\
         JsMap.get (Mem.eventId s) (Mem.events s) = None /\
         Mem.events s' = Mem.events s ++ [(Mem.eventId s, event)] /\
         Mem.eventId s' = Mem.eventId s + 1) /\
    (forall insertRegistration,
       let '(c, s') := Mem.createEventRegistration insertRegistration now s in
       exists registration,
         c = Resolved registration /\
         reg_id registration = Mem.eventRegistrationId s /\
         JsMap.get (Mem.eventRegistrationId s) (Mem.eventRegistrations s)
           = None /\
         Mem.eventRegistrations s'
           = Mem.eventRegistrations s
             ++ [(Mem.eventRegistrationId s, registration)] /\
         Mem.eventRegistrationId s' = Mem.eventRegistrationId s + 1) /\
    (forall insertResult,
       let '(c, s') := Mem.createContestResult insertResult now s in
       exists result,
         c = Resolved result /\ cr_id result = Mem.contestResultId s /\
         JsMap.get (Mem.contestResultId s) (Mem.contestResults s) = None /\
         Mem.contestResults s'
           = Mem.contestResults s ++ [(Mem.contestResultId s, result)] /\
         Mem.contestResultId s' = Mem.contestResultId s + 1) /\
    (forall insertPost,
       let '(c, s') := Mem.createForumPost insertPost now s in
       exists post,
         c = Resolved post /\ post_id post = Mem.forumPostId s /\
         JsMap.get (Mem.forumPostId s) (Mem.forumPosts s) = None /\
         Mem.forumPosts s' = Mem.forumPosts s ++ [(Mem.forumPostId s, post)] /\
         Mem.forumPostId s' = Mem.forumPostId s + 1) /\
    (forall insertReply,
       let '(c, s') := Mem.createForumReply insertReply now s in
       exists reply,
         c = Resolved reply /\ reply_id reply = Mem.forumReplyId s /\
         JsMap.get (Mem.forumReplyId s) (Mem.forumReplies s) = None /\
         Mem.forumReplies s'
           = Mem.forumReplies s ++ [(Mem.forumReplyId s, reply)] /\
         Mem.forumReplyId s' = Mem.forumReplyId s + 1) /\
    (forall insertResource,
       let '(c, s') := Mem.createResource insertResource now s in
       exists resource,
         c = Resolved resource /\ res_id resource = Mem.resourceId s /\
         JsMap.get (Mem.resourceId s) (Mem.resources s) = None /\
         Mem.resources s' = Mem.resources s ++ [(Mem.resourceId s, resource)] /\
         Mem.resourceId s' = Mem.resourceId s + 1).
Proof.
  intros s now (Hu & He & Hg & Hc & Hp & Hr & Hs).
  repeat split; intros ins; simpl; eexists;
    (split; [reflexivity|]); (split; [reflexivity|]);
    (split; [now apply CrudFacts.get_fresh|]);
    (split; [now apply CrudFacts.set_fresh | reflexivity]).
Qed.

(** A post created in the club of the admin and alice gets the id 1. *)
Lemma create_files_under_fresh_id_witness :
  let '(c, s') :=
    Mem.createForumPost (mkInsertForumPost "DP" "how?" 2 None) 10
      clubScenario in
  exists post,
    c = Resolved post /\ post_id post = Mem.forumPostId clubScenario /\
    JsMap.get (Mem.forumPostId clubScenario) (Mem.forumPosts clubScenario)
      = None /\
    Mem.forumPosts s'
      = Mem.forumPosts clubScenario
        ++ [(Mem.forumPostId clubScenario, post)] /\
    Mem.forumPostId s' = Mem.forumPostId clubScenario + 1.
Proof.
  exact (proj1 (proj2 (proj2 (proj2 (proj2
           (create_files_under_fresh_id clubScenario 10
              (StoreFacts.memWrite_ok (WCreateUser aliceForm 5) _
                 (StoreFacts.constructor_ok 0)))))))
           (mkInsertForumPost "DP" "how?" 2 None)).
Defined.

(** X6. Deleting an event, a registration, a contest result, a reply or a
    resource answers whether the id was stored, leaves no record under the
    id and every other record as it was; deleting again answers [false] and
    changes nothing. Deleting an event removes nothing but the event: its
    registrations and contest results stay. *)
Theorem delete_removes_one_record :
  forall (id : Z) (s : Mem.MemStorage),
    (let '(c, s') := Mem.deleteEvent id s in
     c = Resolved (JsMap.has id (Mem.events s)) /\
     JsMap.get id (Mem.events s') = None /\
     (forall k, k <> id ->
        JsMap.get k (Mem.events s') = JsMap.get k (Mem.events s)) /\
     Mem.eventRegistrations s' = Mem.eventRegistrations s /\
     Mem.contestResults s' = Mem.contestResults s /\
     Mem.deleteEvent id s' = (Resolved false, s')) /\
    (let '(c, s') := Mem.deleteEventRegistration id s in
     c = Resolved (JsMap.has id (Mem.eventRegistrations s)) /\
     JsMap.get id (Mem.eventRegistrations s') = None /\
     (forall k, k <> id ->
        JsMap.get k (Mem.eventRegistrations s')
        = JsMap.get k (Mem.eventRegistrations s)) /\
     Mem.deleteEventRegistration id s' = (Resolved false, s')) /\
    (let '(c, s') := Mem.deleteContestResult id s in
     c = Resolved (JsMap.has id (Mem.contestResults s)) /\
     JsMap.get id (Mem.contestResults s') = None /\
     (forall k, k <> id ->
        JsMap.get k (Mem.contestResults s')
        = JsMap.get k (Mem.contestResults s)) /\
     Mem.deleteContestResult id s' = (Resolved false, s')) /\
    (let '(c, s') := Mem.deleteForumReply id s in
     c = Resolved (JsMap.has id (Mem.forumReplies s)) /\
     JsMap.get id (Mem.forumReplies s') = None /\
     (forall k, k <> id ->
        JsMap.get k (Mem.forumReplies s')
        = JsMap.get k (Mem.forumReplies s)) /\
     Mem.deleteForumReply id s' = (Resolved false, s')) /\
    (let '(c, s') := Mem.deleteResource id s in
     c = Resolved (JsMap.has id (Mem.resources s)) /\
     JsMap.get id (Mem.resources s') = None /\
     (forall k, k <> id ->
        JsMap.get k (Mem.resources s') = JsMap.get k (Mem.resources s)) /\
     Mem.deleteResource id s' = (Resolved false, s')).
Proof.
  intros id s. destruct s. 
  unfold Mem.deleteEvent, Mem.deleteEventRegistration,
    Mem.deleteContestResult, Mem.deleteForumReply, Mem.deleteResource,
    JsMap.delete.
  simpl.
  repeat split;
    try apply JsMapFacts.get_remove_same;
    try (intros k Hk; apply JsMapFacts.get_remove_other; congruence);
    unfold Mem.set_events, Mem.set_eventRegistrations,
      Mem.set_contestResults, Mem.set_forumReplies, Mem.set_resources;
    simpl;
    now rewrite CrudFacts.has_remove, CrudFacts.remove_remove.
Qed.

Module UpdateFacts.
Import JsMap JsMapFacts.

Lemma set_updates_in_place {V : Type} id (merged : V -> V) (m : JsMap.t V) v :
  get id m = Some v ->
  updates_in_place id merged m (set id (merged v) m) (Some (merged v)).
Proof.
  intros Hget. unfold updates_in_place. rewrite Hget. simpl.
  repeat split.
  - apply keys_set_present. eapply StoreFacts.get_Some_keys; eauto.
  - apply get_set_same.
  - intros k Hk. now apply get_set_other.
Qed.

Lemma none_updates_in_place {V : Type} id (merged : V -> V) (m : JsMap.t V) :
  get id m = None -> updates_in_place id merged m m None.
Proof.
  intros Hget. unfold updates_in_place. rewrite Hget. simpl. auto.
Qed.

End UpdateFacts.

(** X7. The six updating operations never add, remove or move a record: for a
    stored id they put the merge of the record with the patch in its place
    and answer with it, for an id that is not stored they answer
    [undefined] and leave the store as it was. *)
Theorem update_replaces_in_place :
  forall (id now : Z) (s : Mem.MemStorage),
    (forall userData,
       exists answer s',
         Mem.updateUser id userData s = (Resolved answer, s') /\
         updates_in_place id (fun u => Mem.mergeUser u userData)
           (Mem.users s) (Mem.users s') answer /\
         (answer = None -> s' = s)) /\
    (forall eventData,
       exists answer s',
         Mem.updateEvent id eventData s = (Resolved answer, s') /\
         updates_in_place id (fun e => Mem.mergeEvent e eventData)
           (Mem.events s) (Mem.events s') answer /\
         (answer = None -> s' = s)) /\
    (forall resultData,
       exists answer s',
         Mem.updateContestResult id resultData s = (Resolved answer, s') /\
         updates_in_place id (fun r => Mem.mergeContestResult r resultData)
           (Mem.contestResults s) (Mem.contestResults s') answer /\
         (answer = None -> s' = s)) /\
    (forall postData,
       exists answer s',
         Mem.updateForumPost id postData now s = (Resolved answer, s') /\
         updates_in_place id (fun p => Mem.mergePost p postData now)
           (Mem.forumPosts s) (Mem.forumPosts s') answer /\
         (answer = None -> s' = s)) /\
    (forall replyData,
       exists answer s',
         Mem.updateForumReply id replyData now s = (Resolved answer, s') /\
         updates_in_place id (fun r => Mem.mergeReply r replyData now)
           (Mem.forumReplies s) (Mem.forumReplies s') answer /\
         (answer = None -> s' = s)) /\
    (forall resourceData,
       exists answer s',
         Mem.updateResource id resourceData now s = (Resolved answer, s') /\
         updates_in_place id (fun r => Mem.mergeResource r resourceData now)
           (Mem.resources s) (Mem.resources s') answer /\
         (answer = None -> s' = s)).
Proof.
  intros id now s.
  repeat split; intros patch;
    unfold Mem.updateUser, Mem.updateEvent, Mem.updateContestResult,
      Mem.updateForumPost, Mem.updateForumReply, Mem.updateResource;
    match goal with
    | |- context [JsMap.get id ?m] => destruct (JsMap.get id m) eqn:E
    end;
    do 2 eexists; (split; [reflexivity|]); simpl;
    (split; [|try discriminate; reflexivity]);
    first [ now apply UpdateFacts.none_updates_in_place
          | match goal with
            | |- updates_in_place _ ?f _ _ _ =>
                now apply (UpdateFacts.set_updates_in_place id f)
            end ].
Qed.

(* ===================================================================== *)
(** * Upvotes and views *)
(* ===================================================================== *)

Module CounterFacts.
Import JsMap JsMapFacts.



End CounterFacts.





(* ===================================================================== *)
(** * What the handlers answer *)
(* ===================================================================== *)

Module HandlerFacts.
Import JsMap JsMapFacts.

Lemma find_registration_None E U (s : Mem.MemStorage) :
  find (fun reg => (reg_eventId reg =? E) && (reg_userId reg =? U))
       (values (Mem.eventRegistrations s)) = None <->
  ~ In (E, U) (registrationPairs s).
Proof.
  unfold registrationPairs. split.
  - intros Hfind Hin. apply in_map_iff in Hin.
    destruct Hin as [reg [Hpair Hin]]. apply (find_none _ _ Hfind) in Hin.
    injection Hpair as H1 H2. rewrite H1, H2, !Z.eqb_refl in Hin.
    discriminate.
  - intros Hnin. destruct (find _ _) as [reg|] eqn:E'; [|reflexivity].
    exfalso. apply find_some in E'. destruct E' as [Hin Heq].
    apply andb_true_iff in Heq. destruct Heq as [H1 H2].
    apply Z.eqb_eq in H1. apply Z.eqb_eq in H2. apply Hnin.
    apply in_map_iff. exists reg. split; [now rewrite H1, H2 | assumption].
Qed.

Lemma collectReplies_reads posts : forall acc s,
  exists replies, Routes.collectReplies posts acc s = (Resolved replies, s).
Proof.
  induction posts as [|p posts IH]; intros acc s; simpl.
  - eexists. reflexivity.
  - unfold bind, Mem.getForumReplies, gets. apply IH.
Qed.

Lemma clubScenario_ok : store_ok clubScenario.
Proof.
  exact (StoreFacts.memWrite_ok (WCreateUser aliceForm 5) _
           (StoreFacts.constructor_ok 0)).
Qed.

Lemma clubWithContest_ok : store_ok clubWithContest.
Proof.
  exact (StoreFacts.memWrite_ok
           (WCreateEvent
              (mkInsertEvent "Weekly contest" "Five problems" "contest" 1000
                 120 "Lab 2" 1) 10) _ clubScenario_ok).
Qed.

Lemma forumScenario_ok : store_ok forumScenario.
Proof.
  exact (StoreFacts.memWrite_ok
           (WCreateForumReply (mkInsertForumReply 2 "use a heap" 1) 50) _
        (StoreFacts.memWrite_ok
           (WCreateForumPost (mkInsertForumPost "Top k" "how?" 1 None) 40) _
        (StoreFacts.memWrite_ok
           (WCreateForumReply (mkInsertForumReply 1 "memoise it" 1) 30) _
        (StoreFacts.memWrite_ok
           (WCreateForumReply (mkInsertForumReply 1 "try recursion" 1) 20) _
        (StoreFacts.memWrite_ok
           (WCreateForumPost (mkInsertForumPost "DP" "how?" 1 None) 10) _
           (StoreFacts.constructor_ok 0)))))).
Qed.

End HandlerFacts.

(** X10. [POST /api/events/:id/register] answers 201 exactly when the caller is
    logged in, the id is a number, the event is stored and the caller is not
    yet registered for it; it then appends one registration, of the caller
    for that event. In every other case the store stays as it was. *)
Theorem registration_succeeds_exactly_when :
  forall (req : Routes.Request unit) (now : Z) (s : Mem.MemStorage),
    store_ok s ->
    exists resp s',
      Routes.postEventRegister req now s = (Resolved resp, s') /\
      (Routes.status resp = 201 <->
       exists user E event,
         Routes.req_user req = Some user /\
         Routes.req_params_id req = Some E /\
         JsMap.get E (Mem.events s) = Some event /\
         ~ In (E, user_id user) (registrationPairs s)) /\
      (Routes.status resp = 201 ->
       exists user E,
         Routes.req_user req = Some user /\
         Routes.req_params_id req = Some E /\
         Mem.eventRegistrations s'
         = Mem.eventRegistrations s
           ++ [(Mem.eventRegistrationId s,
                mkEventRegistration (Mem.eventRegistrationId s) E
                  (user_id user) now)]) /\
      (Routes.status resp <> 201 -> s' = s).
Proof.
  intros req now s Hok. unfold Routes.postEventRegister.
  destruct (Routes.req_user req) as [user|] eqn:Hu.
  2:{ do 2 eexists. split; [reflexivity|]. simpl.
      split; [split; [discriminate | intros (? & ? & ? & ? & _); discriminate]|].
      split; [discriminate | reflexivity]. }
  destruct (Routes.req_params_id req) as [E|] eqn:Hid.
  2:{ do 2 eexists. split; [reflexivity|]. simpl.
      split; [split; [discriminate
                     | intros (? & ? & ? & _ & ? & _); discriminate]|].
      split; [discriminate | reflexivity]. }
  unfold try_catch, bind, Mem.getEvent, Mem.getEventRegistration, gets, ret.
  destruct (JsMap.get E (Mem.events s)) as [event|] eqn:He.
  2:{ do 2 eexists. split; [reflexivity|]. simpl.
      split; [split; [discriminate|]|split; [discriminate | reflexivity]].
      intros (u & E' & ev & _ & HE & Hev & _). congruence. }
  destruct (find _ _) as [reg|] eqn:Hfind.
  - do 2 eexists. split; [reflexivity|]. simpl.
    split; [split; [discriminate|]|split; [discriminate | reflexivity]].
    intros (u & E' & ev & Hu' & HE & _ & Hnin).
    injection Hu' as <-. injection HE as <-.
    apply (proj2 (HandlerFacts.find_registration_None _ _ s)) in Hnin.
    congruence.
  - do 2 eexists. split; [reflexivity|]. simpl.
    split; [split; [intros _|reflexivity]|split; [intros _|congruence]].
    + exists user, E, event. split; [reflexivity|]. split; [reflexivity|].
      split; [exact He|].
      exact (proj1 (HandlerFacts.find_registration_None E (user_id user) s)
               Hfind).
    + exists user, E. repeat split.
      apply CrudFacts.set_fresh. apply Hok.
Qed.

(** Alice registers for the contest. *)
Lemma registration_succeeds_exactly_when_witness :
  exists resp s',
    Routes.postEventRegister (Routes.mkRequest (Some alice) (Some 1) None) 20
      clubWithContest = (Resolved resp, s') /\
    (Routes.status resp <> 201 -> s' = clubWithContest).
Proof.
  destruct (registration_succeeds_exactly_when
              (Routes.mkRequest (Some alice) (Some 1) None) 20
              clubWithContest HandlerFacts.clubWithContest_ok)
    as (resp & s' & Heq & _ & _ & Hrest).
  exists resp, s'. split; assumption.
Defined.

(** X11. Contest results are for the admin to file.
    [POST /api/events/:id/results] answers 401 and leaves the store as it
    was unless the caller is logged in with the role "admin". For an admin,
    a stored event and a valid body it answers 201 and stores the result
    under the event of the URL, whatever event the body names. *)
Theorem results_are_filed_by_admins_only :
  (forall (req : Routes.Request InsertContestResult) (now : Z)
          (s : Mem.MemStorage),
     (forall user, Routes.req_user req = Some user ->
                   user_role user <> "admin") ->
     Routes.postEventResults req now s
     = (Resolved (Routes.mkResponse 401 (Routes.Message "Unauthorized")), s)) /\
  (forall (req : Routes.Request InsertContestResult) (now : Z)
          (s : Mem.MemStorage) (user : User) (E : Z) (event : Event)
          (resultData : InsertContestResult),
     Routes.req_user req = Some user ->
     user_role user = "admin" ->
     Routes.req_params_id req = Some E ->
     JsMap.get E (Mem.events s) = Some event ->
     Routes.req_body req = Some resultData ->
     exists result s',
       Routes.postEventResults req now s
       = (Resolved (Routes.mkResponse 201 (Routes.JsonContestResult result)),
          s') /\
       cr_eventId result = E /\
       cr_userId result = ic_userId resultData /\
       cr_score result = ic_score resultData /\
       JsMap.get (cr_id result) (Mem.contestResults s') = Some result).
Proof.
  split.
  - intros req now s Hrole. unfold Routes.postEventResults.
    destruct (Routes.req_user req) as [user|]; [|reflexivity].
    specialize (Hrole user eq_refl).
    destruct (String.eqb (user_role user) "admin") eqn:E; [|reflexivity].
    apply String.eqb_eq in E. contradiction.
  - intros req now s user E event resultData Hu Hrole Hid He Hbody.
    unfold Routes.postEventResults. rewrite Hu, Hrole, Hid, Hbody. simpl.
    unfold try_catch, bind, Mem.getEvent, gets, ret. rewrite He. simpl.
    do 2 eexists. split; [reflexivity|]. simpl.
    repeat split. apply JsMapFacts.get_set_same.
Qed.

(** The admin files a result of alice for the contest; the body names
    event 0, the URL event 1. *)
Lemma results_are_filed_by_admins_only_witness :
  Routes.postEventResults
    (Routes.mkRequest (Some alice) (Some 1)
       (Some (mkInsertContestResult 0 2 None 60))) 40 clubWithContest
  = (Resolved (Routes.mkResponse 401 (Routes.Message "Unauthorized")),
     clubWithContest) /\
  exists result s',
    Routes.postEventResults
      (Routes.mkRequest (Some (Mem.adminUser 1 0)) (Some 1)
         (Some (mkInsertContestResult 0 2 None 60))) 40 clubWithContest
    = (Resolved (Routes.mkResponse 201 (Routes.JsonContestResult result)),
       s') /\
    cr_eventId result = 1.
Proof.
  split.
  - apply (proj1 results_are_filed_by_admins_only).
    intros user [= <-]. discriminate.
  - destruct (proj2 results_are_filed_by_admins_only
                (Routes.mkRequest (Some (Mem.adminUser 1 0)) (Some 1)
                   (Some (mkInsertContestResult 0 2 None 60))) 40
                clubWithContest (Mem.adminUser 1 0) 1
                (mkEvent 1 "Weekly contest" "Five problems" "contest" 1000
                   120 "Lab 2" 1 10)
                (mkInsertContestResult 0 2 None 60)
                eq_refl eq_refl eq_refl eq_refl eq_refl)
      as (result & s' & Heq & HE & _).
    exists result, s'. split; assumption.
Defined.

Module ServeFacts.
Import JsMap JsMapFacts.

Ltac unchanged :=
  do 2 eexists; (split; [reflexivity|]); simpl;
  split; [intros _; reflexivity|];
  split; [intros _ _; reflexivity | left; reflexivity].

Ltac written_by op :=
  split; [intros [? ?]; congruence|];
  split; [try discriminate | right; exists op].

Ltac written op :=
  do 2 eexists; (split; [reflexivity|]); simpl;
  written_by op; split; reflexivity.

(** What a handler leaves of the store: the store as it was, or what one
    writing operation of the storage makes of it; and it answers. *)
Lemma serve_writes call s :
  store_ok s ->
  exists status s',
    serve call s = (Resolved status, s') /\
    ((status <> 200 /\ status <> 201 -> s' = s) /\
     (methodOf call = Routes.GET ->
      (forall req, call <> CallGetForumById req) -> s' = s) /\
     (s' = s \/ exists op, s' = memWrite op s /\ attaches s op = true)).
Proof.
  intros Hok.
  destruct call as [|req|req now|req now|req now|random| |req|req now|req now
                    |req|req| |req|req now| ]; unfold serve, amap.
  - unchanged.
  - unfold Routes.getEventById.
    destruct (Routes.req_params_id req) as [E|]; [|unchanged].
    unfold bind, Mem.getEvent, gets, ret.
    destruct (get E (Mem.events s)); unchanged.
  - unfold Routes.postEvents.
    destruct (Routes.req_user req) as [user|]; [|unchanged].
    destruct (Routes.req_body req) as [data|]; [|unchanged].
    written (WCreateEvent
               (mkInsertEvent (ie_title data) (ie_description data)
                  (ie_eventType data) (ie_date data) (ie_duration data)
                  (ie_location data) (user_id user)) now).
  - unfold Routes.postEventRegister.
    destruct (Routes.req_user req) as [user|]; [|unchanged].
    destruct (Routes.req_params_id req) as [E|]; [|unchanged].
    unfold try_catch, bind, Mem.getEvent, Mem.getEventRegistration, gets, ret.
    destruct (get E (Mem.events s)); [|unchanged].
    destruct (find _ _); [unchanged|].
    written (WCreateEventRegistration
               (mkInsertEventRegistration E (user_id user)) now).
  - unfold Routes.postEventResults.
    destruct (Routes.req_user req) as [user|]; [|unchanged].
    destruct (negb _); [unchanged|].
    destruct (Routes.req_params_id req) as [E|]; [|unchanged].
    unfold try_catch, bind, Mem.getEvent, gets, ret.
    destruct (get E (Mem.events s)); [|unchanged].
    destruct (Routes.req_body req) as [data|]; [|unchanged].
    written (WCreateContestResult
               (mkInsertContestResult E (ic_userId data) (ic_position data)
                  (ic_score data)) now).
  - unchanged.
  - unchanged.
  - unfold Routes.getForumById.
    destruct (Routes.req_params_id req) as [P|]; [|unchanged].
    unfold try_catch, bind, Mem.getForumPost, Mem.incrementForumPostViews,
      Mem.getForumReplies, gets, ret.
    destruct (get P (Mem.forumPosts s)) eqn:E; [|unchanged].
    repeat (rewrite E; cbv beta iota).
    do 2 eexists. (split; [reflexivity|]). simpl.
    written_by (WIncrementForumPostViews P).
    { intros _ Hne. now contradiction (Hne req). }
    unfold memWrite, exec, Mem.incrementForumPostViews. rewrite E.
    split; reflexivity.
  - unfold Routes.postForum.
    destruct (Routes.req_user req) as [user|]; [|unchanged].
    destruct (Routes.req_body req) as [data|]; [|unchanged].
    written (WCreateForumPost
               (mkInsertForumPost (ip_title data) (ip_content data)
                  (user_id user) (ip_tags data)) now).
  - unfold Routes.postForumReply.
    destruct (Routes.req_user req) as [user|]; [|unchanged].
    destruct (Routes.req_params_id req) as [P|]; [|unchanged].
    unfold try_catch, bind, Mem.getForumPost, gets, ret.
    destruct (get P (Mem.forumPosts s)) eqn:E; [|unchanged].
    destruct (Routes.req_body req) as [data|]; [|unchanged].
    do 2 eexists. (split; [reflexivity|]). simpl.
    written_by (WCreateForumReply
                  (mkInsertForumReply P (iy_content data) (user_id user)) now).
    split; [reflexivity|]. simpl. unfold has. now rewrite E.
  - unfold Routes.postUpvote.
    destruct (Routes.req_user req) as [user|]; [|unchanged].
    destruct (Routes.req_params_id req) as [R|]; [|unchanged].
    unfold try_catch, bind, Mem.getForumReply, Mem.upvoteForumReply, gets, ret.
    destruct (get R (Mem.forumReplies s)) eqn:E; [|unchanged].
    repeat (rewrite E; cbv beta iota).
    do 2 eexists. (split; [reflexivity|]). simpl.
    written_by (WUpvoteForumReply R).
    unfold memWrite, exec, Mem.upvoteForumReply. rewrite E.
    split; reflexivity.
  - unfold Routes.postBestAnswer.
    destruct (Routes.req_user req) as [user|]; [|unchanged].
    destruct (Routes.req_params_id req) as [R|]; [|unchanged].
    unfold try_catch, bind, Mem.getForumReply, Mem.getForumPost, gets, ret.
    destruct (get R (Mem.forumReplies s)) as [reply|] eqn:E; [|unchanged].
    destruct (get (reply_postId reply) (Mem.forumPosts s)); [|unchanged].
    destruct (_ && _); [unchanged|].
    assert (Hwf : wf (Mem.forumReplies s)) by apply Hok.
    rewrite (ForumFacts.markAsBestAnswer_found _ R s reply) by assumption.
    do 2 eexists. (split; [reflexivity|]). simpl.
    written_by (WMarkAsBestAnswer (reply_postId reply) R).
    unfold memWrite, exec.
    rewrite (ForumFacts.markAsBestAnswer_found _ R s reply) by assumption.
    split; reflexivity.
  - unchanged.
  - unfold Routes.getResourceById.
    destruct (Routes.req_params_id req) as [E|]; [|unchanged].
    unfold try_catch, bind, Mem.getResource, gets, ret.
    destruct (get E (Mem.resources s)); unchanged.
  - unfold Routes.postResources.
    destruct (Routes.req_user req) as [user|]; [|unchanged].
    destruct (Routes.req_body req) as [data|]; [|unchanged].
    written (WCreateResource
               (mkInsertResource (is_title data) (is_description data)
                  (is_content data) (is_resourceType data) (is_link data)
                  (user_id user)) now).
  - unfold Routes.getAllForumReplies, try_catch, bind, Mem.getAllForumPosts,
      gets.
    destruct (HandlerFacts.collectReplies_reads
                (jsSort (fun a b => post_createdAt b - post_createdAt a)
                   (values (Mem.forumPosts s))) [] s) as [replies Hr].
    cbv beta. rewrite Hr. unchanged.
Qed.

End ServeFacts.

Module AttachFacts.
Import JsMap JsMapFacts.

Lemma has_set_mono {V : Type} k k' (v : V) m :
  has k' m = true -> has k' (set k v m) = true.
Proof.
  unfold has. destruct (Z.eq_dec k k') as [->|Hne].
  - now rewrite get_set_same.
  - now rewrite get_set_other.
Qed.

Lemma In_values_filter {V : Type} (f : Z * V -> bool) (x : V) m :
  In x (values (filter f m)) -> In x (values m).
Proof.
  unfold values. rewrite !in_map_iff. intros [e [He Hin]].
  apply filter_In in Hin. exists e. tauto.
Qed.

Lemma get_In_values {V : Type} k (v : V) m :
  get k m = Some v -> In v (values m).
Proof.
  intros H. apply get_In in H. unfold values. apply in_map_iff.
  now exists (k, v).
Qed.

Lemma memWrite_attached op s :
  store_ok s -> replies_have_posts s -> attaches s op = true ->
  replies_have_posts (memWrite op s).
Proof.
  intros Hok Hinv Hop.
  assert (Hwf : wf (Mem.forumReplies s)) by apply Hok.
  unfold replies_have_posts in *.
  destruct op; unfold memWrite, exec.
  all: try (unfold Mem.createUser, Mem.updateUser, Mem.createEvent,
              Mem.updateEvent, Mem.deleteEvent, Mem.createEventRegistration,
              Mem.deleteEventRegistration, Mem.createContestResult,
              Mem.updateContestResult, Mem.deleteContestResult,
              Mem.createResource, Mem.updateResource, Mem.deleteResource;
            simpl;
            repeat match goal with
                   | |- context [match ?x with _ => _ end] => destruct x
                   end; simpl; exact Hinv).
  - (* updateLeaderboardEntry *)
    unfold Mem.updateLeaderboardEntry, bind, Mem.getUser, Mem.getLeaderboard,
      gets, throw, modify, ret.
    destruct (get userId (Mem.users s)); [|exact Hinv].
    destruct (num_or_null score); simpl; exact Hinv.
  - (* createForumPost *)
    simpl. intros r Hin. apply has_set_mono. auto.
  - (* updateForumPost *)
    unfold Mem.updateForumPost.
    destruct (get id (Mem.forumPosts s)); simpl; [|exact Hinv].
    intros r Hin. apply has_set_mono. auto.
  - (* deleteForumPost *)
    simpl. rewrite MemFacts.deleteRepliesOf_filter by assumption.
    intros r Hin. unfold values in Hin. apply in_map_iff in Hin.
    destruct Hin as [[k r'] [Hr Hin]]. simpl in Hr. subst r'.
    apply filter_In in Hin. destruct Hin as [Hin Hne]. simpl in Hne.
    apply negb_true_iff, Z.eqb_neq in Hne.
    unfold has. rewrite get_remove_other by congruence.
    apply Hinv. unfold values. apply in_map_iff. now exists (k, r).
  - (* incrementForumPostViews *)
    unfold Mem.incrementForumPostViews.
    destruct (get id (Mem.forumPosts s)); simpl; [|exact Hinv].
    intros r Hin. apply has_set_mono. auto.
  - (* createForumReply *)
    simpl. intros r Hin. apply RouteFacts.In_values_set in Hin.
    destruct Hin as [->|Hin]; [exact Hop | auto].
  - (* updateForumReply *)
    unfold Mem.updateForumReply.
    destruct (get id (Mem.forumReplies s)) as [reply|] eqn:E; simpl;
      [|exact Hinv].
    intros r Hin. apply RouteFacts.In_values_set in Hin.
    destruct Hin as [->|Hin]; [|auto].
    simpl in *. destruct (py_postId replyData); simpl; [exact Hop|].
    apply Hinv. eapply get_In_values; eauto.
  - (* upvoteForumReply *)
    unfold Mem.upvoteForumReply.
    destruct (get id (Mem.forumReplies s)) as [reply|] eqn:E; simpl;
      [|exact Hinv].
    intros r Hin. apply RouteFacts.In_values_set in Hin.
    destruct Hin as [->|Hin]; [|auto].
    simpl. apply Hinv. eapply get_In_values; eauto.
  - (* deleteForumReply *)
    simpl. intros r Hin. apply In_values_filter in Hin. auto.
  - (* markAsBestAnswer *)
    assert (Hreset : forall r,
      In r (values (map (fun e => (fst e, resetOne postId (snd e)))
                      (Mem.forumReplies s))) ->
      has (reply_postId r) (Mem.forumPosts s) = true).
    { intros r Hin. unfold values in Hin. rewrite map_map in Hin.
      apply in_map_iff in Hin. destruct Hin as [[k r'] [Hr Hin]].
      simpl in Hr. subst r. rewrite ForumFacts.resetOne_postId.
      apply Hinv. unfold values. apply in_map_iff. now exists (k, r'). }
    destruct (get replyId (Mem.forumReplies s)) as [reply|] eqn:E.
    + rewrite (ForumFacts.markAsBestAnswer_found _ _ s reply) by assumption.
      simpl. intros r Hin. apply RouteFacts.In_values_set in Hin.
      destruct Hin as [->|Hin]; [|auto].
      simpl. apply Hinv. eapply get_In_values; eauto.
    + rewrite (ForumFacts.markAsBestAnswer_missing _ _ s) by assumption.
      simpl. exact Hreset.
Qed.

Lemma serve_keeps call s :
  store_ok s /\ replies_have_posts s ->
  store_ok (exec (serve call) s) /\ replies_have_posts (exec (serve call) s).
Proof.
  intros [Hok Hinv]. unfold exec.
  destruct (ServeFacts.serve_writes call s Hok)
    as (status & s' & -> & _ & _ & [->|[op [-> Hop]]]); simpl.
  - now split.
  - split; [now apply StoreFacts.memWrite_ok | now apply memWrite_attached].
Qed.

Lemma serveAll_keeps calls : forall s,
  store_ok s /\ replies_have_posts s ->
  store_ok (serveAll calls s) /\ replies_have_posts (serveAll calls s).
Proof.
  induction calls as [|call calls IH]; intros s H; simpl; [exact H|].
  apply IH. now apply serve_keeps.
Qed.

Lemma forumScenario_attached : replies_have_posts forumScenario.
Proof.
  intros r Hin. simpl in Hin.
  destruct Hin as [<-|[<-|[<-|[]]]]; reflexivity.
Qed.

End AttachFacts.

(** X12. Every request to a handler is answered, none rejects. An answer that is
    neither 200 nor 201 leaves the store as it was, and so does every GET
    request other than [GET /api/forum/:id], which counts a view. *)
Theorem failed_requests_change_nothing :
  forall (call : Call) (s : Mem.MemStorage),
    store_ok s ->
    exists status s',
      serve call s = (Resolved status, s') /\
      (status <> 200 /\ status <> 201 -> s' = s) /\
      (methodOf call = Routes.GET ->
       (forall req, call <> CallGetForumById req) -> s' = s).
Proof.
  intros call s Hok.
  destruct (ServeFacts.serve_writes call s Hok)
    as (status & s' & Heq & Hfail & Hget & _).
  exists status, s'. repeat split; assumption.
Qed.

(** Alice upvotes a reply 9 that is not there. *)
Lemma failed_requests_change_nothing_witness :
  exists status,
    serve (CallPostUpvote (Routes.mkRequest (Some alice) (Some 9) None))
      forumScenario
    = (Resolved status, forumScenario).
Proof.
  destruct (failed_requests_change_nothing
              (CallPostUpvote (Routes.mkRequest (Some alice) (Some 9) None))
              forumScenario HandlerFacts.forumScenario_ok)
    as (status & s' & Heq & Hfail & _).
  exists status. rewrite Heq. f_equal. apply Hfail.
  vm_compute in Heq. injection Heq as <- _. split; discriminate.
Defined.

(** X13. A write of the storage keeps every reply with a stored post, unless it
    creates a reply for, or moves one to, a post that is not stored. In
    particular deleting a post leaves no reply of it behind. *)
Theorem writes_keep_replies_attached :
  forall (op : MemWrite) (s : Mem.MemStorage),
    store_ok s -> replies_have_posts s -> attaches s op = true ->
    replies_have_posts (memWrite op s).
Proof. exact AttachFacts.memWrite_attached. Qed.

(** Post 1 of the sample forum is deleted, with its replies 1 and 2. *)
Lemma writes_keep_replies_attached_witness :
  replies_have_posts (memWrite (WDeleteForumPost 1) forumScenario).
Proof.
  apply writes_keep_replies_attached.
  - exact HandlerFacts.forumScenario_ok.
  - exact AttachFacts.forumScenario_attached.
  - reflexivity.
Defined.

(** X14. Whatever requests the handlers serve, starting from the new store, the
    ids of the store stay distinct and below the counters, and every stored
    reply belongs to a stored post: [POST /api/forum/:id/reply] looks the
    post up before it stores the reply. *)
Theorem requests_keep_replies_attached :
  forall (now : Z) (calls : list Call),
    store_ok (serveAll calls (Mem.constructor now)) /\
    replies_have_posts (serveAll calls (Mem.constructor now)).
Proof.
  intros now calls. apply AttachFacts.serveAll_keeps. split.
  - apply StoreFacts.constructor_ok.
  - intros r [].
Qed.

Module DispatchFacts.

(** No path reaches the handler of [/api/forum/replies]: a path that
    matches its pattern matches [/api/forum/:id], which is registered
    before it. *)
Lemma never_all_replies method path id :
  Routes.dispatch method path <> Some (Routes.GetAllForumReplies, id).
Proof.
  unfold Routes.dispatch, Routes.registeredRoutes. intros H.
  destruct method;
    destruct path as [|a [|b [|c [|d [|e [|f rest]]]]]];
    cbn [Routes.dispatchIn Routes.matchPath Routes.sameMethod] in H;
    repeat match type of H with
           | context [if ?b then _ else _] => destruct b eqn:?
           end;
    try discriminate.
  all: match goal with
       | Hc : (?c =? "")%string = true |- _ =>
           apply String.eqb_eq in Hc; subst c
       end.
  all: match goal with
       | Hc : (lowerText "replies" =? lowerText "")%string = true |- _ =>
           discriminate Hc
       end.
Qed.

(** Every other endpoint has a path that reaches it. *)
Lemma others_reached endpoint :
  endpoint <> Routes.GetAllForumReplies ->
  exists method path id, Routes.dispatch method path = Some (endpoint, id).
Proof.
  intros Hne. destruct endpoint; try contradiction.
  - exists Routes.GET, ["api"; "events"]. eexists. reflexivity.
  - exists Routes.GET, ["api"; "events"; "1"]. eexists. reflexivity.
  - exists Routes.POST, ["api"; "events"]. eexists. reflexivity.
  - exists Routes.POST, ["api"; "events"; "1"; "register"]. eexists.
    reflexivity.
  - exists Routes.POST, ["api"; "events"; "1"; "results"]. eexists.
    reflexivity.
  - exists Routes.GET, ["api"; "leaderboard"]. eexists. reflexivity.
  - exists Routes.GET, ["api"; "forum"]. eexists. reflexivity.
  - exists Routes.GET, ["api"; "forum"; "1"]. eexists. reflexivity.
  - exists Routes.POST, ["api"; "forum"]. eexists. reflexivity.
  - exists Routes.POST, ["api"; "forum"; "1"; "reply"]. eexists. reflexivity.
  - exists Routes.POST, ["api"; "forum"; "reply"; "1"; "upvote"]. eexists.
    reflexivity.
  - exists Routes.POST, ["api"; "forum"; "reply"; "1"; "best-answer"].
    eexists. reflexivity.
  - exists Routes.GET, ["api"; "resources"]. eexists. reflexivity.
  - exists Routes.GET, ["api"; "resources"; "1"]. eexists. reflexivity.
  - exists Routes.POST, ["api"; "resources"]. eexists. reflexivity.
  - exists Routes.GET, ["api"; "users"]. eexists. reflexivity.
  - exists Routes.GET, ["api"; "users"; "1"]. eexists. reflexivity.
Qed.

End DispatchFacts.

(** X15. The route [GET /api/forum/replies] is dead. [GET /api/forum/:id] is
    registered before it and matches the same path with [id] = "replies",
    which [parseInt] does not read as a number: the request is answered
    400 "Invalid post ID" and the store is not touched. No request at all
    is dispatched to the handler of [/api/forum/replies], and it is the
    only handler of [registerRoutes] that no request reaches. *)
Theorem forum_replies_route_is_shadowed :
  Routes.dispatch Routes.GET ["api"; "forum"; "replies"]
  = Some (Routes.GetForumById, Some "replies") /\
  (forall (user : option User) (s : Mem.MemStorage),
     Routes.getForumById (Routes.requestFor user (Some "replies") None) s
     = (Resolved (Routes.mkAnswer 400 (Routes.Failed "Invalid post ID")), s)) /\
  (forall (endpoint : Routes.Endpoint),
     (exists method path id,
        Routes.dispatch method path = Some (endpoint, id)) <->
     endpoint <> Routes.GetAllForumReplies).
Proof.
  split; [reflexivity|]. split; [reflexivity|].
  intros endpoint. split.
  - intros (method & path & id & H) ->.
    exact (DispatchFacts.never_all_replies _ _ _ H).
  - apply DispatchFacts.others_reached.
Qed.

(** X16. [POST /api/forum/reply/:id/best-answer] answers 200 exactly when the
    caller is logged in, the id is a number, the reply and its post are
    stored, and the caller wrote the post or is an admin. It then answers
    with the reply marked, which is from then on the one best answer of its
    post. In every other case the store stays as it was. *)
Theorem best_answer_is_for_the_author_or_an_admin :
  forall (req : Routes.Request unit) (s : Mem.MemStorage),
    store_ok s ->
    exists resp s',
      Routes.postBestAnswer req s = (Resolved resp, s') /\
      (Routes.status resp = 200 <->
       exists user R reply post,
         Routes.req_user req = Some user /\
         Routes.req_params_id req = Some R /\
         JsMap.get R (Mem.forumReplies s) = Some reply /\
         JsMap.get (reply_postId reply) (Mem.forumPosts s) = Some post /\
         (post_userId post = user_id user \/ user_role user = "admin")) /\
      (Routes.status resp = 200 ->
       exists reply,
         Routes.json resp
         = Routes.JsonReply (reply_set_isBestAnswer true reply) /\
         bestAnswersOf (reply_postId reply) (Mem.forumReplies s')
         = [reply_set_isBestAnswer true reply]) /\
      (Routes.status resp <> 200 -> s' = s).
Proof.
  intros req s Hok. unfold Routes.postBestAnswer.
  assert (Hwf : JsMap.wf (Mem.forumReplies s)) by apply Hok.
  destruct (Routes.req_user req) as [user|] eqn:Hu.
  2:{ do 2 eexists. split; [reflexivity|]. simpl.
      split; [split; [discriminate | intros (? & ? & ? & ? & ? & _); discriminate]|].
      split; [discriminate | reflexivity]. }
  destruct (Routes.req_params_id req) as [R|] eqn:Hid.
  2:{ do 2 eexists. split; [reflexivity|]. simpl.
      split; [split; [discriminate
                     | intros (? & ? & ? & ? & _ & ? & _); discriminate]|].
      split; [discriminate | reflexivity]. }
  unfold try_catch, bind, Mem.getForumReply, Mem.getForumPost, gets, ret.
  destruct (JsMap.get R (Mem.forumReplies s)) as [reply|] eqn:Hr.
  2:{ do 2 eexists. split; [reflexivity|]. simpl.
      split; [split; [discriminate|]|split; [discriminate | reflexivity]].
      intros (u & R' & r & p & _ & HR & Hr' & _). congruence. }
  destruct (JsMap.get (reply_postId reply) (Mem.forumPosts s)) as [post|] eqn:Hp.
  2:{ do 2 eexists. split; [reflexivity|]. simpl.
      split; [split; [discriminate|]|split; [discriminate | reflexivity]].
      intros (u & R' & r & p & _ & HR & Hr' & Hp' & _). congruence. }
  destruct (negb (post_userId post =? user_id user)
            && negb (String.eqb (user_role user) "admin")) eqn:Hauth.
  - do 2 eexists. split; [reflexivity|]. simpl.
    split; [split; [discriminate|]|split; [discriminate | reflexivity]].
    intros (u & R' & r & p & Hu' & HR & Hr' & Hp' & Hwho).
    injection Hu' as <-. injection HR as <-.
    rewrite Hr in Hr'. injection Hr' as <-.
    rewrite Hp in Hp'. injection Hp' as <-.
    apply andb_true_iff in Hauth. destruct Hauth as [H1 H2].
    apply negb_true_iff in H1, H2.
    apply Z.eqb_neq in H1. apply String.eqb_neq in H2. tauto.
  - rewrite (ForumFacts.markAsBestAnswer_found _ R s reply) by assumption.
    do 2 eexists. split; [reflexivity|]. simpl.
    split; [split; [intros _|reflexivity]|split; [intros _|congruence]].
    + exists user, R, reply, post. repeat (split; [assumption || reflexivity|]).
      apply andb_false_iff in Hauth. destruct Hauth as [H|H];
        apply negb_false_iff in H.
      * left. now apply Z.eqb_eq.
      * right. now apply String.eqb_eq.
    + exists reply. split; [reflexivity|].
      now apply ForumFacts.bestAnswersOf_marked.
Qed.

(** Alice is neither the author of post 1 of the sample forum nor an
    admin: her request leaves the forum as it was. *)
Lemma best_answer_is_for_the_author_or_an_admin_witness :
  exists resp,
    Routes.postBestAnswer (Routes.mkRequest (Some alice) (Some 1) None)
      forumScenario
    = (Resolved resp, forumScenario).
Proof.
  destruct (best_answer_is_for_the_author_or_an_admin
              (Routes.mkRequest (Some alice) (Some 1) None) forumScenario
              HandlerFacts.forumScenario_ok)
    as (resp & s' & Heq & _ & _ & Hfail).
  exists resp. rewrite Heq. f_equal. apply Hfail.
  vm_compute in Heq. injection Heq as <- _. discriminate.
Defined.

(** X17. What a creating handler stores belongs to the caller. When
    [POST /api/events], [/api/forum], [/api/forum/:id/reply] or
    [/api/resources] answers 201, the record of the answer is in the store
    under its id and carries the id of the logged-in user, whatever user the
    body names; a reply also carries the post id of the URL, which is the id
    of a stored post. *)
Theorem created_records_belong_to_the_caller :
  (forall req now s event s',
     Routes.postEvents req now s
     = (Resolved (Routes.mkResponse 201 (Routes.JsonEvent event)), s') ->
     exists user,
       Routes.req_user req = Some user /\
       event_createdBy event = user_id user /\
       JsMap.get (event_id event) (Mem.events s') = Some event) /\
  (forall req now s post s',
     Routes.postForum req now s
     = (Resolved (Routes.mkAnswer 201 (Routes.Body post)), s') ->
     exists user,
       Routes.req_user req = Some user /\
       post_userId post = user_id user /\
       JsMap.get (post_id post) (Mem.forumPosts s') = Some post) /\
  (forall req now s reply s',
     Routes.postForumReply req now s
     = (Resolved (Routes.mkAnswer 201 (Routes.Body reply)), s') ->
     exists user,
       Routes.req_user req = Some user /\
       reply_userId reply = user_id user /\
       Routes.req_params_id req = Some (reply_postId reply) /\
       JsMap.has (reply_postId reply) (Mem.forumPosts s') = true /\
       JsMap.get (reply_id reply) (Mem.forumReplies s') = Some reply) /\
  (forall req now s resource s',
     Routes.postResources req now s
     = (Resolved (Routes.mkResponse 201 (Routes.JsonResource resource)), s') ->
     exists user,
       Routes.req_user req = Some user /\
       res_userId resource = user_id user /\
       JsMap.get (res_id resource) (Mem.resources s') = Some resource).
Proof.
  repeat split.
  - intros req now s event s'. unfold Routes.postEvents.
    destruct (Routes.req_user req) as [user|]; [|discriminate].
    destruct (Routes.req_body req) as [data|]; [|discriminate].
    simpl. unfold try_catch, bind, ret. simpl. intros [= <- <-].
    exists user. simpl. repeat split. apply JsMapFacts.get_set_same.
  - intros req now s post s'. unfold Routes.postForum.
    destruct (Routes.req_user req) as [user|]; [|discriminate].
    destruct (Routes.req_body req) as [data|]; [|discriminate].
    simpl. unfold try_catch, bind, ret. simpl. intros [= <- <-].
    exists user. simpl. repeat split. apply JsMapFacts.get_set_same.
  - intros req now s reply s'. unfold Routes.postForumReply.
    destruct (Routes.req_user req) as [user|]; [|discriminate].
    destruct (Routes.req_params_id req) as [P|]; [|discriminate].
    unfold try_catch, bind, Mem.getForumPost, gets, ret.
    destruct (JsMap.get P (Mem.forumPosts s)) eqn:E; [|discriminate].
    destruct (Routes.req_body req) as [data|]; [|discriminate].
    simpl. intros [= <- <-].
    exists user. simpl. repeat split.
    + unfold JsMap.has. now rewrite E.
    + apply JsMapFacts.get_set_same.
  - intros req now s resource s'. unfold Routes.postResources.
    destruct (Routes.req_user req) as [user|]; [|discriminate].
    destruct (Routes.req_body req) as [data|]; [|discriminate].
    simpl. unfold try_catch, bind, ret. simpl. intros [= <- <-].
    exists user. simpl. repeat split. apply JsMapFacts.get_set_same.
Qed.

(** Alice replies to post 1 with a body that names post 2 and user 1. *)
Lemma created_records_belong_to_the_caller_witness :
  exists user,
    Some alice = Some user /\
    2 = user_id user /\
    Some 1 = Some 1 /\
    JsMap.has 1
      (Mem.forumPosts
         (exec (Routes.postForumReply
                  (Routes.mkRequest (Some alice) (Some 1)
                     (Some (mkInsertForumReply 2 "sort first" 1))) 60)
               forumScenario)) = true /\
    JsMap.get 4
      (Mem.forumReplies
         (exec (Routes.postForumReply
                  (Routes.mkRequest (Some alice) (Some 1)
                     (Some (mkInsertForumReply 2 "sort first" 1))) 60)
               forumScenario))
    = Some (mkForumReply 4 1 "sort first" 2 0 60 60 false).
Proof.
  exact (proj1 (proj2 (proj2 created_records_belong_to_the_caller))
           (Routes.mkRequest (Some alice) (Some 1)
              (Some (mkInsertForumReply 2 "sort first" 1)))
           60 forumScenario (mkForumReply 4 1 "sort first" 2 0 60 60 false)
           _ eq_refl).
Defined.

(* ===================================================================== *)
(** * The ranking *)
(* ===================================================================== *)

Module RankFacts.
Import JsMap JsMapFacts.

Lemma getRandomTopProblem_In draw :
  In (Mem.getRandomTopProblem draw) Mem.problems.
Proof.
  unfold Mem.getRandomTopProblem. apply nth_In.
  apply Nat.mod_upper_bound. discriminate.
Qed.

(** Where a row of the in-memory leaderboard comes from. *)
Lemma rows_from users random row es : forall calls,
  In row (Mem.filterBoolean (Mem.leaderboardRows users random calls es)) ->
  exists k d user,
    In (k, d) es /\ get k users = Some user /\
    Mem.lb_id row = user_id user /\
    Mem.lb_username row = user_username user /\
    Mem.lb_score row = Mem.sd_totalScore d /\
    Mem.lb_contestCount row = Mem.sd_contestCount d /\
    In (Mem.lb_topProblem row) Mem.problems.
Proof.
  induction es as [|[k d] es IH]; intros calls Hin; simpl in Hin.
  - contradiction.
  - destruct (get k users) as [user|] eqn:E; simpl in Hin.
    + destruct Hin as [Hrow|Hin].
      * clear IH. subst row. exists k, d, user.
        cbn [Mem.lb_id Mem.lb_username Mem.lb_score Mem.lb_contestCount
             Mem.lb_topProblem].
        split; [now left|]. split; [assumption|].
        repeat (split; [reflexivity|]). apply getRandomTopProblem_In.
      * destruct (IH _ Hin) as (k' & d' & u' & H & Hrest).
        exists k', d', u'. split; [now right | exact Hrest].
    + destruct (IH _ Hin) as (k' & d' & u' & H & Hrest).
      exists k', d', u'. split; [now right | exact Hrest].
Qed.

Lemma gathered_Some U results d :
  gathered U results = Some d ->
  resultsOf U results <> [] /\
  Mem.sd_totalScore d = jsSum (map cr_score (resultsOf U results)) /\
  Mem.sd_contestCount d = Z.of_nat (List.length (resultsOf U results)).
Proof.
  unfold gathered. destruct (resultsOf U results) eqn:E; [discriminate|].
  intros [= <-]. simpl. repeat split. discriminate.
Qed.

(** Where a row of the relational leaderboard comes from. *)
Lemma groups_from results random row us : forall group,
  In row (Pg.leaderboardGroups results random group us) ->
  exists user,
    In user us /\
    Mem.lb_id row = user_id user /\
    Mem.lb_username row = user_username user /\
    resultsOf (user_id user) results <> [] /\
    Mem.lb_score row = scoreSum (resultsOf (user_id user) results) /\
    Mem.lb_contestCount row
    = distinctEvents (resultsOf (user_id user) results) /\
    In (Mem.lb_topProblem row) Pg.caseProblems.
Proof.
  induction us as [|u us IH]; intros group Hin;
    cbn [Pg.leaderboardGroups] in Hin.
  - contradiction.
  - assert (Hjoin : filter (fun cr => user_id u =? cr_userId cr) results
                    = resultsOf (user_id u) results).
    { unfold resultsOf. apply filter_ext. intros cr. apply Z.eqb_sym. }
    rewrite Hjoin in Hin.
    destruct (resultsOf (user_id u) results) as [|r rs] eqn:E.
    + destruct (IH _ Hin) as (u' & H & Hrest).
      exists u'. split; [now right | exact Hrest].
    + destruct Hin as [Hrow|Hin].
      * clear IH. subst row. exists u. rewrite E.
        cbn [Mem.lb_id Mem.lb_username Mem.lb_score Mem.lb_contestCount
             Mem.lb_topProblem].
        split; [now left|]. repeat (split; [reflexivity || discriminate|]).
        apply nth_In. apply Nat.mod_upper_bound. discriminate.
      * destruct (IH _ Hin) as (u' & H & Hrest).
        exists u'. split; [now right | exact Hrest].
Qed.

Lemma sortByScore_In row l : In row (Mem.sortByScore l) <-> In row l.
Proof. rewrite SortFacts.sortByScore_jsSort. apply SortFacts.jsSort_In. Qed.

Lemma sortByScore_descending l : descendingBy Mem.lb_score (Mem.sortByScore l).
Proof.
  rewrite SortFacts.sortByScore_jsSort. apply SortFacts.jsSort_descending.
Qed.



End RankFacts.

(** X18. The leaderboard of either backend is ranked: no row has a higher
    score than a row before it. Every row belongs to a stored user who has
    at least one contest result and names one of the listed problems as top
    problem. In memory the scores are added one after the other as doubles,
    so the score of a row is the sum of that user's scores while no running
    sum exceeds 2^53 in magnitude. From the database the rows arrive with
    the score as text: the decimal notation of the sum, by which the rows
    are ordered. The call leaves the store as it was. *)
Theorem leaderboard_is_ranked :
  (forall (random : nat -> nat) (s : Mem.MemStorage),
     exists leaderboard,
       Mem.getLeaderboard random s = (Resolved leaderboard, s) /\
       descendingBy Mem.lb_score leaderboard /\
       forall row, In row leaderboard ->
         exists k user,
           JsMap.get k (Mem.users s) = Some user /\
           Mem.lb_id row = user_id user /\
           Mem.lb_username row = user_username user /\
           resultsOf k (JsMap.values (Mem.contestResults s)) <> [] /\
           (safeSums
              (map cr_score
                 (resultsOf k (JsMap.values (Mem.contestResults s))))
            = true ->
            Mem.lb_score row
            = scoreSum (resultsOf k (JsMap.values (Mem.contestResults s)))) /\
           In (Mem.lb_topProblem row) Mem.problems) /\
  (forall (random : nat -> nat) (db : Pg.Database),
     exists result,
       Pg.getLeaderboard random db
       = (Resolved (map Pg.fromResult result), db) /\
       descendingBy Mem.lb_score result /\
       forall row, In row result ->
         exists user,
           In user (Pg.t_users db) /\
           Pg.lb_id (Pg.fromResult row) = user_id user /\
           Pg.lb_username (Pg.fromResult row) = user_username user /\
           resultsOf (user_id user) (Pg.t_contest_results db) <> [] /\
           Mem.lb_score row
           = scoreSum (resultsOf (user_id user) (Pg.t_contest_results db)) /\
           Pg.lb_score (Pg.fromResult row)
           = Pg.decimalText
               (scoreSum
                  (resultsOf (user_id user) (Pg.t_contest_results db))) /\
           In (Pg.lb_topProblem (Pg.fromResult row)) Pg.caseProblems).
Proof.
  split.
  - intros random s. eexists. split; [reflexivity|].
    split; [apply RankFacts.sortByScore_descending|].
    intros row Hin. cbv beta zeta in Hin.
    apply (proj1 (RankFacts.sortByScore_In _ _)) in Hin.
    apply RankFacts.rows_from in Hin.
    destruct Hin as (k & d & user & Hin & Hu & Hid & Hname & Hscore & _ & Htop).
    unfold JsMap.entries in Hin.
    apply JsMapFacts.In_get in Hin; [|apply LeaderboardFacts.gatherScores_wf].
    rewrite LeaderboardFacts.gatherScores_get in Hin.
    apply RankFacts.gathered_Some in Hin. destruct Hin as (Hne & Hsum & _).
    exists k, user. repeat (split; [assumption|]).
    split; [|assumption].
    intros Hsafe. rewrite Hscore, Hsum.
    now apply LeaderboardFacts.safeSums_exact.
  - intros random db. exists (Pg.leaderboardResult random db).
    split; [reflexivity|].
    split; [apply RankFacts.sortByScore_descending|].
    intros row Hin. unfold Pg.leaderboardResult in Hin.
    apply (proj1 (RankFacts.sortByScore_In _ _)) in Hin.
    apply RankFacts.groups_from in Hin.
    destruct Hin as (user & Hin & Hid & Hname & Hne & Hscore & _ & Htop).
    exists user. simpl. repeat (split; [assumption|]).
    split; [now rewrite Hscore | assumption].
Qed.



(* ===================================================================== *)
(** * Users *)
(* ===================================================================== *)

Module UserFacts.
Import JsMap JsMapFacts.

Lemma users_keyed_set k (u : User) users :
  users_keyed users -> user_id u = k -> users_keyed (set k u users).
Proof.
  intros Hkeyed Hu k' u' Hget. destruct (Z.eq_dec k k') as [<-|Hne].
  - rewrite get_set_same in Hget. now injection Hget as <-.
  - rewrite get_set_other in Hget by assumption. eauto.
Qed.

Lemma memWrite_keyed op s :
  users_keyed (Mem.users s) -> keepsUserId op = true ->
  users_keyed (Mem.users (memWrite op s)).
Proof.
  intros Hkeyed Hop. destruct op; unfold memWrite, exec.
  all: try (unfold Mem.createEvent,
              Mem.updateEvent, Mem.deleteEvent, Mem.createEventRegistration,
              Mem.deleteEventRegistration, Mem.createContestResult,
              Mem.updateContestResult, Mem.deleteContestResult,
              Mem.createForumPost, Mem.updateForumPost, Mem.deleteForumPost,
              Mem.incrementForumPostViews, Mem.createForumReply,
              Mem.updateForumReply, Mem.upvoteForumReply,
              Mem.deleteForumReply, Mem.markAsBestAnswer,
              Mem.createResource, Mem.updateResource, Mem.deleteResource;
            simpl;
            repeat match goal with
                   | |- context [match ?x with _ => _ end] => destruct x
                   end; simpl; exact Hkeyed).
  - simpl. now apply users_keyed_set.
  - unfold Mem.updateUser.
    destruct (get id (Mem.users s)) as [user|] eqn:E; simpl; [|exact Hkeyed].
    apply users_keyed_set; [exact Hkeyed|].
    simpl in Hop. simpl. destruct (pu_id userData); [discriminate|].
    simpl. eauto.
  - unfold Mem.updateLeaderboardEntry, bind, Mem.getUser, Mem.getLeaderboard,
      gets, throw, modify, ret.
    destruct (get userId (Mem.users s)); [|exact Hkeyed].
    destruct (num_or_null score); simpl; exact Hkeyed.
Qed.

Lemma memWrites_keyed ops : forall s,
  users_keyed (Mem.users s) -> forallb keepsUserId ops = true ->
  users_keyed (Mem.users (memWrites ops s)).
Proof.
  induction ops as [|op ops IH]; intros s Hkeyed Hops; simpl in *;
    [exact Hkeyed|].
  apply andb_true_iff in Hops. destruct Hops as [Hop Hops].
  apply IH; [|exact Hops]. now apply memWrite_keyed.
Qed.

Lemma constructor_keyed now : users_keyed (Mem.users (Mem.constructor now)).
Proof.
  apply LeaderboardFacts.users_keyed_Forall. simpl. repeat constructor.
Qed.

Lemma find_app {A : Type} (f : A -> bool) l l' :
  find f (l ++ l')
  = match find f l with
    | Some a => Some a
    | None => find f l'
    end.
Proof.
  induction l as [|a l IH]; simpl; [reflexivity|].
  destruct (f a); [reflexivity | exact IH].
Qed.

End UserFacts.

(** X20. Every user stays filed under its own id: whatever the storage writes
    after the constructor, as long as no patch of [updateUser] has the key
    [id], a user found under an id has that id. *)
Theorem users_stay_under_their_ids :
  forall (now : Z) (ops : list MemWrite),
    forallb keepsUserId ops = true ->
    users_keyed (Mem.users (memWrites ops (Mem.constructor now))).
Proof.
  intros now ops Hops. apply UserFacts.memWrites_keyed; [|exact Hops].
  apply UserFacts.constructor_keyed.
Qed.

(** Alice joins and changes her display name. *)
Lemma users_stay_under_their_ids_witness :
  users_keyed
    (Mem.users
       (memWrites
          [WCreateUser aliceForm 5;
           WUpdateUser 2
             (mkPartialUser None None None (Some "Alice L.") None None None
                None None None)]
          (Mem.constructor 0))).
Proof. apply users_stay_under_their_ids. reflexivity. Defined.

(** X21. [createUser] does not look for the username or the email among the
    stored users, and the look-ups by username and by email answer with the
    oldest match: after one more [createUser] a look-up that found a user
    still finds that user, also when the new user has the same name; a
    look-up that found none finds the new user exactly when the names are
    the same up to case. *)
Theorem lookups_prefer_the_older_user :
  forall (toLowerCase : string -> string) (name : string)
         (insertUser : InsertUser) (now : Z) (s : Mem.MemStorage),
    store_ok s ->
    exists created s' byName byEmail,
      Mem.createUser insertUser now s = (Resolved created, s') /\
      Mem.getUserByUsername toLowerCase name s = (Resolved byName, s) /\
      Mem.getUserByEmail toLowerCase name s = (Resolved byEmail, s) /\
      Mem.getUserByUsername toLowerCase name s'
      = (Resolved
           (match byName with
            | Some user => Some user
            | None =>
                if String.eqb (toLowerCase (iu_username insertUser))
                              (toLowerCase name)
                then Some created else None
            end), s') /\
      Mem.getUserByEmail toLowerCase name s'
      = (Resolved
           (match byEmail with
            | Some user => Some user
            | None =>
                if String.eqb (toLowerCase (iu_email insertUser))
                              (toLowerCase name)
                then Some created else None
            end), s').
Proof.
  intros toLowerCase name insertUser now s Hok.
  do 4 eexists. split; [reflexivity|].
  split; [reflexivity|]. split; [reflexivity|].
  unfold Mem.getUserByUsername, Mem.getUserByEmail, gets. simpl.
  rewrite CrudFacts.set_fresh by apply Hok.
  unfold JsMap.values. rewrite map_app, !UserFacts.find_app. simpl.
  split; f_equal; f_equal;
    match goal with
    | |- context [find ?f ?l] => destruct (find f l)
    end; reflexivity.
Qed.

(** A second "Alice" joins the club: the look-up still answers with the
    first. *)
Lemma lookups_prefer_the_older_user_witness :
  Mem.getUserByUsername lowerText "ALICE"
    (exec (Mem.createUser
             (mkInsertUser "Alice" "$2b$10$other" "Alice II" "a2@dsac.com"
                None None None None) 9)
          clubScenario)
  = (Resolved (Some alice),
     exec (Mem.createUser
             (mkInsertUser "Alice" "$2b$10$other" "Alice II" "a2@dsac.com"
                None None None None) 9)
          clubScenario).
Proof.
  destruct (lookups_prefer_the_older_user lowerText "ALICE"
              (mkInsertUser "Alice" "$2b$10$other" "Alice II" "a2@dsac.com"
                 None None None None) 9 clubScenario
              HandlerFacts.clubScenario_ok)
    as (created & s' & byName & byEmail & Hc & Hn & _ & Hn' & _).
  injection Hc as <- <-. injection Hn as <-. exact Hn'.
Defined.

(* ===================================================================== *)
(** * The relational backend on its own *)
(* ===================================================================== *)

Module PgFacts.
Import TableFacts.

Lemma exec_amap {St A B : Type} (f : A -> B) (c : Async St A) s :
  exec (amap f c) s = exec c s.
Proof. unfold exec, amap. destruct (c s) as [[a|e] s']; reflexivity. Qed.

Lemma exec_pgCall op db :
  exec (pgCall op) db
  = match op with
    | CreateUser insertUser now => exec (Pg.createUser insertUser now) db
    | CreateForumPost post now => exec (Pg.createForumPost post now) db
    | DeleteForumPost id => exec (Pg.deleteForumPost id) db
    | IncrementForumPostViews id => exec (Pg.incrementForumPostViews id) db
    | CreateForumReply reply now => exec (Pg.createForumReply reply now) db
    | UpvoteForumReply id => exec (Pg.upvoteForumReply id) db
    | UpdateForumReply id replyData now =>
        exec (Pg.updateForumReply id replyData now) db
    | DeleteForumReply id => exec (Pg.deleteForumReply id) db
    | MarkAsBestAnswer postId replyId =>
        exec (Pg.markAsBestAnswer postId replyId) db
    | _ => db
    end.
Proof.
  destruct op; simpl; rewrite exec_amap; try reflexivity;
    unfold exec, Pg.getUser, Pg.getForumPost, Pg.getForumReply, Pg.withInt4,
      gets;
    now destruct (Pg.inInt4 id).
Qed.

Lemma existsb_In_id {R : Type} (id : R -> Z) k rows :
  existsb (fun r => id r =? k) rows = true -> In k (map id rows).
Proof.
  intros H. apply existsb_exists in H. destruct H as [r [Hin Heq]].
  apply Z.eqb_eq in Heq. subst k. now apply in_map.
Qed.

Lemma below_succ {R : Type} (id : R -> Z) rows seq :
  (forall r, In r rows -> id r < seq) -> forall r, In r rows -> id r < seq + 1.
Proof. intros H r Hin. apply H in Hin. lia. Qed.

Ltac case_if :=
  match goal with
  | |- context [if ?b then _ else _] => destruct b eqn:?
  end.

(** A refused parameter leaves the database as it was. *)
Ltac bound_by tac :=
  unfold Pg.withInt4, Pg.withText;
  repeat match goal with
         | |- context [if Pg.inInt4 ?n then _ else _] =>
             destruct (Pg.inInt4 n) eqn:?; [|tac]
         | |- context [if existsb Pg.hasNul ?texts then _ else _] =>
             destruct (existsb Pg.hasNul texts) eqn:?; [tac|]
         end.

Ltac bound Hcons := bound_by ltac:(exact Hcons).

Lemma pgCall_consistent op db :
  consistent db -> consistent (exec (pgCall op) db).
Proof.
  intros Hcons. rewrite exec_pgCall.
  destruct op; try exact Hcons;
    destruct db as [tu tc tp tr su sp sr];
    pose proof Hcons as Hcons';
    destruct Hcons'
      as ((Hpku & Hpkp & Hpkr) & (Hfk & Hty) & (Hsequ & Hseqp & Hseqr));
    unfold exec;
    cbn [Pg.t_users Pg.t_contest_results Pg.t_forum_posts Pg.t_forum_replies
         Pg.users_id_seq Pg.forum_posts_id_seq Pg.forum_replies_id_seq] in *.
  - (* createUser *)
    unfold Pg.createUser. bound Hcons. cbv zeta.
    repeat case_if; simpl; try exact Hcons;
      BackendFacts.consistent_split; try (now apply below_succ).
    + apply NoDup_map_snoc; [assumption|]. simpl.
      now apply BackendFacts.fresh_id.
    + now apply BackendFacts.below_next.
  - (* createForumPost *)
    unfold Pg.createForumPost. bound Hcons. cbv zeta.
    repeat case_if; simpl; try exact Hcons;
      BackendFacts.consistent_split; try (now apply below_succ).
    + apply NoDup_map_snoc; [assumption|]. simpl.
      now apply BackendFacts.fresh_id.
    + intros r Hr. rewrite map_app. apply in_or_app. left. auto.
    + intros p Hp. apply in_app_iff in Hp.
      destruct Hp as [Hp|[<-|[]]]; [now apply Hty|]. simpl.
      now apply negb_false_iff.
    + now apply BackendFacts.below_next.
  - (* deleteForumPost *)
    unfold Pg.deleteForumPost. bound Hcons. unfold Pg.delete_where. simpl.
    BackendFacts.consistent_split.
    + now apply NoDup_map_filter.
    + destruct (filter (fun p => post_id p =? id) tp); simpl;
        [assumption | now apply NoDup_map_filter].
    + intros r Hr.
      assert (Hkeep : In r tr /\ reply_postId r <> id).
      { destruct (filter (fun p => post_id p =? id) tp) eqn:E.
        - split; [assumption|]. intros Heq.
          apply (filter_id_nil_inv post_id id tp E).
          rewrite <- Heq. now apply Hfk.
        - simpl in Hr. apply filter_In in Hr. destruct Hr as [Hr Hne].
          apply negb_true_iff, Z.eqb_neq in Hne. now split. }
      destruct Hkeep as [Hin Hne]. apply Hfk in Hin.
      apply in_map_iff in Hin. destruct Hin as [p [Hp Hin]].
      apply in_map_iff. exists p. split; [assumption|].
      apply filter_In. split; [assumption|].
      apply negb_true_iff, Z.eqb_neq. congruence.
    + intros p Hp. apply filter_In in Hp. now apply Hty.
    + intros p Hp. apply filter_In in Hp. now apply Hseqp.
    + intros r Hr.
      destruct (filter (fun p => post_id p =? id) tp);
        [|simpl in Hr; apply filter_In in Hr]; now apply Hseqr.
  - (* incrementForumPostViews *)
    unfold Pg.incrementForumPostViews. bound Hcons. unfold Pg.update_where.
    case_if; simpl; [exact Hcons|].
    BackendFacts.consistent_split.
    + rewrite (map_id_update post_id); auto.
    + intros r Hr. rewrite (map_id_update post_id); auto.
    + intros p Hp. apply in_map_iff in Hp. destruct Hp as [p' [<- Hp']].
      destruct (post_id p' =? id); unfold post_set_views; simpl;
        now apply Hty.
    + intros p Hp. apply in_map_iff in Hp. destruct Hp as [p' [<- Hp']].
      destruct (post_id p' =? id); unfold post_set_views; simpl;
        now apply Hseqp.
  - (* createForumReply *)
    unfold Pg.createForumReply. bound Hcons. cbv zeta.
    repeat case_if; simpl; try exact Hcons;
      BackendFacts.consistent_split; try (now apply below_succ).
    + apply NoDup_map_snoc; [assumption|]. simpl.
      now apply BackendFacts.fresh_id.
    + intros r Hr. apply in_app_iff in Hr.
      destruct Hr as [Hr|[<-|[]]]; [now apply Hfk|]. simpl.
      apply existsb_In_id. now apply negb_false_iff.
    + now apply BackendFacts.below_next.
  - (* upvoteForumReply *)
    unfold Pg.upvoteForumReply. bound Hcons. unfold Pg.update_where.
    case_if; simpl; [exact Hcons|].
    destruct (map _ (filter _ tr)); simpl; [exact Hcons|].
    now apply (BackendFacts.update_replies_consistent
                 (fun r => reply_set_upvotes (reply_upvotes r + 1) r)).
  - (* updateForumReply *)
    unfold Pg.updateForumReply. bound Hcons. unfold Pg.update_where.
    case_if; simpl; [exact Hcons|].
    now apply (BackendFacts.update_replies_consistent
                 (fun r =>
                    mkForumReply (reply_id r) (reply_postId r)
                      (spread (reply_content r) (py_content replyData))
                      (reply_userId r)
                      (spread (reply_upvotes r) (py_upvotes replyData))
                      (reply_createdAt r) now
                      (spread (reply_isBestAnswer r)
                         (py_isBestAnswer replyData)))).
  - (* deleteForumReply *)
    unfold Pg.deleteForumReply. bound Hcons. unfold Pg.delete_where. simpl.
    BackendFacts.consistent_split.
    + now apply NoDup_map_filter.
    + intros r Hr. apply filter_In in Hr. now apply Hfk.
    + intros r Hr. apply filter_In in Hr. now apply Hseqr.
  - (* markAsBestAnswer *)
    unfold Pg.markAsBestAnswer. bound Hcons. unfold Pg.update_where.
    destruct (map _ (filter _ _)); simpl; [exact Hcons|].
    BackendFacts.consistent_split.
    + rewrite !(map_id_update reply_id); auto.
    + intros r Hr. apply in_map_iff in Hr.
      destruct Hr as [r1 [<- Hr1]]. apply in_map_iff in Hr1.
      destruct Hr1 as [r0 [<- Hr0]].
      unfold reply_set_isBestAnswer.
      repeat match goal with
             | |- context [if ?b then _ else _] => destruct b
             end; simpl; now apply Hfk.
    + intros r Hr. apply in_map_iff in Hr.
      destruct Hr as [r1 [<- Hr1]]. apply in_map_iff in Hr1.
      destruct Hr1 as [r0 [<- Hr0]].
      unfold reply_set_isBestAnswer.
      repeat match goal with
             | |- context [if ?b then _ else _] => destruct b
             end; simpl; now apply Hseqr.
Qed.

Lemma pgCalls_consistent ops : forall db,
  consistent db -> consistent (pgCalls ops db).
Proof.
  induction ops as [|op ops IH]; intros db Hcons; simpl; [exact Hcons|].
  apply IH. now apply pgCall_consistent.
Qed.

(** ** Unique user names and addresses *)

Lemma NoDup_snoc {A : Type} (x : A) l :
  NoDup l -> ~ In x l -> NoDup (l ++ [x]).
Proof.
  intros Hnd Hnin. apply NoDup_app; [assumption|repeat constructor; auto|].
  intros a Ha [<-|[]]. contradiction.
Qed.

Lemma existsb_text_false {R : Type} (text : R -> string) name rows :
  existsb (fun r => String.eqb (text r) name) rows = false ->
  ~ In name (map text rows).
Proof.
  intros H Hin. apply in_map_iff in Hin. destruct Hin as [r [Hr Hin]].
  assert (Ht : existsb (fun r => String.eqb (text r) name) rows = true).
  { apply existsb_exists. exists r. split; [assumption|].
    now apply String.eqb_eq. }
  congruence.
Qed.

Lemma pgCall_unique op db :
  unique_logins db -> unique_logins (exec (pgCall op) db).
Proof.
  intros Huniq. rewrite exec_pgCall.
  destruct op; try exact Huniq; destruct db as [tu tc tp tr su sp sr];
    destruct Huniq as [Hname Hmail]; unfold exec, unique_logins in *;
    simpl in *.
  - unfold Pg.createUser. bound_by ltac:(split; assumption). cbv zeta.
    repeat case_if; simpl; try (split; assumption).
    rewrite !map_app. simpl.
    split; apply NoDup_snoc; try assumption;
      now apply existsb_text_false.
  - unfold Pg.createForumPost. bound_by ltac:(split; assumption). cbv zeta.
    repeat case_if; simpl; split; assumption.
  - unfold Pg.deleteForumPost. bound_by ltac:(split; assumption).
    simpl. split; assumption.
  - unfold Pg.incrementForumPostViews. bound_by ltac:(split; assumption).
    unfold Pg.update_where.
    case_if; simpl; split; assumption.
  - unfold Pg.createForumReply. bound_by ltac:(split; assumption). cbv zeta.
    repeat case_if; simpl; split; assumption.
  - unfold Pg.upvoteForumReply. bound_by ltac:(split; assumption).
    unfold Pg.update_where.
    case_if; simpl; [split; assumption|].
    destruct (map _ (filter _ _)); simpl; split; assumption.
  - unfold Pg.updateForumReply. bound_by ltac:(split; assumption).
    unfold Pg.update_where.
    case_if; simpl; split; assumption.
  - unfold Pg.deleteForumReply. bound_by ltac:(split; assumption).
    simpl. split; assumption.
  - unfold Pg.markAsBestAnswer. bound_by ltac:(split; assumption).
    unfold Pg.update_where.
    destruct (map _ (filter _ _)); simpl; split; assumption.
Qed.

Lemma pgCalls_unique ops : forall db,
  unique_logins db -> unique_logins (pgCalls ops db).
Proof.
  induction ops as [|op ops IH]; intros db Huniq; simpl; [exact Huniq|].
  apply IH. now apply pgCall_unique.
Qed.

(** ** Rejected calls *)

Lemma amap_rejected {St A B : Type} (f : A -> B) (c : Async St A) s e s' :
  amap f c s = (Rejected e, s') -> c s = (Rejected e, s').
Proof.
  unfold amap. destruct (c s) as [[a|e'] s'']; [discriminate|].
  now intros [= -> ->].
Qed.

Lemma pgCall_rejected op db e db' :
  pgCall op db = (Rejected e, db') -> same_tables db db'.
Proof.
  destruct op; simpl; intros H; apply amap_rejected in H; revert H.
  - unfold Pg.createUser.
    bound_by ltac:(intros [= _ <-]; repeat split). cbv zeta.
    repeat case_if; intros [= _ <-]; repeat split.
  - unfold Pg.getUser, gets.
    bound_by ltac:(intros [= _ <-]; repeat split). discriminate.
  - unfold Pg.createForumPost.
    bound_by ltac:(intros [= _ <-]; repeat split). cbv zeta.
    repeat case_if; intros [= _ <-]; repeat split.
  - unfold Pg.getForumPost, gets.
    bound_by ltac:(intros [= _ <-]; repeat split). discriminate.
  - unfold Pg.deleteForumPost, Pg.delete_where.
    bound_by ltac:(intros [= _ <-]; repeat split). discriminate.
  - unfold Pg.incrementForumPostViews.
    bound_by ltac:(intros [= _ <-]; repeat split). unfold Pg.update_where.
    case_if; intros [= _ <-]; repeat split.
  - unfold Pg.createForumReply.
    bound_by ltac:(intros [= _ <-]; repeat split). cbv zeta.
    repeat case_if; intros [= _ <-]; repeat split.
  - unfold Pg.getForumReply, gets.
    bound_by ltac:(intros [= _ <-]; repeat split). discriminate.
  - unfold Pg.upvoteForumReply.
    bound_by ltac:(intros [= _ <-]; repeat split). unfold Pg.update_where.
    case_if; [intros [= _ <-]; repeat split|].
    destruct (map _ (filter _ _)); intros [= _ <-]; repeat split.
  - unfold Pg.updateForumReply.
    bound_by ltac:(intros [= _ <-]; repeat split). unfold Pg.update_where.
    case_if; intros [= _ <-]; repeat split.
  - unfold Pg.deleteForumReply, Pg.delete_where.
    bound_by ltac:(intros [= _ <-]; repeat split). discriminate.
  - unfold Pg.markAsBestAnswer.
    bound_by ltac:(intros [= _ <-]; repeat split). unfold Pg.update_where.
    destruct (map _ (filter _ _)); intros [= _ <-]; repeat split.
Qed.

End PgFacts.

(** X22. Whatever calls the relational backend serves after [initTables], the
    primary keys stay unique, every reply points to a post of the table,
    the ids of the posts are [INTEGER] values, the ids lie below their
    sequences, and no two users share a username or an email address. *)
Theorem database_stays_consistent :
  forall (now : Z) (ops : list StorageOp),
    consistent (pgCalls ops (Pg.initTables now)) /\
    unique_logins (pgCalls ops (Pg.initTables now)).
Proof.
  intros now ops. split.
  - apply PgFacts.pgCalls_consistent. apply BackendFacts.initial_consistent.
  - apply PgFacts.pgCalls_unique. split; simpl; repeat constructor; auto.
Qed.

(** X23. A call that the relational backend rejects leaves the rows of every
    table as they were; at most a sequence has moved on. *)
Theorem rejected_calls_change_no_row :
  forall (op : StorageOp) (db db' : Pg.Database) (e : Failure),
    pgCall op db = (Rejected e, db') -> same_tables db db'.
Proof. intros op db db' e. apply PgFacts.pgCall_rejected. Qed.

(** A reply to a post 7 that is not there: the sequence moves on, the
    tables stay. *)
Lemma rejected_calls_change_no_row_witness :
  same_tables (Pg.initTables 0)
    (exec (pgCall (CreateForumReply (mkInsertForumReply 7 "hello" 1) 10))
          (Pg.initTables 0)) /\
  Pg.forum_replies_id_seq
    (exec (pgCall (CreateForumReply (mkInsertForumReply 7 "hello" 1) 10))
          (Pg.initTables 0)) = 2.
Proof.
  split; [|reflexivity].
  apply (rejected_calls_change_no_row
           (CreateForumReply (mkInsertForumReply 7 "hello" 1) 10)
           (Pg.initTables 0) _
           (DbError (ForeignKey "forum_replies" "post_id"))).
  reflexivity.
Defined.

Module PgBestFacts.
Import TableFacts.

(** With unique ids at most one row has the id [R]. *)
Lemma filter_id_and (c : ForumReply -> bool) R rows :
  NoDup (map reply_id rows) ->
  filter (fun r => (reply_id r =? R) && c r) rows
  = match find (fun r => (reply_id r =? R) && c r) rows with
    | Some r => [r]
    | None => []
    end.
Proof.
  induction rows as [|r rows IH]; simpl; [reflexivity|].
  intros Hnd. inversion Hnd as [|? ? Hnin Hnd']; subst.
  destruct (reply_id r =? R) eqn:E; simpl.
  - apply Z.eqb_eq in E.
    assert (Hrest : filter (fun r => (reply_id r =? R) && c r) rows = []).
    { rewrite BackendFacts.filter_andb.
      rewrite (filter_id_none reply_id); [reflexivity | congruence]. }
    destruct (c r); [now rewrite Hrest | now apply IH].
  - now apply IH.
Qed.

(** The rows the second update leaves as they are. *)
Lemma mark_absent P R rows :
  ~ In R (map reply_id rows) ->
  map (fun r => if (reply_id r =? R) && (reply_postId r =? P)
                then reply_set_isBestAnswer true r else r)
      (map (resetOne P) rows)
  = map (resetOne P) rows.
Proof.
  induction rows as [|r rows IH]; simpl; [reflexivity|].
  intros Hnin. rewrite IH by tauto. f_equal.
  rewrite BackendFacts.resetOne_id.
  destruct (reply_id r =? R) eqn:E; [apply Z.eqb_eq in E; tauto|].
  reflexivity.
Qed.

(** After the two updates the marked row is the one best answer. *)
Lemma best_after_mark P R reply rows :
  NoDup (map reply_id rows) ->
  In reply rows -> reply_id reply = R -> reply_postId reply = P ->
  filter (isBestOf P)
    (map (fun r => if (reply_id r =? R) && (reply_postId r =? P)
                   then reply_set_isBestAnswer true r else r)
         (map (resetOne P) rows))
  = [reply_set_isBestAnswer true reply].
Proof.
  induction rows as [|r rows IH]; simpl; [tauto|].
  intros Hnd Hin HR HP. inversion Hnd as [|? ? Hnin Hnd']; subst.
  rewrite BackendFacts.resetOne_id, ForumFacts.resetOne_postId.
  destruct Hin as [->|Hin].
  - rewrite !Z.eqb_refl. simpl. rewrite ForumFacts.mark_resetOne.
    unfold isBestOf at 1. simpl. rewrite Z.eqb_refl. simpl.
    rewrite mark_absent by assumption.
    now rewrite ForumFacts.filter_isBestOf_reset.
  - destruct (reply_id r =? reply_id reply) eqn:E.
    + apply Z.eqb_eq in E. exfalso. apply Hnin. rewrite E. now apply in_map.
    + simpl. rewrite ForumFacts.isBestOf_resetOne_same. now apply IH.
Qed.

(** The best answers of the other posts stay. *)
Lemma best_of_others P Q R rows :
  Q <> P ->
  filter (isBestOf Q)
    (map (fun r => if (reply_id r =? R) && (reply_postId r =? P)
                   then reply_set_isBestAnswer true r else r)
         (map (resetOne P) rows))
  = filter (isBestOf Q) rows.
Proof.
  intros Hne. induction rows as [|r rows IH]; simpl; [reflexivity|].
  rewrite IH. rewrite BackendFacts.resetOne_id, ForumFacts.resetOne_postId.
  destruct ((reply_id r =? R) && (reply_postId r =? P)) eqn:E.
  - apply andb_true_iff in E. destruct E as [_ E]. apply Z.eqb_eq in E.
    unfold isBestOf. simpl. rewrite ForumFacts.resetOne_postId.
    destruct (reply_postId r =? Q) eqn:E'; [|reflexivity].
    apply Z.eqb_eq in E'. congruence.
  - rewrite ForumFacts.isBestOf_resetOne_other by assumption.
    destruct (isBestOf Q r) eqn:E'; [|reflexivity].
    f_equal. unfold isBestOf in E'. apply andb_true_iff in E'.
    destruct E' as [E' _]. apply Z.eqb_eq in E'.
    unfold resetOne. destruct (reply_postId r =? P) eqn:E''; [|reflexivity].
    apply Z.eqb_eq in E''. congruence.
Qed.

Lemma markAsBestAnswer_rows P R db :
  Pg.inInt4 P = true -> Pg.inInt4 R = true ->
  Pg.markAsBestAnswer P R db
  = match map (reply_set_isBestAnswer true)
            (map (resetOne P)
               (filter (fun r => (reply_id r =? R) && (reply_postId r =? P))
                  (Pg.t_forum_replies db))) with
    | [] =>
        (Rejected
           (JsError "Reply not found or doesn't belong to the specified post"),
         db)
    | row :: _ =>
        (Resolved row,
         Pg.set_t_forum_replies
           (map (fun r => if (reply_id r =? R) && (reply_postId r =? P)
                          then reply_set_isBestAnswer true r else r)
                (map (resetOne P) (Pg.t_forum_replies db)))
           (Pg.forum_replies_id_seq db) db)
    end.
Proof.
  intros HP HR. unfold Pg.markAsBestAnswer, Pg.withInt4, Pg.update_where.
  rewrite HP, HR.
  change (fun r => if (reply_postId r =? P) && reply_isBestAnswer r
                   then reply_set_isBestAnswer false r else r)
    with (resetOne P).
  rewrite (BackendFacts.filter_map_comm _ (resetOne P)).
  assert (Hf : forall l,
    filter (fun x => (reply_id (resetOne P x) =? R)
                     && (reply_postId (resetOne P x) =? P)) l
    = filter (fun r => (reply_id r =? R) && (reply_postId r =? P)) l).
  { intros l. apply filter_ext. intros r.
    now rewrite BackendFacts.resetOne_id, ForumFacts.resetOne_postId. }
  rewrite Hf. reflexivity.
Qed.

(** Ids that are no INTEGER are refused before any statement runs. *)
Lemma markAsBestAnswer_refused P R db :
  Pg.inInt4 P && Pg.inInt4 R = false ->
  Pg.markAsBestAnswer P R db = (Rejected (DbError IntegerOutOfRange), db).
Proof.
  unfold Pg.markAsBestAnswer, Pg.withInt4.
  destruct (Pg.inInt4 P), (Pg.inInt4 R); (discriminate || reflexivity).
Qed.

End PgBestFacts.

(** X24. In the relational backend [markAsBestAnswer P R] answers for every
    input in one of three ways. When both ids are INTEGER values and a reply
    with the id [R] belongs to post [P], it resolves to that reply marked,
    which is then the one best answer of [P], and the best answers of the
    other posts stay. When both are INTEGER values and there is no such
    reply, it rejects with its own message; when one of them is outside
    INTEGER, the database refuses the parameter. In both rejections the
    database is as before, best answers included. *)
Theorem database_marks_one_best_answer :
  forall (P R : Z) (db : Pg.Database),
    NoDup (map reply_id (Pg.t_forum_replies db)) ->
    if Pg.inInt4 P && Pg.inInt4 R then
      match find (fun r => (reply_id r =? R) && (reply_postId r =? P))
                 (Pg.t_forum_replies db) with
      | Some reply =>
          exists db',
            Pg.markAsBestAnswer P R db
            = (Resolved (reply_set_isBestAnswer true reply), db') /\
            filter (isBestOf P) (Pg.t_forum_replies db')
            = [reply_set_isBestAnswer true reply] /\
            forall Q, Q <> P ->
              filter (isBestOf Q) (Pg.t_forum_replies db')
              = filter (isBestOf Q) (Pg.t_forum_replies db)
      | None =>
          Pg.markAsBestAnswer P R db
          = (Rejected
               (JsError
                  "Reply not found or doesn't belong to the specified post"),
             db)
      end
    else
      Pg.markAsBestAnswer P R db = (Rejected (DbError IntegerOutOfRange), db).
Proof.
  intros P R db Hnd.
  destruct (Pg.inInt4 P && Pg.inInt4 R) eqn:Hin4;
    [|now apply PgBestFacts.markAsBestAnswer_refused].
  apply andb_true_iff in Hin4. destruct Hin4 as [HP4 HR4].
  rewrite PgBestFacts.markAsBestAnswer_rows by assumption.
  rewrite (PgBestFacts.filter_id_and (fun r => reply_postId r =? P))
    by assumption.
  destruct (find _ _) as [reply|] eqn:F; [|reflexivity].
  apply find_some in F. destruct F as [Hin Hc].
  apply andb_true_iff in Hc. destruct Hc as [HR HP].
  apply Z.eqb_eq in HR. apply Z.eqb_eq in HP.
  simpl. rewrite ForumFacts.mark_resetOne.
  eexists. split; [reflexivity|]. simpl. split.
  - now apply PgBestFacts.best_after_mark.
  - intros Q Hne. now apply PgBestFacts.best_of_others.
Qed.

(** In the sample forum with reply 1 as best answer of post 1: reply 2 is
    marked instead; reply 3, of post 2, is refused for post 1; and the
    reply 2147483648 is no INTEGER. *)
Lemma database_marks_one_best_answer_witness :
  (exists db',
     Pg.markAsBestAnswer 1 2 databaseWithBest
     = (Resolved (mkForumReply 2 1 "memoise it" 1 0 30 30 true), db') /\
     filter (isBestOf 1) (Pg.t_forum_replies db')
     = [mkForumReply 2 1 "memoise it" 1 0 30 30 true]) /\
  Pg.markAsBestAnswer 1 3 databaseWithBest
  = (Rejected
       (JsError "Reply not found or doesn't belong to the specified post"),
     databaseWithBest) /\
  Pg.markAsBestAnswer 1 2147483648 databaseWithBest
  = (Rejected (DbError IntegerOutOfRange), databaseWithBest).
Proof.
  assert (Hnd : NoDup (map reply_id (Pg.t_forum_replies databaseWithBest))).
  { vm_compute. repeat constructor; simpl; intuition discriminate. }
  split; [|split].
  - destruct (database_marks_one_best_answer 1 2 databaseWithBest Hnd)
      as (db' & Heq & Hbest & _).
    exists db'. split; [exact Heq | exact Hbest].
  - exact (database_marks_one_best_answer 1 3 databaseWithBest Hnd).
  - exact (database_marks_one_best_answer 1 2147483648 databaseWithBest Hnd).
Defined.

(** X25. The relational backend refuses a second user with a stored username or
    email address, whatever else the form says; the table of users stays as
    it was. *)
Theorem database_refuses_a_second_login :
  forall (insertUser : InsertUser) (now : Z) (db : Pg.Database) (u : User),
    In u (Pg.t_users db) ->
    user_username u = iu_username insertUser \/
    user_email u = iu_email insertUser ->
    exists violation db',
      Pg.createUser insertUser now db = (Rejected (DbError violation), db') /\
      Pg.t_users db' = Pg.t_users db.
Proof.
  intros insertUser now db u Hin Hsame.
  unfold Pg.createUser, Pg.withText. cbv zeta.
  repeat PgFacts.case_if;
    try (do 2 eexists; split; reflexivity).
  exfalso. simpl in *. destruct Hsame as [Hname|Hmail].
  - match goal with
    | H : existsb (fun r => String.eqb (user_username r) _) _ = false |- _ =>
        apply (PgFacts.existsb_text_false user_username _ _ H)
    end.
    rewrite <- Hname. now apply in_map.
  - match goal with
    | H : existsb (fun r => String.eqb (user_email r) _) _ = false |- _ =>
        apply (PgFacts.existsb_text_false user_email _ _ H)
    end.
    rewrite <- Hmail. now apply in_map.
Qed.

(** A second "admin" asks for an account. *)
Lemma database_refuses_a_second_login_witness :
  exists violation db',
    Pg.createUser
      (mkInsertUser "admin" "$2b$10$hash" "Admin II" "admin2@dsac.com" None
         None None None) 5 (Pg.initTables 0)
    = (Rejected (DbError violation), db') /\
    Pg.t_users db' = Pg.t_users (Pg.initTables 0).
Proof.
  apply (database_refuses_a_second_login _ 5 (Pg.initTables 0)
           (Mem.adminUser 1 0)).
  - now left.
  - now left.
Defined.
